(** * Collaboration hub of the whiteboard backend

    A shallow embedding of the WebSocket side of the backend:

    - [ConnectionManager] (websocket/connection-manager.ts): the registry
      of live connections with its per-room index and the fan-out;
    - [YjsDocumentManager] (yjs/document-manager.ts): the cache of
      in-memory documents and the snapshot persistence;
    - [MessageHandler] (websocket/message-handler.ts): the dispatch of
      inbound frames and the connect / update / presence / chat /
      disconnect handlers.

    Conventions of the embedding.

    - A JS [Map] is a [gmap]; a JS [Set] of strings is a duplicate-free
      list in insertion order (the order in which JS iterates it).
    - A [WebSocket] object is a reference into a store of sockets; what
      [ws.send] does is recorded in the [sent] log of that socket.  The
      frame handed to [JSON.stringify] is logged as a [ServerMessage].
    - [new Date()] is an explicit argument [now] of each handler.
    - The handlers are [async]; every [await] is run to completion before
      the next statement, so a handler is one function on the state.
    - Yjs and the base64 codec of [Buffer] are external libraries: the
      development is parametric in them (classes [Yjs] and [Base64]).
    - [Y.applyUpdate] throws when the bytes it is given are not a Yjs
      update.  The bytes of an update frame come from a client, so the
      update handler is modelled with that exception, which the [catch]
      of [handleMessage] answers with an error frame.  The payload of a
      snapshot row is a state that [saveSnapshot] wrote with
      [Y.encodeStateAsUpdate], which [Y.applyUpdate] reads back: the
      seeding of a document from the store returns.
    - The calls into Prisma are total: a store that fails is outside the
      model.
    - An inbound frame of a known type carries the fields of its
      interface in types.ts.  The numbers in frames (timestamps,
      coordinates) are relayed, never computed on; they are integers
      here, like the snapshot versions, whose column bound is not
      modelled. *)

From stdpp Require Import gmap strings list sorting.
From Stdlib Require Import ZArith Strings.Byte Strings.Ascii.

Set Default Proof Using "Type".

(** ** types.ts *)

Definition Date := Z.
Bind Scope Z_scope with Date.
Definition bytes := list byte.

Record User := mkUser {
  user_id : string;
  user_name : string;
  user_color : string
}.

Inductive Role := owner | editor | viewer.

Record Cursor := mkCursor { cursor_x : Z; cursor_y : Z }.
Record Viewport := mkViewport { vp_x : Z; vp_y : Z; vp_zoom : Z }.

Record Participant := mkParticipant {
  participant_userId : string;
  participant_clientId : string;
  participant_user : User;
  participant_role : Role;
  participant_joinedAt : Date
}.

(** A JSON value, as [JSON.parse] returns it. *)
Unset Elimination Schemes.
Inductive JSON :=
| JNull
| JBool (b : bool)
| JNumber (n : Z)
| JString (s : string)
| JArray (items : list JSON)
| JObject (members : list (string * JSON)).
Set Elimination Schemes.

(** The conversion to a string that a template literal applies to a
    value: whether it returns, or throws a [TypeError].  Primitives are
    converted.  An object is converted by the [toString] it inherits,
    unless a member of its own named [toString] shadows it: no JSON value
    is callable, [valueOf] gives back the object, and the conversion
    throws.  An array is joined, which converts its items in turn. *)
Fixpoint ToString_returns (v : JSON) : bool :=
  match v with
  | JNull | JBool _ | JNumber _ | JString _ => true
  | JArray items => forallb ToString_returns items
  | JObject members => bool_decide ("toString" ∉ members.*1)
  end.

(** Client -> server frames, as [JSON.parse] delivers them.  The six
    variants of [ClientMessage], and [UnknownMessage] for a JSON value
    whose [type] is none of the six discriminators: [type] is that
    value, [None] when the frame has no [type] at all ([undefined]). *)
Inductive ClientMessage :=
| ConnectMessage (roomId : string) (user : User) (token : option string)
| UpdateMessage (delta : string)
| PresenceMessage (clientId : string) (cursor : option Cursor)
    (selection : option (list string)) (viewport : option Viewport)
| LeaveMessage
| HeartbeatMessage (timestamp : Z)
| ChatMessage (userName message : string) (timestamp : Z)
| UnknownMessage (type : option JSON).

(** The values of [type] that the switch of [handleMessage] has a case
    for. *)
Definition discriminators : list string :=
  ["connect"; "update"; "presence"; "chat"; "heartbeat"; "leave"].

(** [`${message.type}`] in the log line of [handleMessage]: the six
    discriminators are strings; [undefined] is converted too. *)
Definition type_is_logged (message : ClientMessage) : bool :=
  match message with
  | UnknownMessage (Some type) => ToString_returns type
  | _ => true
  end.

(** Server -> client frames.  [HeartbeatEcho] and [ChatBroadcast] are the
    two frames the handler sends with [as any]. *)
Inductive ServerMessage :=
| JoinBroadcast (user : User) (clientId roomId : string)
| LeaveBroadcast (clientId userId : string)
| SyncResponse (snapshotData : string) (participants : list Participant)
| UpdateBroadcast (delta : string) (from : string)
| PresenceBroadcast (clientId : string) (cursor : option Cursor)
    (selection : option (list string)) (viewport : option Viewport)
| ErrorMessage (code message : string)
| RoomState (roomId roomName : string) (participants : list Participant)
| HeartbeatEcho (timestamp : Z)
| ChatBroadcast (userName message : string) (timestamp : Z) (clientId : string).

Global Instance User_eq_dec : EqDecision User.
Proof. solve_decision. Defined.
Global Instance Role_eq_dec : EqDecision Role.
Proof. solve_decision. Defined.
Global Instance Cursor_eq_dec : EqDecision Cursor.
Proof. solve_decision. Defined.
Global Instance Viewport_eq_dec : EqDecision Viewport.
Proof. solve_decision. Defined.
Global Instance Participant_eq_dec : EqDecision Participant.
Proof. solve_decision. Defined.
Global Instance ServerMessage_eq_dec : EqDecision ServerMessage.
Proof. solve_decision. Defined.

(** ** Sockets *)

Inductive ReadyState := CONNECTING | OPEN | CLOSING | CLOSED.

Global Instance ReadyState_eq_dec : EqDecision ReadyState.
Proof. solve_decision. Defined.

Definition WebSocket := nat.

Record Socket := mkSocket {
  readyState : ReadyState;
  sent : list ServerMessage
}.

(** [ws.readyState === WebSocket.OPEN] *)
Definition ws_is_open (ws : WebSocket) (net : gmap nat Socket) : bool :=
  match net !! ws with
  | Some s => bool_decide (readyState s = OPEN)
  | None => false
  end.

(** [ws.send(JSON.stringify(message))] *)
Definition ws_send (ws : WebSocket) (message : ServerMessage)
    (net : gmap nat Socket) : gmap nat Socket :=
  alter (λ s, mkSocket (readyState s) (sent s ++ [message])) ws net.

(** The frames a socket has been sent so far. *)
Definition outbox (ws : WebSocket) (net : gmap nat Socket) : list ServerMessage :=
  match net !! ws with
  | Some s => sent s
  | None => []
  end.

(** ** A JS [Set<string>]: insertion-ordered, no duplicates *)

Definition Set_add (x : string) (s : list string) : list string :=
  if decide (x ∈ s) then s else s ++ [x].

Definition Set_delete (x : string) (s : list string) : list string :=
  filter (λ y, y ≠ x) s.

(** ** connection-manager.ts *)

Record ClientConnection := mkClientConnection {
  ws : WebSocket;
  roomId : string;
  user : User;
  joinedAt : Date
}.

Record ConnectionManager := mkConnectionManager {
  connections : gmap string ClientConnection;
  roomClients : gmap string (list string)
}.

Definition ConnectionManager_new : ConnectionManager :=
  mkConnectionManager ∅ ∅.

Definition addConnection (clientId : string) (w : WebSocket) (room : string)
    (u : User) (now : Date) (cm : ConnectionManager) : ConnectionManager :=
  let connections' :=
    <[clientId := mkClientConnection w room u now]> (connections cm) in
  (* Track clients per room *)
  let roomClients1 :=
    match roomClients cm !! room with
    | None => <[room := []]> (roomClients cm)
    | Some _ => roomClients cm
    end in
  let roomClients2 := alter (Set_add clientId) room roomClients1 in
  mkConnectionManager connections' roomClients2.

Definition removeConnection (clientId : string) (cm : ConnectionManager)
    : option (string * User) * ConnectionManager :=
  match connections cm !! clientId with
  | None => (None, cm)
  | Some connection =>
      let room := roomId connection in
      (* Remove from room tracking *)
      let roomClients' :=
        match roomClients cm !! room with
        | Some roomSet =>
            let roomSet' := Set_delete clientId roomSet in
            if decide (length roomSet' = 0)
            then delete room (roomClients cm)
            else <[room := roomSet']> (roomClients cm)
        | None => roomClients cm
        end in
      (Some (room, user connection),
       mkConnectionManager (delete clientId (connections cm)) roomClients')
  end.

Definition getRoomId (clientId : string) (cm : ConnectionManager) : option string :=
  roomId <$> connections cm !! clientId.

Definition getUser (clientId : string) (cm : ConnectionManager) : option User :=
  user <$> connections cm !! clientId.

Definition getRoomClientCount (room : string) (cm : ConnectionManager) : nat :=
  match roomClients cm !! room with
  | Some s => length s
  | None => 0
  end.

Definition getRoomParticipants (room : string) (cm : ConnectionManager)
    : list Participant :=
  match roomClients cm !! room with
  | Some clientIds =>
      omap (λ clientId,
              match connections cm !! clientId with
              | Some connection =>
                  Some (mkParticipant (user_id (user connection)) clientId
                          (user connection) editor (joinedAt connection))
              | None => None
              end) clientIds
  | None => []
  end.

(** One turn of the loop of [broadcastToRoom]. *)
Definition broadcast_step (cm : ConnectionManager) (message : ServerMessage)
    (excludeClientId : option string) (net : gmap nat Socket) (clientId : string)
    : gmap nat Socket :=
  if decide (excludeClientId = Some clientId) then net
  else match connections cm !! clientId with
       | Some connection =>
           if ws_is_open (ws connection) net
           then ws_send (ws connection) message net
           else net
       | None => net
       end.

Definition broadcastToRoom (room : string) (message : ServerMessage)
    (excludeClientId : option string) (cm : ConnectionManager)
    (net : gmap nat Socket) : gmap nat Socket :=
  match roomClients cm !! room with
  | None => net
  | Some clientIds =>
      foldl (broadcast_step cm message excludeClientId) net clientIds
  end.

Definition sendToClient (clientId : string) (message : ServerMessage)
    (cm : ConnectionManager) (net : gmap nat Socket) : gmap nat Socket :=
  match connections cm !! clientId with
  | Some connection =>
      if ws_is_open (ws connection) net
      then ws_send (ws connection) message net
      else net
  | None => net
  end.

Definition isRoomEmpty (room : string) (cm : ConnectionManager) : bool :=
  bool_decide (getRoomClientCount room cm = 0).

(** [getStats()].  The entries of [roomStats] come in the order in which
    the model's map lists its rooms; JS lists them in insertion order. *)
Record RoomStat := mkRoomStat { stat_roomId : string; stat_clientCount : nat }.

Record Stats := mkStats {
  totalConnections : nat;
  totalRooms : nat;
  roomStats : list RoomStat
}.

Definition getStats (cm : ConnectionManager) : Stats :=
  mkStats (size (connections cm)) (size (roomClients cm))
    ((λ entry, mkRoomStat entry.1 (length entry.2))
       <$> map_to_list (roomClients cm)).

(** ** The store behind [PrismaClient]

    Modelled from the spec: the Prisma schema (the declarations of the
    tables [room], [roomParticipant] and [roomSnapshot]) is not part of
    the sources.  The rows carry the columns the handlers write, plus the
    defaulted ones of §3: a participant row is inserted with a null
    [leftAt], a snapshot row gets a fresh primary key. *)

Record Room := mkRoom {
  room_id : string;
  room_name : string;
  room_creatorId : string;
  room_createdAt : Date;
  room_lastActive : Date
}.

Record RoomParticipant := mkRoomParticipant {
  rp_roomId : string;
  rp_userId : string;
  rp_clientId : string;
  rp_userName : string;
  rp_userColor : string;
  rp_role : Role;
  rp_joinedAt : Date;
  rp_leftAt : option Date
}.

Record RoomSnapshot := mkRoomSnapshot {
  snap_id : nat;
  snap_roomId : string;
  snapshotData : bytes;
  stateVector : bytes;
  version : Z;
  snap_createdAt : Date
}.

Record PrismaClient := mkPrismaClient {
  room : gmap string Room;
  roomParticipant : list RoomParticipant;
  roomSnapshot : list RoomSnapshot
}.

Definition PrismaClient_new : PrismaClient := mkPrismaClient ∅ [] [].

(** [orderBy: { version: 'desc' }] *)
Definition version_desc (a b : RoomSnapshot) : Prop := (version b ≤ version a)%Z.

Global Instance version_desc_dec a b : Decision (version_desc a b).
Proof. unfold version_desc. apply _. Defined.

Global Instance version_desc_total : Total version_desc.
Proof. intros a b. unfold version_desc. lia. Qed.

Global Instance version_desc_trans : Transitive version_desc.
Proof. intros a b c. unfold version_desc. lia. Qed.

(** [roomSnapshot.findMany({ where: { roomId }, orderBy: { version: 'desc' } })] *)
Definition snapshots_of (r : string) (rows : list RoomSnapshot) : list RoomSnapshot :=
  filter (λ s, snap_roomId s = r) rows.

Definition roomSnapshot_findMany (r : string) (skip : nat)
    (rows : list RoomSnapshot) : list RoomSnapshot :=
  drop skip (merge_sort version_desc (snapshots_of r rows)).

(** [roomSnapshot.findFirst({ where: { roomId }, orderBy: { version: 'desc' } })] *)
Definition roomSnapshot_findFirst (r : string) (rows : list RoomSnapshot)
    : option RoomSnapshot :=
  head (roomSnapshot_findMany r 0 rows).

Definition fresh_snap_id (rows : list RoomSnapshot) : nat :=
  S (max_list (snap_id <$> rows)).

(** [roomSnapshot.create({ data: { roomId, snapshotData, stateVector, version } })] *)
Definition roomSnapshot_create (r : string) (data sv : bytes) (v : Z)
    (now : Date) (rows : list RoomSnapshot) : list RoomSnapshot :=
  rows ++ [mkRoomSnapshot (fresh_snap_id rows) r data sv v now].

(** [roomSnapshot.deleteMany({ where: { id: { in: ids } } })] *)
Definition roomSnapshot_deleteMany (ids : list nat)
    (rows : list RoomSnapshot) : list RoomSnapshot :=
  filter (λ s, snap_id s ∉ ids) rows.

(** [roomParticipant.updateMany({ where: { clientId, leftAt: null },
    data: { leftAt: new Date() } })] *)
Definition close_row (clientId : string) (now : Date)
    (p : RoomParticipant) : RoomParticipant :=
  if decide (rp_clientId p = clientId ∧ rp_leftAt p = None)
  then mkRoomParticipant (rp_roomId p) (rp_userId p) (rp_clientId p)
         (rp_userName p) (rp_userColor p) (rp_role p) (rp_joinedAt p) (Some now)
  else p.

Definition roomParticipant_updateMany_leftAt (clientId : string) (now : Date)
    (rows : list RoomParticipant) : list RoomParticipant :=
  close_row clientId now <$> rows.

(** [room.update({ where: { id }, data: { lastActive: new Date() } })] *)
Definition room_touch (now : Date) (r : Room) : Room :=
  mkRoom (room_id r) (room_name r) (room_creatorId r) (room_createdAt r) now.

(** ** The external libraries

    [Y.Doc] with the operations of Yjs the backend calls, and the
    base64 codec of [Buffer].  Both are interfaces here; [Section Hub]
    is parametric in their implementations. *)

Class Yjs := {
  Doc : Type;
  Y_Doc_new : Doc;
  (** Whether the bytes are an update that the decoder of Yjs reads to
      the end.  [Y.applyUpdate(doc, update)] throws when they are not,
      and leaves the document as it was. *)
  Y_decodes : bytes → bool;
  (** The document that [Y.applyUpdate(doc, update)] leaves when it
      returns. *)
  Y_applyUpdate : Doc → bytes → Doc;
  Y_encodeStateAsUpdate : Doc → bytes;
  Y_encodeStateVector : Doc → bytes
}.

(** [Buffer.from(s, 'base64')] and [Buffer.from(b).toString('base64')]. *)
Class Base64 := {
  base64_decode : string → bytes;
  base64_encode : bytes → string
}.

Section Hub.

Context `{Yjs, Base64}.

(** *** yjs/document-manager.ts *)

(** The interval timer of a room: it calls [saveSnapshot] on the room's
    document every [timer_period] milliseconds. *)
Record Timer := mkTimer { timer_room : string; timer_period : Z }.

Record YjsDocumentManager := mkYjsDocumentManager {
  documents : gmap string Doc;
  saveTimers : gmap string Timer;
  saveIntervalMs : Z
}.

Definition YjsDocumentManager_new : YjsDocumentManager :=
  mkYjsDocumentManager ∅ ∅ 30000.

Definition setupSnapshotSaving (r : string) (y : YjsDocumentManager)
    : YjsDocumentManager :=
  (* the existing timer, if any, is cleared and replaced *)
  mkYjsDocumentManager (documents y)
    (<[r := mkTimer r (saveIntervalMs y)]> (saveTimers y))
    (saveIntervalMs y).

(** The payload applied to the new document is one that [saveSnapshot]
    wrote: the call of [Y.applyUpdate] returns. *)
Definition getOrCreateDocument (r : string) (db : PrismaClient)
    (y : YjsDocumentManager) : Doc * YjsDocumentManager :=
  match documents y !! r with
  | Some doc => (doc, y)
  | None =>
      let doc :=
        (* Load latest snapshot from database *)
        match roomSnapshot_findFirst r (roomSnapshot db) with
        | Some snapshot => Y_applyUpdate Y_Doc_new (snapshotData snapshot)
        | None => Y_Doc_new
        end in
      let y1 := mkYjsDocumentManager (<[r := doc]> (documents y))
                  (saveTimers y) (saveIntervalMs y) in
      (doc, setupSnapshotSaving r y1)
  end.

(** The document a first admission to room [r] starts from: the empty
    document, with the newest persisted snapshot applied if there is one. *)
Definition seeded_document (r : string) (rows : list RoomSnapshot) : Doc :=
  match roomSnapshot_findFirst r rows with
  | Some snapshot => Y_applyUpdate Y_Doc_new (snapshotData snapshot)
  | None => Y_Doc_new
  end.

(** [(lastSnapshot?.version || 0) + 1]: a missing row and a version 0
    are both falsy. *)
Definition next_version (lastSnapshot : option RoomSnapshot) : Z :=
  (match lastSnapshot with
   | Some s => if decide (version s = 0%Z) then 0 else version s
   | None => 0
   end + 1)%Z.

(** The body of the [try] of [saveSnapshot], on the snapshot table. *)
Definition saveSnapshot_rows (r : string) (document : Doc) (now : Date)
    (rows : list RoomSnapshot) : list RoomSnapshot :=
  let snapshot := Y_encodeStateAsUpdate document in
  let sv := Y_encodeStateVector document in
  let lastSnapshot := roomSnapshot_findFirst r rows in
  let v := next_version lastSnapshot in
  let rows1 := roomSnapshot_create r snapshot sv v now rows in
  (* Cleanup old snapshots (keep last 10) *)
  let oldSnapshots := roomSnapshot_findMany r 10 rows1 in
  if decide (0 < length oldSnapshots)
  then roomSnapshot_deleteMany (snap_id <$> oldSnapshots) rows1
  else rows1.

(** [doc || this.documents.get(roomId)] *)
Definition document_to_save (r : string) (doc : option Doc)
    (y : YjsDocumentManager) : option Doc :=
  match doc with
  | Some d => Some d
  | None => documents y !! r
  end.

Definition saveSnapshot (r : string) (doc : option Doc) (now : Date)
    (y : YjsDocumentManager) (db : PrismaClient) : PrismaClient :=
  match document_to_save r doc y with
  | None => db
  | Some document =>
      mkPrismaClient (room db) (roomParticipant db)
        (saveSnapshot_rows r document now (roomSnapshot db))
  end.

(** [applyUpdate] returns a boolean, or [Y.applyUpdate] throws in it
    ([None]): the bytes are those of a client, and the manager is as it
    was. *)
Definition applyUpdate (r : string) (update : bytes) (y : YjsDocumentManager)
    : option (bool * YjsDocumentManager) :=
  match documents y !! r with
  | Some doc =>
      if Y_decodes update
      then Some (true,
                 mkYjsDocumentManager (<[r := Y_applyUpdate doc update]> (documents y))
                   (saveTimers y) (saveIntervalMs y))
      else None
  | None => Some (false, y)
  end.

Definition getStateAsUpdate (r : string) (y : YjsDocumentManager) : option bytes :=
  Y_encodeStateAsUpdate <$> documents y !! r.

Definition getStateVector (r : string) (y : YjsDocumentManager) : option bytes :=
  Y_encodeStateVector <$> documents y !! r.

Definition destroyDocument (r : string) (now : Date) (y : YjsDocumentManager)
    (db : PrismaClient) : YjsDocumentManager * PrismaClient :=
  match documents y !! r with
  | Some doc =>
      (* Save final snapshot before destroying *)
      let db' := saveSnapshot r (Some doc) now y db in
      (mkYjsDocumentManager (delete r (documents y)) (delete r (saveTimers y))
         (saveIntervalMs y), db')
  | None => (y, db)
  end.

Definition getActiveRoomCount (y : YjsDocumentManager) : nat := size (documents y).


(** *** websocket/message-handler.ts *)

(** The state the [MessageHandler] works on: its three collaborators and
    the sockets they send on. *)
Record Server := mkServer {
  connectionManager : ConnectionManager;
  yjsManager : YjsDocumentManager;
  prisma : PrismaClient;
  net : gmap nat Socket
}.

(** [createWebSocketServer(server, prisma)]: a new registry and a new
    document manager on the database [db], which holds what earlier runs
    of the server left in it. *)
Definition Server_start (db : PrismaClient) : Server :=
  mkServer ConnectionManager_new YjsDocumentManager_new db ∅.

(** The server of a first run, on an empty database. *)
Definition Server_new : Server := Server_start PrismaClient_new.

(** What [JSON.parse(data)] followed by the read of [message.type] makes
    of an inbound frame: [JSON.parse] throws ([SyntaxError]), or it
    returns [null] and reading [.type] throws, or there is a message,
    whose [type] the log line converts to a string before the switch. *)
Inductive Parsed :=
| SyntaxError
| JSONNull
| Message (message : ClientMessage).

(** How a handler ends: it returns, or it throws; either way with the
    state it has reached. *)
Inductive Outcome :=
| Returned (st : Server)
| Thrown (st : Server).

(** The row the handshake inserts into [roomParticipant]. *)
Definition joined_row (clientId r : string) (u : User) (now : Date)
    : RoomParticipant :=
  mkRoomParticipant r (user_id u) clientId (user_name u) (user_color u)
    editor now None.

(** The frames of the handshake. *)
Definition sync_response (r : string) (d : Doc) (cm : ConnectionManager)
    : ServerMessage :=
  SyncResponse (base64_encode (Y_encodeStateAsUpdate d)) (getRoomParticipants r cm).

Definition handleConnect (clientId : string) (w : WebSocket) (r : string)
    (u : User) (now : Date) (st : Server) : Server :=
  let db := prisma st in
  (* Validate/create room in database *)
  let rooms1 :=
    match room db !! r with
    | Some _ => room db
    | None => <[r := mkRoom r ("Room " +:+ r) (user_id u) now now]> (room db)
    end in
  (* Update room last active *)
  let rooms2 := alter (room_touch now) r rooms1 in
  (* Add connection *)
  let cm1 := addConnection clientId w r u now (connectionManager st) in
  (* Record participant *)
  let participants1 :=
    roomParticipant db ++
    [mkRoomParticipant r (user_id u) clientId (user_name u) (user_color u)
       editor now None] in
  let db1 := mkPrismaClient rooms2 participants1 (roomSnapshot db) in
  (* Get/create Yjs document *)
  let y1 := (getOrCreateDocument r db1 (yjsManager st)).2 in
  (* Send current document state *)
  let state := getStateAsUpdate r y1 in
  let participants := getRoomParticipants r cm1 in
  let net1 :=
    match state with
    | Some s =>
        sendToClient clientId (SyncResponse (base64_encode s) participants)
          cm1 (net st)
    | None => net st
    end in
  (* Broadcast join to other clients *)
  let net2 :=
    broadcastToRoom r (JoinBroadcast u clientId r) (Some clientId) cm1 net1 in
  mkServer cm1 y1 db1 net2.

(** [!roomId] on the result of [getRoomId]: [undefined] and the empty
    string are both falsy. *)
Definition truthy_room (o : option string) : option string :=
  match o with
  | Some r => if decide (r = EmptyString) then None else Some r
  | None => None
  end.

Definition handleUpdate (clientId : string) (delta : string) (st : Server)
    : Outcome :=
  match truthy_room (getRoomId clientId (connectionManager st)) with
  | None => Returned st
  | Some r =>
      (* Decode and apply Yjs update *)
      let update := base64_decode delta in
      match applyUpdate r update (yjsManager st) with
      | None => Thrown st
      | Some (_, y1) =>
          (* Broadcast to other clients *)
          let net1 :=
            broadcastToRoom r (UpdateBroadcast delta clientId) (Some clientId)
              (connectionManager st) (net st) in
          Returned (mkServer (connectionManager st) y1 (prisma st) net1)
      end
  end.

Definition handlePresence (clientId : string) (cursor : option Cursor)
    (selection : option (list string)) (viewport : option Viewport)
    (st : Server) : Server :=
  match truthy_room (getRoomId clientId (connectionManager st)) with
  | None => st
  | Some r =>
      let net1 :=
        broadcastToRoom r (PresenceBroadcast clientId cursor selection viewport)
          (Some clientId) (connectionManager st) (net st) in
      mkServer (connectionManager st) (yjsManager st) (prisma st) net1
  end.

Definition handleChat (clientId : string) (userName message : string)
    (timestamp : Z) (st : Server) : Server :=
  match truthy_room (getRoomId clientId (connectionManager st)) with
  | None => st
  | Some r =>
      (* Broadcast chat to all clients in room (including sender) *)
      let net1 :=
        broadcastToRoom r (ChatBroadcast userName message timestamp clientId)
          None (connectionManager st) (net st) in
      mkServer (connectionManager st) (yjsManager st) (prisma st) net1
  end.

Definition handleDisconnect (clientId : string) (now : Date) (st : Server) : Server :=
  match removeConnection clientId (connectionManager st) with
  | (None, _) => st
  | (Some (r, u), cm1) =>
      (* Update participant record *)
      let db1 :=
        mkPrismaClient (room (prisma st))
          (roomParticipant_updateMany_leftAt clientId now
             (roomParticipant (prisma st)))
          (roomSnapshot (prisma st)) in
      (* Broadcast leave to room *)
      let net1 :=
        broadcastToRoom r (LeaveBroadcast clientId (user_id u)) None cm1 (net st) in
      (* If room is empty, save snapshot; the delayed destroyDocument is
         commented out in the source *)
      let db2 :=
        if isRoomEmpty r cm1
        then saveSnapshot r None now (yjsManager st) db1
        else db1 in
      mkServer cm1 (yjsManager st) db2 net1
  end.

Definition invalid_message : ServerMessage :=
  ErrorMessage "INVALID_MESSAGE" "Failed to process message".

(** The [catch] block of [handleMessage]. *)
Definition report_error (clientId : string) (st : Server) : Server :=
  mkServer (connectionManager st) (yjsManager st) (prisma st)
    (sendToClient clientId invalid_message (connectionManager st) (net st)).

Definition handleMessage (clientId : string) (w : WebSocket) (data : Parsed)
    (now : Date) (st : Server) : Server :=
  match data with
  | Message (ConnectMessage r u _) => handleConnect clientId w r u now st
  | Message (UpdateMessage delta) =>
      match handleUpdate clientId delta st with
      | Returned st' => st'
      | Thrown st' => report_error clientId st'
      end
  | Message (PresenceMessage _ cursor selection viewport) =>
      handlePresence clientId cursor selection viewport st
  | Message (ChatMessage userName message timestamp) =>
      handleChat clientId userName message timestamp st
  | Message (HeartbeatMessage _) =>
      (* Respond to heartbeat *)
      mkServer (connectionManager st) (yjsManager st) (prisma st)
        (sendToClient clientId (HeartbeatEcho now) (connectionManager st) (net st))
  | Message LeaveMessage => handleDisconnect clientId now st
  | Message (UnknownMessage type) =>
      if type_is_logged (UnknownMessage type)
      then st  (* the switch has no default *)
      else report_error clientId st  (* the log line has thrown *)
  | SyntaxError | JSONNull => report_error clientId st
  end.

(** *** websocket/server.ts

    The events of the WebSocket server: a new socket, a frame on a
    socket, the close of a socket, and a tick of a room's save timer. *)
Inductive Event :=
| OnConnection (w : WebSocket)
| OnMessage (clientId : string) (w : WebSocket) (data : Parsed) (now : Date)
| OnClose (clientId : string) (w : WebSocket) (now : Date)
| OnTimer (r : string) (now : Date).

Definition set_readyState (rs : ReadyState) (w : WebSocket)
    (n : gmap nat Socket) : gmap nat Socket :=
  alter (λ s, mkSocket rs (sent s)) w n.

Definition step (st : Server) (e : Event) : Server :=
  match e with
  | OnConnection w =>
      mkServer (connectionManager st) (yjsManager st) (prisma st)
        (<[w := mkSocket OPEN []]> (net st))
  | OnMessage clientId w data now => handleMessage clientId w data now st
  | OnClose clientId w now =>
      handleDisconnect clientId now
        (mkServer (connectionManager st) (yjsManager st) (prisma st)
           (set_readyState CLOSED w (net st)))
  | OnTimer r now =>
      match saveTimers (yjsManager st) !! r with
      | Some t =>
          mkServer (connectionManager st) (yjsManager st)
            (saveSnapshot (timer_room t)
               (documents (yjsManager st) !! timer_room t) now
               (yjsManager st) (prisma st))
            (net st)
      | None => st
      end
  end.

Definition run (evs : list Event) (st : Server) : Server := foldl step st evs.

(** The connection listener of server.ts mints one clientId per socket
    and closes over the two: every frame and the close of a session come
    with the socket [f clientId] of that session. *)
Definition paired (f : string → WebSocket) (e : Event) : Prop :=
  match e with
  | OnMessage clientId w _ _ | OnClose clientId w _ => w = f clientId
  | OnConnection _ | OnTimer _ _ => True
  end.

End Hub.

(** ** Properties of the registry *)

(** Calls on the registry. *)
Inductive RegistryCall :=
| CallAdd (clientId : string) (w : WebSocket) (r : string) (u : User) (now : Date)
| CallRemove (clientId : string).

Definition call (cm : ConnectionManager) (c : RegistryCall) : ConnectionManager :=
  match c with
  | CallAdd clientId w r u now => addConnection clientId w r u now cm
  | CallRemove clientId => (removeConnection clientId cm).2
  end.

(** A call that attaches a clientId does so only when the clientId has no
    primary entry. *)
Definition call_fresh (cm : ConnectionManager) (c : RegistryCall) : Prop :=
  match c with
  | CallAdd clientId _ _ _ _ => connections cm !! clientId = None
  | CallRemove _ => True
  end.

(** States reachable from the empty registry by any calls. *)
Inductive reachable : ConnectionManager → Prop :=
| reachable_new : reachable ConnectionManager_new
| reachable_call cm c : reachable cm → reachable (call cm c).

(** States reachable by calls that never attach a registered clientId. *)
Inductive reachable_fresh : ConnectionManager → Prop :=
| reachable_fresh_new : reachable_fresh ConnectionManager_new
| reachable_fresh_call cm c :
    reachable_fresh cm → call_fresh cm c → reachable_fresh (call cm c).

(** The members of the bucket of room [r], none if there is no bucket. *)
Definition bucket (cm : ConnectionManager) (r : string) : list string :=
  default [] (roomClients cm !! r).

Definition in_bucket (cm : ConnectionManager) (clientId r : string) : Prop :=
  ∃ s, roomClients cm !! r = Some s ∧ clientId ∈ s.

Definition registered_in (cm : ConnectionManager) (clientId r : string) : Prop :=
  ∃ k, connections cm !! clientId = Some k ∧ roomId k = r.

Definition indexes_agree (cm : ConnectionManager) : Prop :=
  ∀ clientId r, in_bucket cm clientId r ↔ registered_in cm clientId r.

Definition one_room_per_client (cm : ConnectionManager) : Prop :=
  ∀ clientId r1 r2,
    in_bucket cm clientId r1 → in_bucket cm clientId r2 → r1 = r2.

Definition no_empty_bucket (cm : ConnectionManager) : Prop :=
  ∀ r s, roomClients cm !! r = Some s → s ≠ [].

Definition buckets_NoDup (cm : ConnectionManager) : Prop :=
  ∀ r s, roomClients cm !! r = Some s → NoDup s.

(** The sockets of the other members of room [r] are not the socket [w]. *)
Definition socket_private (cm : ConnectionManager) (r clientId : string)
    (w : WebSocket) : Prop :=
  ∀ other k, in_bucket cm other r → other ≠ clientId →
    connections cm !! other = Some k → ws k ≠ w.

(** Distinct members of room [r] have distinct sockets. *)
Definition sockets_distinct (cm : ConnectionManager) (r : string) : Prop :=
  ∀ c1 c2 k1 k2, in_bucket cm c1 r → in_bucket cm c2 r → c1 ≠ c2 →
    connections cm !! c1 = Some k1 → connections cm !! c2 = Some k2 →
    ws k1 ≠ ws k2.

(** The sockets of the members of room [r], and of the members other than
    [clientId]: the two conditions above can be checked on these lists. *)
Definition room_sockets (cm : ConnectionManager) (r : string) : list WebSocket :=
  omap (λ c, ws <$> connections cm !! c) (bucket cm r).

Definition other_sockets (cm : ConnectionManager) (r clientId : string)
    : list WebSocket :=
  omap (λ c, if decide (c = clientId) then None else ws <$> connections cm !! c)
    (bucket cm r).

(** ** Properties of the snapshot table *)

(** The primary key of [roomSnapshot]. *)
Definition snapshot_ids_unique (rows : list RoomSnapshot) : Prop :=
  NoDup (snap_id <$> rows).

Definition versions_of (r : string) (rows : list RoomSnapshot) : list Z :=
  version <$> snapshots_of r rows.

(** The largest version among the snapshots of room [r], if any. *)
Definition max_version (r : string) (rows : list RoomSnapshot) : option Z :=
  foldr (λ v o, Some (match o with Some m => Z.max v m | None => v end))
    None (versions_of r rows).

(** ** Further properties of the registry, the cache and the store *)

(** The connections whose primary entry names room [r]. *)
Definition registered_connections (r : string) (cm : ConnectionManager)
    : gmap string ClientConnection :=
  filter (λ entry, roomId entry.2 = r) (connections cm).

(** The clientId has a participant row that is still open. *)
Definition has_open_row (clientId : string) (rows : list RoomParticipant) : Prop :=
  ∃ p, p ∈ rows ∧ rp_clientId p = clientId ∧ rp_leftAt p = None.

(** Every cached document has a save timer, and every save timer a
    cached document. *)
Definition timers_match `{Yjs} (y : YjsDocumentManager) : Prop :=
  dom (saveTimers y) = dom (documents y).

(** The versions of the snapshots of room [r], newest first. *)
Definition sorted_versions (r : string) (rows : list RoomSnapshot) : list Z :=
  version <$> merge_sort version_desc (snapshots_of r rows).

(** [m, m-1, ..., m-j+1] *)
Definition countdown (m : Z) (j : nat) : list Z :=
  (λ i, (m - Z.of_nat i)%Z) <$> seq 0 j.

(** Successive saves of room [r], each of a document at a time. *)
Definition saves `{Yjs} (r : string) (l : list (Doc * Date))
    (rows : list RoomSnapshot) : list RoomSnapshot :=
  foldl (λ rows' save, saveSnapshot_rows r save.1 save.2 rows') rows l.

(** No socket changes its ready state, and every outbox keeps what it
    held and may have gained frames at its end. *)
Definition sockets_grow (n n' : gmap nat Socket) : Prop :=
  ∀ w, readyState <$> n' !! w = readyState <$> n !! w ∧
       outbox w n `prefix_of` outbox w n'.

(** ** Sample implementations of the libraries

    A document that is the list of the items it holds.  An update is the
    byte 0, then the items it adds, each after a byte 1, then a closing
    byte 0; the full state of a document is the update that adds its
    items, so that of the empty document is the two bytes 0, 0.  The
    base64 codec is that of RFC 4648.  They serve the examples below. *)

Fixpoint items_decode (u : bytes) : option (list byte) :=
  match u with
  | [x00] => Some []
  | x01 :: v :: u' => cons v <$> items_decode u'
  | _ => None
  end.

Definition update_decode (u : bytes) : option (list byte) :=
  match u with
  | x00 :: u' => items_decode u'
  | _ => None
  end.

Definition items_encode (d : list byte) : bytes :=
  x00 :: (d ≫= λ v, [x01; v]) ++ [x00].

Definition ItemsYjs : Yjs := {|
  Doc := list byte;
  Y_Doc_new := [];
  Y_decodes := λ u, match update_decode u with Some _ => true | None => false end;
  Y_applyUpdate := λ d u, d ++ default [] (update_decode u);
  Y_encodeStateAsUpdate := items_encode;
  Y_encodeStateVector := λ d, take 1 (drop 1 (items_encode d))
|}.

Definition b64_alphabet : list ascii :=
  String.list_ascii_of_string
    "ABCDEFGHIJKLMNOPQRSTUVWXYZabcdefghijklmnopqrstuvwxyz0123456789+/".

Definition b64_char (n : N) : ascii :=
  default "A"%char (b64_alphabet !! N.to_nat n).

Fixpoint b64_find (c : ascii) (l : list ascii) (i : N) : option N :=
  match l with
  | [] => None
  | x :: l' => if decide (x = c) then Some i else b64_find c l' (N.succ i)
  end.

Definition b64_value (c : ascii) : option N := b64_find c b64_alphabet 0%N.

Definition byte_of_N (n : N) : byte := default "000"%byte (Byte.of_N n).

Fixpoint b64_encode_list (l : bytes) : list ascii :=
  match l with
  | a :: b :: c :: l' =>
      let n := (Byte.to_N a * 65536 + Byte.to_N b * 256 + Byte.to_N c)%N in
      b64_char (n / 262144) :: b64_char (n / 4096 mod 64) ::
      b64_char (n / 64 mod 64) :: b64_char (n mod 64) :: b64_encode_list l'
  | [a; b] =>
      let n := (Byte.to_N a * 65536 + Byte.to_N b * 256)%N in
      [b64_char (n / 262144); b64_char (n / 4096 mod 64);
       b64_char (n / 64 mod 64); "="%char]
  | [a] =>
      let n := (Byte.to_N a * 65536)%N in
      [b64_char (n / 262144); b64_char (n / 4096 mod 64); "="%char; "="%char]
  | [] => []
  end.

Fixpoint b64_decode_sextets (l : list N) : bytes :=
  match l with
  | a :: b :: c :: d :: l' =>
      let n := (((a * 64 + b) * 64 + c) * 64 + d)%N in
      byte_of_N (n / 65536) :: byte_of_N (n / 256 mod 256) ::
      byte_of_N (n mod 256) :: b64_decode_sextets l'
  | [a; b; c] =>
      let n := (((a * 64 + b) * 64 + c) * 64)%N in
      [byte_of_N (n / 65536); byte_of_N (n / 256 mod 256)]
  | [a; b] =>
      let n := ((a * 64 + b) * 4096)%N in
      [byte_of_N (n / 65536)]
  | _ => []
  end.

Definition RFC4648 : Base64 := {|
  base64_decode := λ s, b64_decode_sextets (omap b64_value (String.list_ascii_of_string s));
  base64_encode := λ b, String.string_of_list_ascii (b64_encode_list b)
|}.

(** ** Sample data: the two clients of scenario S1 *)

Section Samples.

#[local] Existing Instance ItemsYjs.
#[local] Existing Instance RFC4648.

Definition userA : User := mkUser "u1" "A" "#f00".
Definition userB : User := mkUser "u2" "B" "#0f0".

(** Two sockets have been accepted and are open. *)
Definition two_sockets : Server := run [OnConnection 1; OnConnection 2] Server_new.

(** A has joined room R1. *)
Definition room_with_A : Server :=
  handleConnect "cA" 1 "R1" userA 100 two_sockets.

(** A has joined room R1 and has sent one update, the bytes 0, 1, 2, 0. *)
Definition room_drawn : Server :=
  handleMessage "cA" 1 (Message (UpdateMessage "AAECAA==")) 150 room_with_A.

(** A and B have joined room R1. *)
Definition room_with_AB : Server :=
  handleConnect "cB" 2 "R1" userB 200 room_with_A.

(** B has joined the room whose id is the empty string, after A. *)
Definition unnamed_room_AB : Server :=
  handleConnect "cB" 2 EmptyString userB 200 (handleConnect "cA" 1 EmptyString userA 100 two_sockets).

(** Eleven snapshots of room R1, versions 1 to 11, oldest first. *)
Definition eleven_rows : list RoomSnapshot :=
  (λ i, mkRoomSnapshot i "R1" [] [] (Z.of_nat i) 0) <$> seq 1 11.

(** The snapshot table of a store that holds those eleven rows. *)
Definition eleven_snapshots : PrismaClient := mkPrismaClient ∅ [] eleven_rows.

(** The registry after cA has been attached to R1 and then, without a
    detach in between, to R2. *)
Definition reattached : ConnectionManager :=
  call (call ConnectionManager_new (CallAdd "cA" 1 "R1" userA 100))
    (CallAdd "cA" 1 "R2" userA 300).

(** The primary entries of A and B in [room_with_AB]. *)
Definition entryA : ClientConnection := mkClientConnection 1 "R1" userA 100.
Definition entryB : ClientConnection := mkClientConnection 2 "R1" userB 200.


(** A server started anew on the store that [room_drawn] leaves when A,
    its only member, has disconnected: empty registry, empty cache. *)
Definition restarted : Server :=
  mkServer ConnectionManager_new YjsDocumentManager_new
    (prisma (handleDisconnect "cA" 500 room_drawn)) (net two_sockets).

(** A pairing of clientIds with sockets. *)
Definition socket_of (clientId : string) : WebSocket :=
  Pos.to_nat (encode clientId).

(** Two sessions join room R1, each on the socket paired with it, and
    the first sends an update. *)
Definition paired_events : list Event :=
  [OnConnection (socket_of "a");
   OnConnection (socket_of "b");
   OnMessage "a" (socket_of "a") (Message (ConnectMessage "R1" userA None)) 100;
   OnMessage "b" (socket_of "b") (Message (ConnectMessage "R1" userB None)) 200;
   OnMessage "a" (socket_of "a") (Message (UpdateMessage "AAECAA==")) 300].

End Samples.

(** * Proofs *)

(** ** The JS set *)

Lemma elem_of_Set_add x y s : y ∈ Set_add x s ↔ y = x ∨ y ∈ s.
Proof.
  unfold Set_add. case_decide as Hx.
  - split; [auto | intros [-> | ?]; done].
  - rewrite elem_of_app, list_elem_of_singleton. tauto.
Qed.

Lemma NoDup_Set_add x s : NoDup s → NoDup (Set_add x s).
Proof.
  intros Hs. unfold Set_add. case_decide as Hx; [done |].
  apply NoDup_app. split_and!; [done | | apply NoDup_singleton].
  intros y Hy ->%list_elem_of_singleton. done.
Qed.

Lemma Set_add_not_nil x s : Set_add x s ≠ [].
Proof.
  unfold Set_add. case_decide as Hx.
  - intros ->. by apply not_elem_of_nil in Hx.
  - by destruct s.
Qed.

Lemma elem_of_Set_delete x y s : y ∈ Set_delete x s ↔ y ≠ x ∧ y ∈ s.
Proof. unfold Set_delete. by rewrite list_elem_of_filter. Qed.

Lemma NoDup_Set_delete x s : NoDup s → NoDup (Set_delete x s).
Proof. apply NoDup_filter. Qed.

Lemma Set_delete_absent x s : x ∉ s → Set_delete x s = s.
Proof.
  intros Hx. unfold Set_delete. induction s as [| y s IH]; [done |].
  apply not_elem_of_cons in Hx as [Hxy Hx].
  rewrite filter_cons_True by done. f_equal. auto.
Qed.

(** ** The registry: what a call does to the two indexes *)

Section registry.

Implicit Types (cm : ConnectionManager) (c r : string).

Lemma addConnection_connections c w r u t cm c' :
  connections (addConnection c w r u t cm) !! c' =
    if decide (c = c') then Some (mkClientConnection w r u t)
    else connections cm !! c'.
Proof. unfold addConnection; simpl. apply lookup_insert. Qed.

Lemma addConnection_roomClients c w r u t cm r' :
  roomClients (addConnection c w r u t cm) !! r' =
    if decide (r = r')
    then Some (Set_add c (default [] (roomClients cm !! r)))
    else roomClients cm !! r'.
Proof.
  unfold addConnection; simpl. case_decide as Hr.
  - subst r'. rewrite lookup_alter_eq.
    destruct (roomClients cm !! r) as [s |] eqn:E; simpl.
    + by rewrite E.
    + by rewrite lookup_insert_eq.
  - rewrite lookup_alter_ne by done.
    destruct (roomClients cm !! r); [done |]. by rewrite lookup_insert_ne.
Qed.

Lemma removeConnection_None c cm :
  connections cm !! c = None → removeConnection c cm = (None, cm).
Proof. intros E. unfold removeConnection. by rewrite E. Qed.

Lemma removeConnection_result c cm k :
  connections cm !! c = Some k →
  (removeConnection c cm).1 = Some (roomId k, user k).
Proof. intros E. unfold removeConnection. by rewrite E. Qed.

Lemma removeConnection_connections c cm c' :
  connections (removeConnection c cm).2 !! c' =
    if decide (c = c') then None else connections cm !! c'.
Proof.
  unfold removeConnection.
  destruct (connections cm !! c) as [k |] eqn:E; simpl.
  - apply lookup_delete.
  - case_decide; [by subst | done].
Qed.

Lemma removeConnection_roomClients c cm k r' :
  connections cm !! c = Some k →
  roomClients (removeConnection c cm).2 !! r' =
    if decide (roomId k = r')
    then match roomClients cm !! r' with
         | Some s => if decide (Set_delete c s = []) then None
                     else Some (Set_delete c s)
         | None => None
         end
    else roomClients cm !! r'.
Proof.
  intros E. unfold removeConnection. rewrite E; simpl.
  case_decide as Hr.
  - subst r'. destruct (roomClients cm !! roomId k) as [s |] eqn:Es; [| done].
    destruct (Set_delete c s) as [| x s'] eqn:Ed; simpl.
    + by rewrite lookup_delete_eq.
    + by rewrite lookup_insert_eq.
  - destruct (roomClients cm !! roomId k) as [s |]; [| done].
    case_decide.
    + by rewrite lookup_delete_ne.
    + by rewrite lookup_insert_ne.
Qed.

Lemma in_bucket_addConnection c w r u t cm c' r' :
  in_bucket (addConnection c w r u t cm) c' r' ↔
  in_bucket cm c' r' ∨ (c' = c ∧ r' = r).
Proof.
  unfold in_bucket. setoid_rewrite addConnection_roomClients.
  case_decide as Hr.
  - subst r'. split.
    + intros (s & [= <-] & Hin). apply elem_of_Set_add in Hin as [-> | Hin].
      * by right.
      * left. destruct (roomClients cm !! r) as [s |]; simpl in *.
        -- eauto.
        -- by apply not_elem_of_nil in Hin.
    + intros [(s & Hs & Hin) | [-> _]].
      * eexists; split; [done |]. rewrite Hs; simpl.
        apply elem_of_Set_add. by right.
      * eexists; split; [done |]. apply elem_of_Set_add. by left.
  - split; [by left |]. intros [? | [_ ->]]; done.
Qed.

Lemma registered_in_addConnection c w r u t cm c' r' :
  registered_in (addConnection c w r u t cm) c' r' ↔
  (c' = c ∧ r' = r) ∨ (c' ≠ c ∧ registered_in cm c' r').
Proof.
  unfold registered_in. setoid_rewrite addConnection_connections.
  case_decide as Hc.
  - subst c'. split.
    + intros (k & [= <-] & <-). by left.
    + intros [[_ ->] | [? _]]; [eauto | done].
  - split; [intros ?; right; by split | intros [[-> _] | [_ ?]]; done].
Qed.

Lemma in_bucket_removeConnection c cm k c' r' :
  connections cm !! c = Some k →
  in_bucket (removeConnection c cm).2 c' r' ↔
  in_bucket cm c' r' ∧ ¬ (c' = c ∧ r' = roomId k).
Proof.
  intros E. unfold in_bucket.
  setoid_rewrite (removeConnection_roomClients c cm k r' E).
  case_decide as Hr.
  - subst r'. destruct (roomClients cm !! roomId k) as [s |] eqn:Es.
    + case_decide as Hd.
      * split; [by intros (? & ? & ?) |].
        intros [(s' & [= <-] & Hin) Hne]. exfalso.
        assert (c' ∈ Set_delete c s) as Hin'.
        { apply elem_of_Set_delete. split; [| done]. intros ->. by apply Hne. }
        rewrite Hd in Hin'. by apply not_elem_of_nil in Hin'.
      * split.
        -- intros (s' & [= <-] & [Hne Hin]%elem_of_Set_delete).
           split; [eauto | intros [? _]; done].
        -- intros [(s' & [= <-] & Hin) Hne]. eexists; split; [done |].
           apply elem_of_Set_delete. split; [| done]. intros ->. by apply Hne.
    + split; [by intros (? & ? & ?) | by intros [(? & ? & ?) _]].
  - split; [intros ?; split; [done | intros [_ ->]; done] | by intros [? _]].
Qed.

Lemma registered_in_removeConnection c cm c' r' :
  registered_in (removeConnection c cm).2 c' r' ↔
  c' ≠ c ∧ registered_in cm c' r'.
Proof.
  unfold registered_in. setoid_rewrite removeConnection_connections.
  case_decide as Hc.
  - subst c'. split; [by intros (? & ? & ?) | by intros [? _]].
  - split; [intros ?; by split | by intros [_ ?]].
Qed.

Lemma in_bucket_bucket cm c r : in_bucket cm c r ↔ c ∈ bucket cm r.
Proof.
  unfold in_bucket, bucket. destruct (roomClients cm !! r) as [l |]; simpl.
  - split; [by intros (? & [= <-] & ?) | by exists l].
  - split; [by intros (? & ? & ?) | by intros ?%not_elem_of_nil].
Qed.

Lemma NoDup_omap_inj {A B} (f : A → option B) (l : list A) x y b :
  NoDup (omap f l) → x ∈ l → y ∈ l → f x = Some b → f y = Some b →
  NoDup l → x = y.
Proof.
  induction l as [| a l IH]; intros Hnd Hx Hy Ex Ey Hl.
  { by apply not_elem_of_nil in Hx. }
  apply NoDup_cons in Hl as [Ha Hl]. simpl in Hnd.
  apply elem_of_cons in Hx as [-> | Hx], Hy as [-> | Hy].
  - done.
  - rewrite Ex in Hnd. apply NoDup_cons in Hnd as [Hb _].
    exfalso. apply Hb. apply list_elem_of_omap. by exists y.
  - rewrite Ey in Hnd. apply NoDup_cons in Hnd as [Hb _].
    exfalso. apply Hb. apply list_elem_of_omap. by exists x.
  - apply IH; try done. destruct (f a); [| done].
    by apply NoDup_cons in Hnd as [_ ?].
Qed.

(** The two conditions on sockets, from checks on lists. *)
Lemma sockets_distinct_check cm r :
  NoDup (bucket cm r) → NoDup (room_sockets cm r) → sockets_distinct cm r.
Proof.
  intros Hl Hnd c1 c2 k1 k2 Hin1%in_bucket_bucket Hin2%in_bucket_bucket
    Hne E1 E2 Hws.
  apply Hne.
  apply (NoDup_omap_inj (λ c, ws <$> connections cm !! c) (bucket cm r)
           c1 c2 (ws k1)); try done.
  - by rewrite E1.
  - rewrite E2. simpl. by rewrite Hws.
Qed.

Lemma socket_private_check cm r c w :
  w ∉ other_sockets cm r c → socket_private cm r c w.
Proof.
  intros Hw other k Hin%in_bucket_bucket Hne E <-. apply Hw.
  apply list_elem_of_omap. exists other. split; [done |].
  rewrite decide_False by done. by rewrite E.
Qed.

End registry.

(** ** The registry: invariants *)

Lemma no_empty_bucket_call cm c : no_empty_bucket cm → no_empty_bucket (call cm c).
Proof.
  intros Hinv r s. destruct c as [c w r0 u t | c]; cbn [call].
  - rewrite addConnection_roomClients. case_decide.
    + intros [= <-]. apply Set_add_not_nil.
    + apply Hinv.
  - destruct (connections cm !! c) as [k |] eqn:E.
    + rewrite (removeConnection_roomClients c cm k r E). case_decide.
      * destruct (roomClients cm !! r); [| done].
        case_decide; [done |]. by intros [= <-].
      * apply Hinv.
    + rewrite removeConnection_None by done. apply Hinv.
Qed.

Lemma buckets_NoDup_call cm c : buckets_NoDup cm → buckets_NoDup (call cm c).
Proof.
  intros Hinv r s. destruct c as [c w r0 u t | c]; cbn [call].
  - rewrite addConnection_roomClients. case_decide.
    + intros [= <-]. apply NoDup_Set_add.
      destruct (roomClients cm !! r0) eqn:E; simpl; [by eapply Hinv | constructor].
    + apply Hinv.
  - destruct (connections cm !! c) as [k |] eqn:E.
    + rewrite (removeConnection_roomClients c cm k r E). case_decide.
      * destruct (roomClients cm !! r) eqn:E'; [| done].
        case_decide; [done |]. intros [= <-].
        apply NoDup_Set_delete. by eapply Hinv.
      * apply Hinv.
    + rewrite removeConnection_None by done. apply Hinv.
Qed.

Lemma indexes_agree_call cm c :
  call_fresh cm c → indexes_agree cm → indexes_agree (call cm c).
Proof.
  intros Hfresh Hinv c' r'. specialize (Hinv c' r').
  destruct c as [c w r u t | c]; cbn [call call_fresh] in *.
  - rewrite in_bucket_addConnection, registered_in_addConnection, Hinv.
    split.
    + intros [Hreg | ?]; [| by left]. right. split; [| done].
      intros ->. destruct Hreg as (k & Hk & _). congruence.
    + intros [? | [_ ?]]; [by right | by left].
  - destruct (connections cm !! c) as [k |] eqn:E.
    + rewrite (in_bucket_removeConnection c cm k c' r' E),
        registered_in_removeConnection, Hinv.
      split.
      * intros [Hreg Hne]. split; [| done]. intros ->. apply Hne.
        split; [done |]. destruct Hreg as (k' & Hk' & <-). congruence.
      * intros [Hne Hreg]. split; [done |]. by intros [? _].
    + by rewrite removeConnection_None.
Qed.

Lemma indexes_agree_one_room cm : indexes_agree cm → one_room_per_client cm.
Proof.
  intros Hinv c r1 r2 (k1 & E1 & <-)%Hinv (k2 & E2 & <-)%Hinv. congruence.
Qed.

Lemma reachable_fresh_reachable cm : reachable_fresh cm → reachable cm.
Proof. induction 1; by constructor. Qed.

Lemma reachable_no_empty_bucket cm : reachable cm → no_empty_bucket cm.
Proof.
  induction 1 as [| cm c _ IH]; [| by apply no_empty_bucket_call].
  intros r s. unfold ConnectionManager_new; simpl. by rewrite lookup_empty.
Qed.

Lemma reachable_buckets_NoDup cm : reachable cm → buckets_NoDup cm.
Proof.
  induction 1 as [| cm c _ IH]; [| by apply buckets_NoDup_call].
  intros r s. unfold ConnectionManager_new; simpl. by rewrite lookup_empty.
Qed.

Lemma reachable_fresh_indexes_agree cm : reachable_fresh cm → indexes_agree cm.
Proof.
  induction 1 as [| cm c _ IH Hfresh]; [| by apply indexes_agree_call].
  intros c r. unfold in_bucket, registered_in, ConnectionManager_new; simpl.
  setoid_rewrite lookup_empty. split; by intros (? & ? & ?).
Qed.

Lemma registered_in_bucket_call cm c :
  (∀ c' r', registered_in cm c' r' → in_bucket cm c' r') →
  ∀ c' r', registered_in (call cm c) c' r' → in_bucket (call cm c) c' r'.
Proof.
  intros Hinv c' r'. destruct c as [c w r u t | c]; cbn [call].
  - rewrite in_bucket_addConnection, registered_in_addConnection.
    intros [? | [_ ?%Hinv]]; [by right | by left].
  - destruct (connections cm !! c) as [k |] eqn:E.
    + rewrite (in_bucket_removeConnection c cm k c' r' E),
        registered_in_removeConnection.
      intros [Hne Hreg]. split; [by apply Hinv | by intros [? _]].
    + rewrite removeConnection_None by done. apply Hinv.
Qed.

Lemma reachable_registered_in_bucket cm c r :
  reachable cm → registered_in cm c r → in_bucket cm c r.
Proof.
  intros Hreach. revert c r.
  induction Hreach as [| cm c0 _ IH]; [| by apply registered_in_bucket_call].
  intros c r (k & Ek & _). unfold ConnectionManager_new in Ek; simpl in Ek.
  by rewrite lookup_empty in Ek.
Qed.

(** C3 (as amended).  In every state of the registry reached from the
    empty one by [addConnection] and [removeConnection] calls, a clientId
    whose primary entry has roomId [r] is in the bucket of [r], and no
    bucket is empty.  If the calls attach a clientId only while it has no
    primary entry, the two indexes agree (a clientId is in the bucket of
    room [r] iff its primary entry has roomId [r]) and every clientId is
    in at most one bucket.  [addConnection] has no failure: whatever the
    state, the attached clientId ends up registered in the room it
    names. *)
Theorem registry_invariants cm :
  reachable cm →
  (∀ c r, registered_in cm c r → in_bucket cm c r) ∧
  no_empty_bucket cm ∧
  (reachable_fresh cm → indexes_agree cm ∧ one_room_per_client cm) ∧
  ∀ c w r u t,
    connections (addConnection c w r u t cm) !! c
      = Some (mkClientConnection w r u t) ∧
    in_bucket (addConnection c w r u t cm) c r.
Proof.
  intros Hreach. split_and!.
  - intros c r. by apply reachable_registered_in_bucket.
  - by apply reachable_no_empty_bucket.
  - intros Hagree%reachable_fresh_indexes_agree.
    split; [done | by apply indexes_agree_one_room].
  - intros c w r u t. split.
    + rewrite addConnection_connections. by rewrite decide_True.
    + apply in_bucket_addConnection. by right.
Qed.

(** C9.  A second [removeConnection] returns nothing and leaves both
    indexes as the first one left them; the record-leave update closes
    only rows with a null [leftAt], leaves no such row for the clientId,
    and changes nothing when it is repeated; a second disconnect of a
    clientId changes nothing. *)
Theorem detach_and_record_leave_idempotent `{Yjs, Base64}
    (clientId : string) (now1 now2 : Date) (cm : ConnectionManager)
    (rows : list RoomParticipant) (st : Server) :
  removeConnection clientId (removeConnection clientId cm).2
    = (None, (removeConnection clientId cm).2) ∧
  roomParticipant_updateMany_leftAt clientId now2
    (roomParticipant_updateMany_leftAt clientId now1 rows)
    = roomParticipant_updateMany_leftAt clientId now1 rows ∧
  (∀ p, rp_leftAt p ≠ None → close_row clientId now1 p = p) ∧
  (∀ p, p ∈ roomParticipant_updateMany_leftAt clientId now1 rows →
        rp_clientId p = clientId → rp_leftAt p ≠ None) ∧
  handleDisconnect clientId now2 (handleDisconnect clientId now1 st)
    = handleDisconnect clientId now1 st.
Proof.
  assert (Hclosed : ∀ p, rp_leftAt p ≠ None → close_row clientId now1 p = p).
  { intros p Hp. unfold close_row. case_decide as Hd; [by destruct Hd | done]. }
  assert (Hnone : ∀ p, rp_clientId (close_row clientId now1 p) = clientId →
                       rp_leftAt (close_row clientId now1 p) ≠ None).
  { intros p. unfold close_row. case_decide as Hd; simpl; [done |].
    intros Hc Hl. apply Hd. by split. }
  split_and!.
  - apply removeConnection_None. rewrite removeConnection_connections.
    by rewrite decide_True.
  - unfold roomParticipant_updateMany_leftAt. rewrite <- list_fmap_compose.
    apply list_fmap_ext. intros _ p _. simpl.
    unfold close_row at 1. case_decide as Hd; [| done].
    destruct Hd as [Hc Hl]. by apply Hnone in Hc.
  - done.
  - unfold roomParticipant_updateMany_leftAt.
    intros p (q & -> & _)%list_elem_of_fmap. apply Hnone.
  - assert (connections (connectionManager (handleDisconnect clientId now1 st))
              !! clientId = None) as E.
    { unfold handleDisconnect.
      pose proof (removeConnection_connections clientId (connectionManager st)
                    clientId) as Hc.
      rewrite decide_True in Hc by done.
      destruct (removeConnection clientId (connectionManager st))
        as [[[r u] |] cm1] eqn:Er; simpl in *; [done |].
      unfold removeConnection in Er.
      destruct (connections (connectionManager st) !! clientId); [done |].
      by injection Er as <-. }
    unfold handleDisconnect at 1. by rewrite removeConnection_None.
Qed.

(** C10.  The disconnect handler, invoked for a clientId that has no
    registered connection, leaves the whole state as it is: registry,
    documents and timers, store and sockets. *)
Theorem handleDisconnect_unregistered_noop `{Yjs, Base64}
    (clientId : string) (now : Date) (st : Server) :
  connections (connectionManager st) !! clientId = None →
  handleDisconnect clientId now st = st.
Proof.
  intros E. unfold handleDisconnect. by rewrite removeConnection_None.
Qed.

(** ** Sending and fan-out *)

Section fanout.

Implicit Types (cm : ConnectionManager) (net : gmap nat Socket)
  (w : WebSocket) (msg : ServerMessage) (excl : option string).

Lemma ws_send_lookup w msg net w' :
  ws_send w msg net !! w' =
    if decide (w = w')
    then (λ s, mkSocket (readyState s) (sent s ++ [msg])) <$> net !! w'
    else net !! w'.
Proof.
  unfold ws_send. case_decide as Hw.
  - subst. apply lookup_alter_eq.
  - by apply lookup_alter_ne.
Qed.

Lemma ws_send_readyState w msg net w' :
  readyState <$> ws_send w msg net !! w' = readyState <$> net !! w'.
Proof.
  rewrite ws_send_lookup. case_decide; [| done]. by destruct (net !! w').
Qed.

Lemma ws_is_open_readyState w net net' :
  readyState <$> net' !! w = readyState <$> net !! w →
  ws_is_open w net' = ws_is_open w net.
Proof.
  intros Heq. unfold ws_is_open.
  destruct (net' !! w), (net !! w); simpl in *; try done.
  injection Heq as ->. done.
Qed.

Lemma outbox_ws_send w msg net :
  ws_is_open w net = true → outbox w (ws_send w msg net) = outbox w net ++ [msg].
Proof.
  unfold ws_is_open, outbox. rewrite ws_send_lookup, decide_True by done.
  by destruct (net !! w).
Qed.

Lemma outbox_ws_send_appends w msg net w' :
  ∃ n, outbox w' (ws_send w msg net) = outbox w' net ++ replicate n msg.
Proof.
  unfold outbox. rewrite ws_send_lookup. case_decide.
  - destruct (net !! w'); simpl; [by exists 1 | by exists 0].
  - exists 0. simpl. by rewrite app_nil_r.
Qed.

Lemma outbox_lookup w net net' : net' !! w = net !! w → outbox w net' = outbox w net.
Proof. unfold outbox. by intros ->. Qed.

Lemma sendToClient_readyState c msg cm net w :
  readyState <$> sendToClient c msg cm net !! w = readyState <$> net !! w.
Proof.
  unfold sendToClient. destruct (connections cm !! c); [| done].
  destruct (ws_is_open _ _); [| done]. apply ws_send_readyState.
Qed.

Lemma sendToClient_delivered c msg cm net k :
  connections cm !! c = Some k → ws_is_open (ws k) net = true →
  outbox (ws k) (sendToClient c msg cm net) = outbox (ws k) net ++ [msg].
Proof.
  intros E Hopen. unfold sendToClient. rewrite E, Hopen.
  by apply outbox_ws_send.
Qed.

Lemma sendToClient_other c msg cm net w :
  (∀ k, connections cm !! c = Some k → ws k ≠ w) →
  sendToClient c msg cm net !! w = net !! w.
Proof.
  intros Hw. unfold sendToClient.
  destruct (connections cm !! c) as [k |]; [| done].
  destruct (ws_is_open _ _); [| done].
  rewrite ws_send_lookup, decide_False; [done | by apply Hw].
Qed.

Lemma sendToClient_dropped c msg cm net :
  (∀ k, connections cm !! c = Some k → ws_is_open (ws k) net = false) →
  sendToClient c msg cm net = net.
Proof.
  intros Hd. unfold sendToClient.
  destruct (connections cm !! c) as [k |]; [| done].
  by rewrite Hd.
Qed.

Lemma sendToClient_appends c msg cm net w :
  ∃ n, outbox w (sendToClient c msg cm net) = outbox w net ++ replicate n msg.
Proof.
  unfold sendToClient.
  destruct (connections cm !! c) as [k |];
    [destruct (ws_is_open _ _) |]; try apply outbox_ws_send_appends;
    exists 0; simpl; by rewrite app_nil_r.
Qed.

Lemma broadcast_step_readyState cm msg excl net c w :
  readyState <$> broadcast_step cm msg excl net c !! w = readyState <$> net !! w.
Proof.
  unfold broadcast_step. case_decide; [done |].
  destruct (connections cm !! c); [| done].
  destruct (ws_is_open _ _); [| done]. apply ws_send_readyState.
Qed.

Lemma broadcast_step_other cm msg excl net c w :
  (∀ k, excl ≠ Some c → connections cm !! c = Some k → ws k ≠ w) →
  broadcast_step cm msg excl net c !! w = net !! w.
Proof.
  intros Hw. unfold broadcast_step. case_decide; [done |].
  destruct (connections cm !! c) as [k |]; [| done].
  destruct (ws_is_open _ _); [| done].
  rewrite ws_send_lookup, decide_False; [done | by apply Hw].
Qed.

Lemma broadcast_fold_readyState cm msg excl l net w :
  readyState <$> foldl (broadcast_step cm msg excl) net l !! w
    = readyState <$> net !! w.
Proof.
  revert net. induction l as [| c l IH]; intros net; simpl; [done |].
  rewrite IH. apply broadcast_step_readyState.
Qed.

Lemma broadcast_fold_other cm msg excl l net w :
  (∀ c k, c ∈ l → excl ≠ Some c → connections cm !! c = Some k → ws k ≠ w) →
  foldl (broadcast_step cm msg excl) net l !! w = net !! w.
Proof.
  revert net. induction l as [| c l IH]; intros net Hw; simpl; [done |].
  rewrite IH.
  - apply broadcast_step_other. intros k. apply Hw. by left.
  - intros c' k Hin. apply Hw. by right.
Qed.

Lemma broadcast_fold_appends cm msg excl l net w :
  ∃ n, outbox w (foldl (broadcast_step cm msg excl) net l)
       = outbox w net ++ replicate n msg.
Proof.
  revert net. induction l as [| c l IH]; intros net; simpl.
  { exists 0. simpl. by rewrite app_nil_r. }
  destruct (IH (broadcast_step cm msg excl net c)) as [n ->].
  assert (∃ m, outbox w (broadcast_step cm msg excl net c)
               = outbox w net ++ replicate m msg) as [m ->].
  { unfold broadcast_step. case_decide.
    { exists 0. simpl. by rewrite app_nil_r. }
    destruct (connections cm !! c) as [k |];
      [destruct (ws_is_open _ _) |]; try apply outbox_ws_send_appends;
      exists 0; simpl; by rewrite app_nil_r. }
  exists (m + n). by rewrite <- app_assoc, replicate_add.
Qed.

Lemma broadcast_fold_delivered cm msg excl l net c k :
  NoDup l → c ∈ l → excl ≠ Some c →
  connections cm !! c = Some k → ws_is_open (ws k) net = true →
  (∀ c' k', c' ∈ l → c' ≠ c → excl ≠ Some c' →
            connections cm !! c' = Some k' → ws k' ≠ ws k) →
  outbox (ws k) (foldl (broadcast_step cm msg excl) net l)
    = outbox (ws k) net ++ [msg].
Proof.
  revert net. induction l as [| x l IH]; intros net Hnd Hin Hex E Hopen Hpriv.
  { by apply not_elem_of_nil in Hin. }
  apply NoDup_cons in Hnd as [Hx Hnd]. simpl.
  destruct (decide (x = c)) as [-> | Hxc].
  - rewrite (outbox_lookup _ (broadcast_step cm msg excl net c)).
    + unfold broadcast_step. rewrite decide_False, E, Hopen by done.
      by apply outbox_ws_send.
    + apply broadcast_fold_other. intros c' k' Hin'. apply Hpriv.
      * by right.
      * intros ->. done.
  - apply elem_of_cons in Hin as [-> | Hin]; [done |].
    assert (broadcast_step cm msg excl net x !! ws k = net !! ws k) as Hsame.
    { apply broadcast_step_other. intros k' ? ?.
      apply (Hpriv x k'); [by left | done..]. }
    rewrite IH; [| done.. | |].
    + by rewrite (outbox_lookup _ _ _ Hsame).
    + rewrite <- Hopen. apply ws_is_open_readyState. by rewrite Hsame.
    + intros c' k' Hin'. apply Hpriv. by right.
Qed.

(** The fan-out to a room, in terms of the members of its bucket. *)

Lemma broadcastToRoom_readyState r msg excl cm net w :
  readyState <$> broadcastToRoom r msg excl cm net !! w = readyState <$> net !! w.
Proof.
  unfold broadcastToRoom. destruct (roomClients cm !! r); [| done].
  apply broadcast_fold_readyState.
Qed.

Lemma broadcastToRoom_other r msg excl cm net w :
  (∀ c k, in_bucket cm c r → excl ≠ Some c →
          connections cm !! c = Some k → ws k ≠ w) →
  broadcastToRoom r msg excl cm net !! w = net !! w.
Proof.
  intros Hw. unfold broadcastToRoom.
  destruct (roomClients cm !! r) as [l |] eqn:E; [| done].
  apply broadcast_fold_other. intros c k Hin. apply Hw. by exists l.
Qed.

Lemma broadcastToRoom_appends r msg excl cm net w :
  ∃ n, outbox w (broadcastToRoom r msg excl cm net)
       = outbox w net ++ replicate n msg.
Proof.
  unfold broadcastToRoom. destruct (roomClients cm !! r).
  - apply broadcast_fold_appends.
  - exists 0. simpl. by rewrite app_nil_r.
Qed.

Lemma broadcastToRoom_delivered r msg excl cm net c k :
  NoDup (bucket cm r) → sockets_distinct cm r →
  in_bucket cm c r → excl ≠ Some c →
  connections cm !! c = Some k → ws_is_open (ws k) net = true →
  outbox (ws k) (broadcastToRoom r msg excl cm net)
    = outbox (ws k) net ++ [msg].
Proof.
  intros Hnd Hdist (l & El & Hin) Hex E Hopen. unfold broadcastToRoom.
  unfold bucket in Hnd. rewrite El in *.
  apply (broadcast_fold_delivered cm msg excl l net c); [done.. |].
  intros c' k' Hin' Hne _ E'.
  apply (Hdist c' c k' k); [by exists l | by exists l | done..].
Qed.

End fanout.

(** ** The snapshot table *)

Section snapshots.

Implicit Types (rows : list RoomSnapshot) (r : string) (s : RoomSnapshot).

Lemma elem_of_snapshots_of r rows s :
  s ∈ snapshots_of r rows ↔ snap_roomId s = r ∧ s ∈ rows.
Proof. unfold snapshots_of. by rewrite list_elem_of_filter. Qed.

Lemma snapshots_of_app r rows1 rows2 :
  snapshots_of r (rows1 ++ rows2) = snapshots_of r rows1 ++ snapshots_of r rows2.
Proof. apply filter_app. Qed.

Lemma findMany_sorted r rows :
  roomSnapshot_findMany r 0 rows = merge_sort version_desc (snapshots_of r rows).
Proof. done. Qed.

Lemma findFirst_None r rows :
  roomSnapshot_findFirst r rows = None ↔ snapshots_of r rows = [].
Proof.
  unfold roomSnapshot_findFirst. rewrite findMany_sorted.
  pose proof (merge_sort_Permutation version_desc (snapshots_of r rows)) as Hp.
  split.
  - intros Hh. apply head_None in Hh. rewrite Hh in Hp.
    by apply Permutation_nil_l in Hp.
  - intros E. by rewrite E.
Qed.

(** [findFirst] with [orderBy version desc] returns a newest snapshot. *)
Lemma findFirst_Some r rows s :
  roomSnapshot_findFirst r rows = Some s →
  s ∈ snapshots_of r rows ∧
  ∀ s', s' ∈ snapshots_of r rows → (version s' ≤ version s)%Z.
Proof.
  unfold roomSnapshot_findFirst. rewrite findMany_sorted.
  pose proof (merge_sort_Permutation version_desc (snapshots_of r rows)) as Hp.
  pose proof (StronglySorted_merge_sort version_desc (snapshots_of r rows)) as Hs.
  destruct (merge_sort version_desc (snapshots_of r rows)) as [| x l] eqn:E;
    [done |].
  intros [= ->]. split.
  - rewrite <- Hp. by left.
  - intros s' Hin. rewrite <- Hp in Hin.
    apply StronglySorted_inv in Hs as [_ Hall].
    apply elem_of_cons in Hin as [-> | Hin]; [done |].
    rewrite Forall_forall in Hall. by apply Hall.
Qed.

Lemma max_version_None r rows :
  max_version r rows = None ↔ snapshots_of r rows = [].
Proof.
  unfold max_version, versions_of.
  destruct (snapshots_of r rows); simpl; split; done.
Qed.

Lemma max_version_Some r rows m :
  max_version r rows = Some m →
  (∃ s, s ∈ snapshots_of r rows ∧ version s = m) ∧
  ∀ s, s ∈ snapshots_of r rows → (version s ≤ m)%Z.
Proof.
  unfold max_version, versions_of. revert m.
  induction (snapshots_of r rows) as [| x l IH]; intros m; [done |].
  rewrite fmap_cons. cbn [foldr].
  destruct (foldr _ None (version <$> l)) as [m' |] eqn:E.
  - intros [= <-]. destruct (IH m' eq_refl) as [(s & Hs & Hv) Hle]. split.
    + destruct (Z.max_spec (version x) m') as [[_ ->] | [_ ->]].
      * exists s. split; [by right | done].
      * exists x. split; [by left | done].
    + intros s' [-> | Hin]%elem_of_cons; [lia |].
      specialize (Hle s' Hin). lia.
  - intros [= <-]. destruct l; [| done]. split.
    + exists x. split; [by left | done].
    + intros s' [-> | Hin]%elem_of_cons; [done |].
      by apply not_elem_of_nil in Hin.
Qed.

(** The version [saveSnapshot] assigns is one more than the largest
    version of the room, and 1 when the room has no snapshot. *)
Lemma next_version_max r rows :
  next_version (roomSnapshot_findFirst r rows) =
    match max_version r rows with
    | Some m => (m + 1)%Z
    | None => 1%Z
    end.
Proof.
  destruct (max_version r rows) as [m |] eqn:Em.
  - apply max_version_Some in Em as [(s & Hs & Hv) Hle].
    destruct (roomSnapshot_findFirst r rows) as [f |] eqn:Ef.
    + apply findFirst_Some in Ef as [Hf Hfle].
      specialize (Hle f Hf). specialize (Hfle s Hs).
      unfold next_version. case_decide; lia.
    + apply findFirst_None in Ef. rewrite Ef in Hs.
      by apply not_elem_of_nil in Hs.
  - apply max_version_None in Em. apply findFirst_None in Em.
    by rewrite Em.
Qed.

Lemma next_version_above r rows s :
  s ∈ snapshots_of r rows →
  (version s < next_version (roomSnapshot_findFirst r rows))%Z.
Proof.
  intros Hs. rewrite next_version_max.
  destruct (max_version r rows) as [m |] eqn:Em.
  - apply max_version_Some in Em as [_ Hle]. specialize (Hle s Hs). lia.
  - apply max_version_None in Em. rewrite Em in Hs.
    by apply not_elem_of_nil in Hs.
Qed.

Lemma fresh_snap_id_fresh rows : fresh_snap_id rows ∉ snap_id <$> rows.
Proof.
  unfold fresh_snap_id. intros Hin.
  apply max_list_elem_of_le in Hin. lia.
Qed.

Lemma snapshot_ids_unique_create r data sv v now rows :
  snapshot_ids_unique rows →
  snapshot_ids_unique (roomSnapshot_create r data sv v now rows).
Proof.
  unfold snapshot_ids_unique, roomSnapshot_create. intros Hnd.
  rewrite fmap_app. apply NoDup_app. split_and!; [done | | apply NoDup_singleton].
  intros i Hi ->%list_elem_of_singleton. by apply fresh_snap_id_fresh in Hi.
Qed.

Lemma filter_all {A} (P : A → Prop) `{∀ x, Decision (P x)} (l : list A) :
  (∀ x, x ∈ l → P x) → filter P l = l.
Proof.
  induction l as [| x l IH]; intros Hall; [done |].
  rewrite filter_cons_True by (apply Hall; by left).
  f_equal. apply IH. intros y Hy. apply Hall. by right.
Qed.

Lemma filter_none {A} (P : A → Prop) `{∀ x, Decision (P x)} (l : list A) :
  (∀ x, x ∈ l → ¬ P x) → filter P l = [].
Proof.
  induction l as [| x l IH]; intros Hall; [done |].
  rewrite filter_cons_False by (apply Hall; by left).
  apply IH. intros y Hy. apply Hall. by right.
Qed.

Lemma filter_ext_in {A} (P Q : A → Prop) `{∀ x, Decision (P x)}
    `{∀ x, Decision (Q x)} (l : list A) :
  (∀ x, x ∈ l → P x ↔ Q x) → filter P l = filter Q l.
Proof.
  induction l as [| x l IH]; intros Hall; [done |].
  rewrite !filter_cons. rewrite IH by (intros y Hy; apply Hall; by right).
  destruct (decide (P x)) as [HP | HP], (decide (Q x)) as [HQ | HQ]; try done;
    exfalso; apply (Hall x) in HP || apply (Hall x) in HQ; done || by left.
Qed.

Lemma filter_swap {A} (P Q : A → Prop) `{∀ x, Decision (P x)}
    `{∀ x, Decision (Q x)} (l : list A) :
  filter P (filter Q l) = filter Q (filter P l).
Proof. rewrite !list_filter_filter. apply list_filter_iff. intros x. tauto. Qed.

(** The pruning step deletes the rows [findMany] returned, whether or not
    the list is empty. *)
Lemma saveSnapshot_rows_prune `{Yjs} r (d : Doc) now rows :
  let rows1 :=
    roomSnapshot_create r (Y_encodeStateAsUpdate d) (Y_encodeStateVector d)
      (next_version (roomSnapshot_findFirst r rows)) now rows in
  saveSnapshot_rows r d now rows =
    roomSnapshot_deleteMany (snap_id <$> roomSnapshot_findMany r 10 rows1) rows1.
Proof.
  intros rows1. unfold saveSnapshot_rows. fold rows1.
  case_decide as Hlen; [done |].
  destruct (roomSnapshot_findMany r 10 rows1); simpl in *; [| lia].
  unfold roomSnapshot_deleteMany. symmetry. apply filter_all.
  intros x _. apply not_elem_of_nil.
Qed.

(** After the pruning step on a table with a primary key: the rows of
    the room are the first [keep] rows in descending version order, the
    rows of the other rooms are untouched. *)
Lemma prune_kept r keep rows :
  snapshot_ids_unique rows →
  snapshots_of r
    (roomSnapshot_deleteMany (snap_id <$> roomSnapshot_findMany r keep rows) rows)
  ≡ₚ take keep (merge_sort version_desc (snapshots_of r rows)).
Proof.
  intros Hnd. unfold roomSnapshot_findMany, roomSnapshot_deleteMany.
  set (sorted := merge_sort version_desc (snapshots_of r rows)).
  assert (Hp : sorted ≡ₚ snapshots_of r rows) by apply merge_sort_Permutation.
  unfold snapshots_of at 1. rewrite filter_swap.
  fold (snapshots_of r rows). rewrite <- Hp.
  assert (NoDup (snap_id <$> sorted)) as Hnds.
  { rewrite Hp. unfold snapshots_of. unfold snapshot_ids_unique in Hnd.
    clear -Hnd. induction rows as [| x l IH]; [constructor |].
    rewrite fmap_cons in Hnd. apply NoDup_cons in Hnd as [Hx Hnd].
    rewrite filter_cons. case_decide; [| auto].
    rewrite fmap_cons. apply NoDup_cons. split; [| auto].
    intros (y & Hy & Hin)%list_elem_of_fmap. apply Hx.
    apply list_elem_of_fmap. exists y. split; [done |].
    by apply list_elem_of_filter in Hin as [_ ?]. }
  set (P := λ s, snap_id s ∉ snap_id <$> drop keep sorted).
  replace (filter P sorted)
    with (filter P (take keep sorted ++ drop keep sorted))
    by (by rewrite take_drop).
  subst P. rewrite <- (take_drop keep sorted) in Hnds.
  rewrite fmap_app in Hnds. apply NoDup_app in Hnds as (_ & Hdisj & _).
  rewrite filter_app, filter_all, filter_none.
  - by rewrite app_nil_r.
  - intros x Hx Hn. apply Hn. by apply list_elem_of_fmap_2.
  - intros x Hx. apply Hdisj. by apply list_elem_of_fmap_2.
Qed.

Lemma prune_other_rooms r r' keep rows :
  snapshot_ids_unique rows → r' ≠ r →
  snapshots_of r'
    (roomSnapshot_deleteMany (snap_id <$> roomSnapshot_findMany r keep rows) rows)
  = snapshots_of r' rows.
Proof.
  intros Hnd Hr. unfold roomSnapshot_findMany, roomSnapshot_deleteMany.
  set (sorted := merge_sort version_desc (snapshots_of r rows)).
  assert (Hp : sorted ≡ₚ snapshots_of r rows) by apply merge_sort_Permutation.
  unfold snapshots_of at 1 2. rewrite list_filter_filter.
  apply filter_ext_in. intros x Hx. split; [by intros [? _] |].
  intros Hx'. split; [done |].
  intros (y & Hid & Hy)%list_elem_of_fmap.
  apply subseteq_drop in Hy. rewrite Hp in Hy.
  apply elem_of_snapshots_of in Hy as [Hyr Hy].
  assert (x = y) as ->; [| congruence].
  unfold snapshot_ids_unique in Hnd.
  apply list_elem_of_lookup in Hx as [i Hi].
  apply list_elem_of_lookup in Hy as [j Hj].
  assert (i = j) as ->; [| congruence].
  eapply NoDup_lookup; [exact Hnd | |]; rewrite list_lookup_fmap.
  - by rewrite Hi.
  - rewrite Hj. simpl. by rewrite Hid.
Qed.

End snapshots.

Lemma NoDup_fmap_filter {A B} (f : A → B) (P : A → Prop)
    `{∀ x, Decision (P x)} (l : list A) :
  NoDup (f <$> l) → NoDup (f <$> filter P l).
Proof.
  induction l as [| x l IH]; [done |].
  rewrite fmap_cons. intros [Hx Hnd]%NoDup_cons.
  rewrite filter_cons. case_decide; [| auto].
  rewrite fmap_cons. apply NoDup_cons. split; [| auto].
  intros (y & Hy & Hin)%list_elem_of_fmap. apply Hx.
  apply list_elem_of_fmap. exists y. split; [done |].
  by apply list_elem_of_filter in Hin as [_ ?].
Qed.

(** ** The handlers *)

Section handlers.

Context `{Yjs, Base64}.

Implicit Types (st : Server) (y : YjsDocumentManager) (db : PrismaClient)
  (cm : ConnectionManager) (r : string).

(** What one save does to the snapshot table. *)
Lemma saveSnapshot_rows_retention r now rows (d : Doc) :
  snapshot_ids_unique rows →
  let v := match max_version r rows with
           | Some m => (m + 1)%Z
           | None => 1%Z
           end in
  let new := mkRoomSnapshot (fresh_snap_id rows) r (Y_encodeStateAsUpdate d)
               (Y_encodeStateVector d) v now in
  let rows' := saveSnapshot_rows r d now rows in
  (∀ s, s ∈ snapshots_of r rows → (version s < v)%Z) ∧
  new ∈ snapshots_of r rows' ∧
  snapshots_of r rows'
    ≡ₚ take 10 (merge_sort version_desc (snapshots_of r rows ++ [new])) ∧
  length (snapshots_of r rows') ≤ 10 ∧
  (∀ kept pruned,
     kept ∈ snapshots_of r rows' →
     pruned ∈ snapshots_of r rows → pruned ∉ snapshots_of r rows' →
     (version pruned ≤ version kept)%Z) ∧
  (∀ r', r' ≠ r → snapshots_of r' rows' = snapshots_of r' rows) ∧
  snapshot_ids_unique rows'.
Proof.
  intros Hnd v new rows'.
  assert (Hv : ∀ s, s ∈ snapshots_of r rows → (version s < v)%Z).
  { intros s Hs. subst v. rewrite <- next_version_max.
    by apply next_version_above. }
  set (rows1 := rows ++ [new]).
  assert (Hrows' : rows' =
    roomSnapshot_deleteMany (snap_id <$> roomSnapshot_findMany r 10 rows1) rows1).
  { subst rows'. rewrite saveSnapshot_rows_prune.
    unfold roomSnapshot_create. by rewrite next_version_max. }
  assert (Hnd1 : snapshot_ids_unique rows1).
  { by apply (snapshot_ids_unique_create r _ _ v now). }
  assert (Hof1 : snapshots_of r rows1 = snapshots_of r rows ++ [new]).
  { subst rows1. rewrite snapshots_of_app. f_equal.
    unfold snapshots_of. by rewrite filter_cons_True. }
  set (sorted := merge_sort version_desc (snapshots_of r rows ++ [new])).
  assert (Hperm : sorted ≡ₚ snapshots_of r rows ++ [new])
    by apply merge_sort_Permutation.
  assert (Hsorted : StronglySorted version_desc sorted)
    by apply (StronglySorted_merge_sort _).
  assert (Hkept : snapshots_of r rows' ≡ₚ take 10 sorted).
  { rewrite Hrows', prune_kept by done. by rewrite Hof1. }
  assert (Hhead : ∃ tl, sorted = new :: tl).
  { destruct sorted as [| x tl] eqn:E.
    - apply Permutation_nil_l in Hperm. by destruct (snapshots_of r rows).
    - exists tl. f_equal.
      assert (Hx : x ∈ snapshots_of r rows ++ [new]) by (rewrite <- Hperm; by left).
      apply elem_of_app in Hx as [Hx | Hx%list_elem_of_singleton]; [| done].
      exfalso. apply Hv in Hx.
      assert (Hn : new ∈ x :: tl).
      { rewrite Hperm. apply elem_of_app. right. by left. }
      apply StronglySorted_inv in Hsorted as [_ Hall].
      apply elem_of_cons in Hn as [Hn | Hn].
      + rewrite <- Hn in Hx. simpl in Hx. lia.
      + rewrite Forall_forall in Hall. specialize (Hall new Hn).
        unfold version_desc in Hall. simpl in Hall. lia. }
  split_and!.
  - done.
  - rewrite Hkept. destruct Hhead as [tl ->]. by left.
  - done.
  - rewrite Hkept, length_take. lia.
  - intros kept pruned Hk Hp Hnp. rewrite Hkept in Hk. rewrite Hkept in Hnp.
    assert (Hpd : pruned ∈ drop 10 sorted).
    { assert (Hps : pruned ∈ sorted).
      { rewrite Hperm. apply elem_of_app. by left. }
      rewrite <- (take_drop 10 sorted) in Hps.
      by apply elem_of_app in Hps as [? | ?]. }
    rewrite <- (take_drop 10 sorted) in Hsorted.
    apply (StronglySorted_app_1_elem_of _ _ _ kept pruned Hsorted Hk Hpd).
  - intros r' Hr'. rewrite Hrows', prune_other_rooms by done.
    subst rows1. rewrite snapshots_of_app.
    unfold snapshots_of at 2. rewrite filter_cons_False by (simpl; congruence).
    by rewrite filter_nil, app_nil_r.
  - rewrite Hrows'. by apply NoDup_fmap_filter.
Qed.

(** C4.  A snapshot save of room [r], of the document passed or else of
    the cached document of [r], gives the new snapshot the version
    max(existing versions of [r]) + 1, and 1 when [r] has no snapshot, so
    the new version is above every existing version of the room; after
    the pruning step the room keeps at most 10 snapshots, the 10 first in
    descending version order (the new one among them, every kept version
    at least every pruned one), and the other rooms keep theirs. *)
Theorem saveSnapshot_version_and_retention r doc now y db (d : Doc) :
  document_to_save r doc y = Some d →
  snapshot_ids_unique (roomSnapshot db) →
  let rows := roomSnapshot db in
  let v := match max_version r rows with
           | Some m => (m + 1)%Z
           | None => 1%Z
           end in
  let new := mkRoomSnapshot (fresh_snap_id rows) r (Y_encodeStateAsUpdate d)
               (Y_encodeStateVector d) v now in
  let rows' := roomSnapshot (saveSnapshot r doc now y db) in
  (∀ s, s ∈ snapshots_of r rows → (version s < v)%Z) ∧
  new ∈ snapshots_of r rows' ∧
  snapshots_of r rows'
    ≡ₚ take 10 (merge_sort version_desc (snapshots_of r rows ++ [new])) ∧
  length (snapshots_of r rows') ≤ 10 ∧
  (∀ kept pruned,
     kept ∈ snapshots_of r rows' →
     pruned ∈ snapshots_of r rows → pruned ∉ snapshots_of r rows' →
     (version pruned ≤ version kept)%Z) ∧
  (∀ r', r' ≠ r → snapshots_of r' rows' = snapshots_of r' rows) ∧
  snapshot_ids_unique rows'.
Proof.
  intros Hd Hnd. simpl. unfold saveSnapshot. rewrite Hd. simpl.
  by apply saveSnapshot_rows_retention.
Qed.

(** *** The document cache *)

Lemma applyUpdate_documents r update y b y' r' :
  applyUpdate r update y = Some (b, y') →
  documents y' !! r' =
    if decide (r = r')
    then (λ d, Y_applyUpdate d update) <$> documents y !! r'
    else documents y !! r'.
Proof.
  unfold applyUpdate.
  destruct (documents y !! r) as [d |] eqn:E.
  - destruct (Y_decodes update); [| done]. intros [= <- <-]. simpl.
    case_decide as Hr.
    + subst r'. by rewrite lookup_insert_eq, E.
    + by rewrite lookup_insert_ne.
  - intros [= <- <-]. case_decide as Hr; [| done]. subst r'. by rewrite E.
Qed.

Lemma applyUpdate_saveTimers r update y b y' :
  applyUpdate r update y = Some (b, y') → saveTimers y' = saveTimers y.
Proof.
  unfold applyUpdate. destruct (documents y !! r).
  - destruct (Y_decodes update); [| done]. by intros [= <- <-].
  - by intros [= <- <-].
Qed.

(** [applyUpdate] throws when the room has a document and the bytes are
    not an update, and only then. *)
Lemma applyUpdate_throws r update y :
  applyUpdate r update y = None ↔
  is_Some (documents y !! r) ∧ Y_decodes update = false.
Proof.
  unfold applyUpdate. destruct (documents y !! r) as [d |].
  - destruct (Y_decodes update).
    + split; [done | by intros [_ ?]].
    + split; [| done]. intros _. split; [by eexists | done].
  - split; [done |]. by intros [[? ?] _].
Qed.

Lemma applyUpdate_returns r update y :
  Y_decodes update = true →
  ∃ b y', applyUpdate r update y = Some (b, y').
Proof.
  intros Hu. unfold applyUpdate. rewrite Hu.
  destruct (documents y !! r); eauto.
Qed.

(** What the dispatch makes of an update frame: the sender has no room
    and nothing happens, or the update is applied and relayed, or it is
    rejected and the error frame is sent. *)
Lemma handleMessage_update st c w delta now :
  let st' := handleMessage c w (Message (UpdateMessage delta)) now st in
  (truthy_room (getRoomId c (connectionManager st)) = None ∧
   handleUpdate c delta st = Returned st ∧ st' = st) ∨
  (∃ r b y1,
     truthy_room (getRoomId c (connectionManager st)) = Some r ∧
     applyUpdate r (base64_decode delta) (yjsManager st) = Some (b, y1) ∧
     handleUpdate c delta st = Returned st' ∧
     st' = mkServer (connectionManager st) y1 (prisma st)
             (broadcastToRoom r (UpdateBroadcast delta c) (Some c)
                (connectionManager st) (net st))) ∨
  (∃ r,
     truthy_room (getRoomId c (connectionManager st)) = Some r ∧
     applyUpdate r (base64_decode delta) (yjsManager st) = None ∧
     handleUpdate c delta st = Thrown st ∧
     st' = report_error c st).
Proof.
  cbn [handleMessage]. unfold handleUpdate.
  destruct (truthy_room _) as [r |]; [| by left].
  destruct (applyUpdate r _ _) as [[b y1] |] eqn:Ea; right.
  - left. by exists r, b, y1.
  - right. by exists r.
Qed.

Lemma getOrCreateDocument_documents r db y r' :
  documents (getOrCreateDocument r db y).2 !! r' =
    if decide (r = r')
    then Some (default (seeded_document r (roomSnapshot db)) (documents y !! r))
    else documents y !! r'.
Proof.
  unfold getOrCreateDocument, seeded_document. case_decide as Hr.
  - subst r'. destruct (documents y !! r) as [d |] eqn:E; simpl; [done |].
    by rewrite lookup_insert_eq.
  - destruct (documents y !! r); simpl; [done |]. by rewrite lookup_insert_ne.
Qed.

Lemma getOrCreateDocument_saveTimers r db y r' :
  is_Some (saveTimers y !! r') →
  is_Some (saveTimers (getOrCreateDocument r db y).2 !! r').
Proof.
  unfold getOrCreateDocument. destruct (documents y !! r); simpl; [done |].
  intros Ht. rewrite lookup_insert. by case_decide.
Qed.

(** *** Frames from a session without a room *)

Lemma truthy_room_Some o r : truthy_room o = Some r ↔ o = Some r ∧ r ≠ EmptyString.
Proof.
  unfold truthy_room. destruct o as [r' |]; [| by split; [| intros []]].
  case_decide as Hr; split.
  - done.
  - intros [[= ->] ?]. done.
  - intros [= ->]. done.
  - intros [[= ->] _]. done.
Qed.

(** C7 (as amended).  An update or presence frame from a session that has
    no registered room is dropped in silence: the handler returns the
    state it was given, so no document changes, nothing is broadcast, and
    no frame, in particular no error frame, is sent to the sender. *)
Theorem frames_before_connect_dropped st clientId w now delta pid cursor
    selection viewport :
  getRoomId clientId (connectionManager st) = None →
  handleUpdate clientId delta st = Returned st ∧
  handlePresence clientId cursor selection viewport st = st ∧
  handleMessage clientId w (Message (UpdateMessage delta)) now st = st ∧
  handleMessage clientId w
    (Message (PresenceMessage pid cursor selection viewport)) now st = st.
Proof.
  intros E. unfold handleMessage, handleUpdate, handlePresence.
  by rewrite E.
Qed.

(** *** Updates *)


(** *** Frames the dispatch does not handle *)

(** C8 (as amended).  A frame whose type is none of the known variants
    is ignored when its type converts to a string, as every string,
    number, boolean and null does, and a missing type, and an object
    without a member [toString] of its own: the state is unchanged and no
    frame is sent.  For a frame that fails to parse, or whose type does
    not convert to a string, the error frame INVALID_MESSAGE goes
    through [sendToClient]: it is sent, exactly once, when the sender is
    registered and its socket is open, and dropped otherwise.  In all
    cases the registry, the documents and the store are unchanged and no
    socket changes its ready state. *)
Theorem unhandled_frames st clientId w now data :
  data = SyntaxError ∨ data = JSONNull ∨
    (∃ type, data = Message (UnknownMessage (Some type)) ∧
             ToString_returns type = false) →
  let st' := handleMessage clientId w data now st in
  (∀ type, type_is_logged (UnknownMessage type) = true →
     handleMessage clientId w (Message (UnknownMessage type)) now st = st) ∧
  (∀ s, s ∉ discriminators →
     handleMessage clientId w (Message (UnknownMessage (Some (JString s))))
       now st = st) ∧
  (∀ type,
     match type with
     | Some (JArray _) => False
     | Some (JObject members) => "toString" ∉ members.*1
     | _ => True
     end →
     handleMessage clientId w (Message (UnknownMessage type)) now st = st) ∧
  connectionManager st' = connectionManager st ∧
  yjsManager st' = yjsManager st ∧
  prisma st' = prisma st ∧
  (∀ w', readyState <$> net st' !! w' = readyState <$> net st !! w') ∧
  (∀ k, connections (connectionManager st) !! clientId = Some k →
        ws_is_open (ws k) (net st) = true →
        outbox (ws k) (net st') = outbox (ws k) (net st) ++ [invalid_message] ∧
        ∀ w', w' ≠ ws k → net st' !! w' = net st !! w') ∧
  ((∀ k, connections (connectionManager st) !! clientId = Some k →
         ws_is_open (ws k) (net st) = false) →
   st' = st).
Proof.
  intros Hdata st'.
  assert (Hst' : st' = report_error clientId st).
  { subst st'. destruct Hdata as [-> | [-> | (type & -> & Htype)]]; [done.. |].
    cbn [handleMessage type_is_logged]. by rewrite Htype. }
  assert (Hlogged : ∀ type, type_is_logged (UnknownMessage type) = true →
            handleMessage clientId w (Message (UnknownMessage type)) now st = st).
  { intros type Htype. cbn [handleMessage]. by rewrite Htype. }
  rewrite Hst'. split_and!; [exact Hlogged | | | unfold report_error; simpl ..].
  - intros s _. by apply Hlogged.
  - intros [[| b | n | s | items | members] |] Htype; apply Hlogged; try done.
    simpl. by apply bool_decide_eq_true_2.
  - done.
  - done.
  - done.
  - intros w'. apply sendToClient_readyState.
  - intros k Ek Hopen. split.
    + by apply sendToClient_delivered.
    + intros w' Hw'. apply sendToClient_other. intros k' Ek'.
      assert (k' = k) as -> by congruence. done.
  - intros Hclosed. rewrite sendToClient_dropped by done. by destruct st.
Qed.

(** *** The connect handshake *)

Lemma handleConnect_room st c w r u now r' :
  room (prisma (handleConnect c w r u now st)) !! r' =
    if decide (r = r')
    then Some (match room (prisma st) !! r with
               | Some old => room_touch now old
               | None => mkRoom r ("Room " +:+ r) (user_id u) now now
               end)
    else room (prisma st) !! r'.
Proof.
  unfold handleConnect; simpl. case_decide as Hr.
  - subst r'. rewrite lookup_alter_eq.
    destruct (room (prisma st) !! r) as [old |] eqn:E; simpl.
    + by rewrite E.
    + by rewrite lookup_insert_eq.
  - rewrite lookup_alter_ne by done.
    destruct (room (prisma st) !! r); [done |]. by rewrite lookup_insert_ne.
Qed.

Lemma handleConnect_connectionManager st c w r u now :
  connectionManager (handleConnect c w r u now st)
    = addConnection c w r u now (connectionManager st).
Proof. done. Qed.

Lemma handleConnect_roomParticipant st c w r u now :
  roomParticipant (prisma (handleConnect c w r u now st))
    = roomParticipant (prisma st) ++ [joined_row c r u now].
Proof. done. Qed.

Lemma handleConnect_roomSnapshot st c w r u now :
  roomSnapshot (prisma (handleConnect c w r u now st)) = roomSnapshot (prisma st).
Proof. done. Qed.

Lemma handleConnect_documents st c w r u now r' :
  documents (yjsManager (handleConnect c w r u now st)) !! r' =
    if decide (r = r')
    then Some (default (seeded_document r (roomSnapshot (prisma st)))
                 (documents (yjsManager st) !! r))
    else documents (yjsManager st) !! r'.
Proof. unfold handleConnect; simpl. by rewrite getOrCreateDocument_documents. Qed.

Lemma handleConnect_net st c w r u now :
  let cm1 := addConnection c w r u now (connectionManager st) in
  let d := default (seeded_document r (roomSnapshot (prisma st)))
             (documents (yjsManager st) !! r) in
  net (handleConnect c w r u now st) =
    broadcastToRoom r (JoinBroadcast u c r) (Some c) cm1
      (sendToClient c (sync_response r d cm1) cm1 (net st)).
Proof.
  intros cm1 d. unfold handleConnect; simpl. unfold getStateAsUpdate.
  by rewrite getOrCreateDocument_documents, decide_True.
Qed.

(** A newly seeded document starts from a newest snapshot of the room. *)
Lemma seeded_document_newest r rows :
  (snapshots_of r rows = [] ∧ seeded_document r rows = Y_Doc_new) ∨
  ∃ s, s ∈ snapshots_of r rows ∧
       (∀ s', s' ∈ snapshots_of r rows → (version s' ≤ version s)%Z) ∧
       seeded_document r rows = Y_applyUpdate Y_Doc_new (snapshotData s).
Proof.
  unfold seeded_document.
  destruct (roomSnapshot_findFirst r rows) as [s |] eqn:E.
  - right. exists s. apply findFirst_Some in E as [? ?]. done.
  - left. by apply findFirst_None in E.
Qed.

Lemma sockets_distinct_addConnection cm c w r u now :
  sockets_distinct cm r → socket_private cm r c w →
  sockets_distinct (addConnection c w r u now cm) r.
Proof.
  intros Hdist Hpriv c1 c2 k1 k2 Hin1 Hin2 Hne.
  rewrite !addConnection_connections.
  apply in_bucket_addConnection in Hin1, Hin2.
  destruct (decide (c = c1)) as [<- | Hc1], (decide (c = c2)) as [<- | Hc2];
    try done.
  - intros [= <-] E2. simpl. apply not_eq_sym.
    destruct Hin2 as [Hin2 | [-> _]]; [| done]. by eapply Hpriv.
  - intros E1 [= <-]. simpl.
    destruct Hin1 as [Hin1 | [-> _]]; [| done]. by eapply Hpriv.
  - destruct Hin1 as [Hin1 | [-> _]]; [| done].
    destruct Hin2 as [Hin2 | [-> _]]; [| done]. by apply Hdist.
Qed.

(** The connecting client gets the sync-response and no join. *)
Lemma handleConnect_sync st c w r u now :
  ws_is_open w (net st) = true →
  socket_private (connectionManager st) r c w →
  let st' := handleConnect c w r u now st in
  ∀ d, documents (yjsManager st') !! r = Some d →
  outbox w (net st')
    = outbox w (net st) ++ [sync_response r d (connectionManager st')].
Proof.
  intros Hopen Hpriv st' d Hd. subst st'.
  rewrite handleConnect_documents, decide_True in Hd by done.
  injection Hd as <-.
  rewrite handleConnect_net, handleConnect_connectionManager.
  set (cm1 := addConnection c w r u now (connectionManager st)).
  assert (E : connections cm1 !! c = Some (mkClientConnection w r u now)).
  { subst cm1. by rewrite addConnection_connections, decide_True. }
  set (sync := sync_response r _ cm1).
  rewrite (outbox_lookup w (sendToClient c sync cm1 (net st))).
  - exact (sendToClient_delivered c sync cm1 (net st) _ E Hopen).
  - apply broadcastToRoom_other. intros c' k Hin Hex.
    subst cm1. rewrite addConnection_connections.
    case_decide as Hc; [congruence |]. intros Ek.
    apply in_bucket_addConnection in Hin as [Hin | [-> _]]; [| done].
    by apply (Hpriv c' k).
Qed.

(** The other open members of the room get the join. *)
Lemma handleConnect_join st c w r u now A kA :
  NoDup (bucket (connectionManager st) r) →
  sockets_distinct (connectionManager st) r →
  socket_private (connectionManager st) r c w →
  in_bucket (connectionManager st) A r → A ≠ c →
  connections (connectionManager st) !! A = Some kA →
  ws_is_open (ws kA) (net st) = true →
  outbox (ws kA) (net (handleConnect c w r u now st))
    = outbox (ws kA) (net st) ++ [JoinBroadcast u c r].
Proof.
  intros Hnd Hdist Hpriv Hin HAc EA Hopen.
  rewrite handleConnect_net.
  set (cm1 := addConnection c w r u now (connectionManager st)).
  set (sync := sync_response r _ cm1).
  assert (E1 : connections cm1 !! A = Some kA).
  { subst cm1. by rewrite addConnection_connections, decide_False. }
  assert (Hsame : sendToClient c sync cm1 (net st) !! ws kA = net st !! ws kA).
  { apply sendToClient_other. intros k. subst cm1.
    rewrite addConnection_connections, decide_True by done.
    intros [= <-]. simpl. apply not_eq_sym. by apply (Hpriv A kA). }
  rewrite (broadcastToRoom_delivered r _ _ cm1 _ A kA).
  - by rewrite (outbox_lookup _ _ _ Hsame).
  - subst cm1. unfold bucket in *.
    rewrite addConnection_roomClients, decide_True by done.
    by apply NoDup_Set_add.
  - by apply sockets_distinct_addConnection.
  - apply in_bucket_addConnection. by left.
  - congruence.
  - done.
  - rewrite <- Hopen. apply ws_is_open_readyState. by rewrite Hsame.
Qed.

(** Sockets that belong neither to the client nor to a member of the
    room are sent nothing. *)
Lemma handleConnect_other st c w r u now w' :
  w' ≠ w →
  (∀ A kA, in_bucket (connectionManager st) A r → A ≠ c →
           connections (connectionManager st) !! A = Some kA → ws kA ≠ w') →
  net (handleConnect c w r u now st) !! w' = net st !! w'.
Proof.
  intros Hw Hout. rewrite handleConnect_net.
  set (cm1 := addConnection c w r u now (connectionManager st)).
  rewrite broadcastToRoom_other.
  - apply sendToClient_other. intros k. subst cm1.
    rewrite addConnection_connections, decide_True by done.
    intros [= <-]. simpl. done.
  - intros A k Hin Hex. subst cm1. rewrite addConnection_connections.
    case_decide as Hc; [congruence |]. intros Ek.
    apply in_bucket_addConnection in Hin as [Hin | [-> _]]; [| done].
    by apply (Hout A k).
Qed.

(** Every frame the handshake sends is the sync-response or the join. *)
Lemma handleConnect_frames st c w r u now w' m :
  m ∈ outbox w' (net (handleConnect c w r u now st)) →
  m ∈ outbox w' (net st) ∨
  (∃ data participants, m = SyncResponse data participants) ∨
  m = JoinBroadcast u c r.
Proof.
  rewrite handleConnect_net.
  set (cm1 := addConnection c w r u now (connectionManager st)).
  set (sync := sync_response r _ cm1).
  destruct (broadcastToRoom_appends r (JoinBroadcast u c r) (Some c) cm1
              (sendToClient c sync cm1 (net st)) w') as [n ->].
  destruct (sendToClient_appends c sync cm1 (net st) w') as [n' ->].
  rewrite !elem_of_app.
  intros [[? | [-> _]%elem_of_replicate] | [-> _]%elem_of_replicate]; eauto.
Qed.

Lemma getRoomParticipants_member cm c r k :
  in_bucket cm c r → connections cm !! c = Some k →
  mkParticipant (user_id (user k)) c (user k) editor (joinedAt k)
    ∈ getRoomParticipants r cm.
Proof.
  intros (l & El & Hin) Ek. unfold getRoomParticipants. rewrite El.
  apply list_elem_of_omap. exists c. split; [done |]. by rewrite Ek.
Qed.

Lemma handleConnect_saveTimers st c w r u now r' :
  saveTimers (yjsManager (handleConnect c w r u now st)) !! r' =
    if decide (r = r' ∧ documents (yjsManager st) !! r = None)
    then Some (mkTimer r (saveIntervalMs (yjsManager st)))
    else saveTimers (yjsManager st) !! r'.
Proof.
  unfold handleConnect; simpl. unfold getOrCreateDocument.
  destruct (documents (yjsManager st) !! r) as [d |]; simpl.
  - rewrite decide_False; [done | by intros [_ ?]].
  - rewrite lookup_insert. case_decide as Hr.
    + by rewrite decide_True.
    + rewrite decide_False; [done | by intros [? _]].
Qed.

(** A document that is not in the cache is seeded from the rows of the
    snapshot table that name the room: from none of them when there is
    none, and otherwise from one whose version no other exceeds. *)
Lemma seeded_document_table r rows :
  ((∀ s, s ∈ rows → snap_roomId s ≠ r) ∧
   seeded_document r rows = Y_Doc_new) ∨
  ∃ s, s ∈ rows ∧ snap_roomId s = r ∧
       (∀ s', s' ∈ rows → snap_roomId s' = r → (version s' ≤ version s)%Z) ∧
       seeded_document r rows = Y_applyUpdate Y_Doc_new (snapshotData s).
Proof.
  destruct (seeded_document_newest r rows) as [[Hnil ->] | (s & Hs & Hmax & ->)].
  - left. split; [| done]. intros s Hs Hr.
    assert (Hin : s ∈ snapshots_of r rows) by (by apply elem_of_snapshots_of).
    rewrite Hnil in Hin. by apply not_elem_of_nil in Hin.
  - right. exists s. apply elem_of_snapshots_of in Hs as [Hr Hs].
    split_and!; try done.
    intros s' Hs' Hr'. apply Hmax. by apply elem_of_snapshots_of.
Qed.

(** C2.  The handshake of a valid connect{roomId, user} frame of a fresh
    session, whose socket is open and is not the socket of another member
    of the room.  The room row exists afterwards, created if it was
    absent, with [lastActive] set to now, and no other room row changes.
    The connection is in both indexes under roomId, and no other entry of
    the registry changes.  One participant row with role editor and a
    null [leftAt] is appended.  The snapshot table is not written.  The
    room has a document: the cached one if there was one, and the cache
    is then as it was; otherwise the empty document if no row of the
    snapshot table names the room, and else the empty document with the
    payload applied of a row of the room whose version no other row of
    the room exceeds, and the room gets its save timer.  No other room's
    document or timer changes.  The client is sent the sync-response with
    the full state of that document in base64 and the participant list
    of the room, the client included; every other member of the room
    with an open socket is sent the join frame; no other socket is sent
    anything. *)
Theorem handleConnect_handshake st c w r u now :
  connections (connectionManager st) !! c = None →
  ws_is_open w (net st) = true →
  socket_private (connectionManager st) r c w →
  NoDup (bucket (connectionManager st) r) →
  sockets_distinct (connectionManager st) r →
  let st' := handleConnect c w r u now st in
  let rows := roomSnapshot (prisma st) in
  let d := default (seeded_document r rows) (documents (yjsManager st) !! r) in
  (room (prisma st') !! r
     = Some (match room (prisma st) !! r with
             | Some old => room_touch now old
             | None => mkRoom r ("Room " +:+ r) (user_id u) now now
             end) ∧
   ∀ r', r' ≠ r → room (prisma st') !! r' = room (prisma st) !! r') ∧
  (connections (connectionManager st') !! c
     = Some (mkClientConnection w r u now) ∧
   in_bucket (connectionManager st') c r ∧
   bucket (connectionManager st') r = Set_add c (bucket (connectionManager st) r) ∧
   (∀ c', c' ≠ c → connections (connectionManager st') !! c'
                   = connections (connectionManager st) !! c') ∧
   ∀ r', r' ≠ r → roomClients (connectionManager st') !! r'
                  = roomClients (connectionManager st) !! r') ∧
  roomParticipant (prisma st')
    = roomParticipant (prisma st) ++ [joined_row c r u now] ∧
  roomSnapshot (prisma st') = rows ∧
  (documents (yjsManager st') !! r = Some d ∧
   (∀ d0, documents (yjsManager st) !! r = Some d0 →
      d = d0 ∧ yjsManager st' = yjsManager st) ∧
   (documents (yjsManager st) !! r = None →
      (((∀ s, s ∈ rows → snap_roomId s ≠ r) ∧ d = Y_Doc_new) ∨
       ∃ s, s ∈ rows ∧ snap_roomId s = r ∧
            (∀ s', s' ∈ rows → snap_roomId s' = r →
                   (version s' ≤ version s)%Z) ∧
            d = Y_applyUpdate Y_Doc_new (snapshotData s)) ∧
      saveTimers (yjsManager st') !! r
        = Some (mkTimer r (saveIntervalMs (yjsManager st)))) ∧
   ∀ r', r' ≠ r →
     documents (yjsManager st') !! r' = documents (yjsManager st) !! r' ∧
     saveTimers (yjsManager st') !! r' = saveTimers (yjsManager st) !! r') ∧
  (outbox w (net st')
     = outbox w (net st) ++ [sync_response r d (connectionManager st')] ∧
   mkParticipant (user_id u) c u editor now
     ∈ getRoomParticipants r (connectionManager st')) ∧
  (∀ A kA, in_bucket (connectionManager st) A r → A ≠ c →
     connections (connectionManager st) !! A = Some kA →
     ws_is_open (ws kA) (net st) = true →
     outbox (ws kA) (net st')
       = outbox (ws kA) (net st) ++ [JoinBroadcast u c r]) ∧
  (∀ w', w' ≠ w →
     (∀ A kA, in_bucket (connectionManager st) A r → A ≠ c →
        connections (connectionManager st) !! A = Some kA → ws kA ≠ w') →
     net st' !! w' = net st !! w').
Proof.
  intros Hfresh Hopen Hpriv Hnd Hdist st' rows d.
  assert (Ec : connections (connectionManager st') !! c
               = Some (mkClientConnection w r u now)).
  { subst st'. rewrite handleConnect_connectionManager.
    by rewrite addConnection_connections, decide_True. }
  assert (Hin : in_bucket (connectionManager st') c r).
  { subst st'. rewrite handleConnect_connectionManager.
    apply in_bucket_addConnection. by right. }
  assert (Hd : documents (yjsManager st') !! r = Some d).
  { subst st'. by rewrite handleConnect_documents, decide_True. }
  split_and!; try done.
  - subst st'. by rewrite handleConnect_room, decide_True.
  - intros r' Hr'. subst st'. by rewrite handleConnect_room, decide_False.
  - subst st'. rewrite handleConnect_connectionManager. unfold bucket.
    by rewrite addConnection_roomClients, decide_True.
  - intros c' Hc'. subst st'. rewrite handleConnect_connectionManager.
    by rewrite addConnection_connections, decide_False.
  - intros r' Hr'. subst st'. rewrite handleConnect_connectionManager.
    by rewrite addConnection_roomClients, decide_False.
  - intros d0 Hd0. subst d. rewrite Hd0. split; [done |].
    subst st'. unfold handleConnect; simpl. unfold getOrCreateDocument.
    by rewrite Hd0.
  - intros Hnone. split.
    + subst d. rewrite Hnone. cbn [default]. apply seeded_document_table.
    + subst st'. rewrite handleConnect_saveTimers. by rewrite decide_True.
  - intros r' Hr'. subst st'. split.
    + by rewrite handleConnect_documents, decide_False.
    + rewrite handleConnect_saveTimers.
      rewrite decide_False; [done | by intros [? _]].
  - by apply handleConnect_sync.
  - apply (getRoomParticipants_member _ c r _ Hin Ec).
  - intros A kA. by apply handleConnect_join.
  - intros w'. apply handleConnect_other.
Qed.

(** C6 (as amended).  A second connect frame of a session that has
    completed a connect is handled like the first: no error frame is
    sent to any socket, the registry entry of the session is overwritten
    with the new roomId and user, one more participant row is appended,
    and the join is broadcast again to the other open members of the
    room. *)
Theorem second_connect_repeats_handshake st c w r u now k :
  connections (connectionManager st) !! c = Some k →
  let st' := handleConnect c w r u now st in
  (∀ w' code text,
     ErrorMessage code text ∈ outbox w' (net st') →
     ErrorMessage code text ∈ outbox w' (net st)) ∧
  connections (connectionManager st') !! c
    = Some (mkClientConnection w r u now) ∧
  in_bucket (connectionManager st') c r ∧
  roomParticipant (prisma st')
    = roomParticipant (prisma st) ++ [joined_row c r u now] ∧
  (NoDup (bucket (connectionManager st) r) →
   sockets_distinct (connectionManager st) r →
   socket_private (connectionManager st) r c w →
   ∀ A kA, in_bucket (connectionManager st) A r → A ≠ c →
     connections (connectionManager st) !! A = Some kA →
     ws_is_open (ws kA) (net st) = true →
     outbox (ws kA) (net st')
       = outbox (ws kA) (net st) ++ [JoinBroadcast u c r]).
Proof.
  intros _ st'. subst st'. split_and!.
  - intros w' code text [? | [(? & ? & ?) | ?]]%handleConnect_frames; done.
  - rewrite handleConnect_connectionManager.
    by rewrite addConnection_connections, decide_True.
  - rewrite handleConnect_connectionManager.
    apply in_bucket_addConnection. by right.
  - done.
  - intros Hnd Hdist Hpriv A kA. by apply handleConnect_join.
Qed.

(** *** Disconnect, and the life of a document *)

Lemma handleDisconnect_yjsManager st c now :
  yjsManager (handleDisconnect c now st) = yjsManager st.
Proof.
  unfold handleDisconnect.
  by destruct (removeConnection c (connectionManager st)) as [[[r u] |] cm1].
Qed.

(** What a frame does to the registry, the cache and the store: it is
    a connect or a leave, or an update that is applied, or the three are
    left as they were. *)
Lemma handleMessage_cases st c w data now :
  let st' := handleMessage c w data now st in
  (∃ r u t, data = Message (ConnectMessage r u t) ∧
            st' = handleConnect c w r u now st) ∨
  (data = Message LeaveMessage ∧ st' = handleDisconnect c now st) ∨
  (∃ delta r b y1,
     data = Message (UpdateMessage delta) ∧
     applyUpdate r (base64_decode delta) (yjsManager st) = Some (b, y1) ∧
     connectionManager st' = connectionManager st ∧
     yjsManager st' = y1 ∧
     prisma st' = prisma st) ∨
  (connectionManager st' = connectionManager st ∧
   yjsManager st' = yjsManager st ∧
   prisma st' = prisma st).
Proof.
  destruct data as [| | [r u t | delta | pid cursor sel vp | | t | un msg ts | type]].
  - by do 3 right.
  - by do 3 right.
  - left. by exists r, u, t.
  - destruct (handleMessage_update st c w delta now)
      as [(_ & _ & Hst) | [(r & b & y1 & _ & Ea & _ & Hst) | (r & _ & _ & _ & Hst)]];
      cbv zeta; rewrite Hst.
    + by do 3 right.
    + do 2 right. left. by exists delta, r, b, y1.
    + by do 3 right.
  - do 3 right. cbn [handleMessage]. unfold handlePresence.
    by destruct (truthy_room _).
  - right. by left.
  - by do 3 right.
  - do 3 right. cbn [handleMessage]. unfold handleChat.
    by destruct (truthy_room _).
  - do 3 right. cbn [handleMessage]. by destruct (type_is_logged _).
Qed.

Lemma handleMessage_documents st c w data now r :
  is_Some (documents (yjsManager st) !! r) →
  is_Some (documents (yjsManager (handleMessage c w data now st)) !! r).
Proof.
  intros Hd.
  destruct (handleMessage_cases st c w data now)
    as [(r0 & u & t & _ & ->) | [[_ ->] |
        [(delta & r0 & b & y1 & _ & Ea & _ & -> & _) | (_ & -> & _)]]].
  - rewrite handleConnect_documents. by case_decide.
  - by rewrite handleDisconnect_yjsManager.
  - rewrite (applyUpdate_documents _ _ _ _ _ r Ea). case_decide; [| done].
    by apply fmap_is_Some.
  - done.
Qed.

Lemma handleMessage_saveTimers st c w data now r :
  is_Some (saveTimers (yjsManager st) !! r) →
  is_Some (saveTimers (yjsManager (handleMessage c w data now st)) !! r).
Proof.
  intros Hd.
  destruct (handleMessage_cases st c w data now)
    as [(r0 & u & t & _ & ->) | [[_ ->] |
        [(delta & r0 & b & y1 & _ & Ea & _ & -> & _) | (_ & -> & _)]]].
  - unfold handleConnect; simpl. by apply getOrCreateDocument_saveTimers.
  - by rewrite handleDisconnect_yjsManager.
  - by rewrite (applyUpdate_saveTimers _ _ _ _ _ Ea).
  - done.
Qed.

Lemma step_keeps_document st e r :
  is_Some (documents (yjsManager st) !! r) →
  is_Some (documents (yjsManager (step st e)) !! r).
Proof.
  intros Hd. destruct e as [w | c w data now | c w now | r0 now]; cbn [step].
  - done.
  - by apply handleMessage_documents.
  - by rewrite handleDisconnect_yjsManager.
  - by destruct (saveTimers (yjsManager st) !! r0).
Qed.

Lemma step_keeps_timer st e r :
  is_Some (saveTimers (yjsManager st) !! r) →
  is_Some (saveTimers (yjsManager (step st e)) !! r).
Proof.
  intros Hd. destruct e as [w | c w data now | c w now | r0 now]; cbn [step].
  - done.
  - by apply handleMessage_saveTimers.
  - by rewrite handleDisconnect_yjsManager.
  - by destruct (saveTimers (yjsManager st) !! r0).
Qed.

(** No event of the server removes a document from the cache, or the
    save timer of a room. *)
Lemma run_keeps_document evs st r :
  is_Some (documents (yjsManager st) !! r) →
  is_Some (documents (yjsManager (run evs st)) !! r).
Proof.
  revert st. induction evs as [| e evs IH]; intros st Hd; [done |].
  apply IH. by apply step_keeps_document.
Qed.

Lemma run_keeps_timer evs st r :
  is_Some (saveTimers (yjsManager st) !! r) →
  is_Some (saveTimers (yjsManager (run evs st)) !! r).
Proof.
  revert st. induction evs as [| e evs IH]; intros st Hd; [done |].
  apply IH. by apply step_keeps_timer.
Qed.

(** C5 (as amended).  When the last attached session of room R
    disconnects, so that the bucket of R is gone, the server saves a final
    snapshot of the document of R: the snapshot table is the one a save
    of that document produces, and holds a new row of R with the full
    state of the document.  The document is not destroyed and no
    destruction is scheduled: the document cache and the save timers are
    left as they are, and the document, like the save timer of R if there
    is one, is still there after any further events. *)
Theorem last_disconnect_saves_and_keeps_document st c now k (d : Doc) :
  connections (connectionManager st) !! c = Some k →
  isRoomEmpty (roomId k) (removeConnection c (connectionManager st)).2 = true →
  documents (yjsManager st) !! roomId k = Some d →
  snapshot_ids_unique (roomSnapshot (prisma st)) →
  let st' := handleDisconnect c now st in
  roomSnapshot (prisma st')
    = saveSnapshot_rows (roomId k) d now (roomSnapshot (prisma st)) ∧
  (∃ new, new ∈ snapshots_of (roomId k) (roomSnapshot (prisma st')) ∧
          snapshotData new = Y_encodeStateAsUpdate d ∧
          ∀ s, s ∈ snapshots_of (roomId k) (roomSnapshot (prisma st)) →
               (version s < version new)%Z) ∧
  yjsManager st' = yjsManager st ∧
  ∀ evs,
    is_Some (documents (yjsManager (run evs st')) !! roomId k) ∧
    (is_Some (saveTimers (yjsManager st) !! roomId k) →
     is_Some (saveTimers (yjsManager (run evs st')) !! roomId k)).
Proof.
  intros Ek Hempty Hd Hnd st'.
  assert (Hrows : roomSnapshot (prisma st')
                  = saveSnapshot_rows (roomId k) d now (roomSnapshot (prisma st))).
  { subst st'. unfold handleDisconnect.
    pose proof (removeConnection_result c _ k Ek) as Hres.
    destruct (removeConnection c (connectionManager st)) as [res cm1] eqn:Er.
    simpl in Hres, Hempty. subst res. rewrite Hempty. simpl.
    unfold saveSnapshot, document_to_save. by rewrite Hd. }
  assert (Hy : yjsManager st' = yjsManager st)
    by apply handleDisconnect_yjsManager.
  split_and!; [done | | done |].
  - rewrite Hrows.
    destruct (saveSnapshot_rows_retention (roomId k) now
                (roomSnapshot (prisma st)) d Hnd) as (Hv & Hnew & _).
    eexists. split; [exact Hnew |]. split; [done | exact Hv].
  - intros evs. split.
    + apply run_keeps_document. rewrite Hy, Hd. by eexists.
    + intros Ht. apply run_keeps_timer. by rewrite Hy.
Qed.

End handlers.

(** ** The states the server reaches *)

Section server.

Context `{Yjs, Base64}.

Lemma handleDisconnect_connectionManager (st : Server) c now :
  connectionManager (handleDisconnect c now st)
    = (removeConnection c (connectionManager st)).2.
Proof.
  unfold handleDisconnect.
  destruct (removeConnection c (connectionManager st)) as [[[r u] |] cm1] eqn:E;
    simpl; [done |].
  unfold removeConnection in E.
  destruct (connections (connectionManager st) !! c); [done |].
  by injection E as <-.
Qed.

(** The registry of the server changes by attach and detach calls only,
    and an attach uses the socket the frame came with. *)
Lemma step_registry (st : Server) e :
  connectionManager (step st e) = connectionManager st ∨
  (∃ c w r u now,
     connectionManager (step st e)
       = addConnection c w r u now (connectionManager st) ∧
     ∀ f, paired f e → w = f c) ∨
  ∃ c, connectionManager (step st e)
       = (removeConnection c (connectionManager st)).2.
Proof.
  destruct e as [w | c w data now | c w now | r0 now]; cbn [step].
  - by left.
  - destruct (handleMessage_cases st c w data now)
      as [(r & u & t & -> & ->) | [[-> ->] |
          [(delta & r & b & y1 & -> & _ & -> & _) | (-> & _)]]].
    + right; left. exists c, w, r, u, now. split; [done |].
      intros f Hf. exact Hf.
    + right; right. exists c. apply handleDisconnect_connectionManager.
    + by left.
    + by left.
  - right; right. exists c. by rewrite handleDisconnect_connectionManager.
  - left. by destruct (saveTimers (yjsManager st) !! r0).
Qed.

Lemma run_snoc evs e (st : Server) : run (evs ++ [e]) st = step (run evs st) e.
Proof. unfold run. by rewrite foldl_app. Qed.

Lemma run_reachable evs :
  reachable (connectionManager (run evs Server_new)).
Proof.
  induction evs as [| e evs IH] using rev_ind; [constructor |].
  rewrite run_snoc.
  destruct (step_registry (run evs Server_new) e)
    as [-> | [(c & w & r & u & now & -> & _) | [c ->]]].
  - done.
  - by apply (reachable_call _ (CallAdd c w r u now)).
  - by apply (reachable_call _ (CallRemove c)).
Qed.

Lemma run_sockets_paired f evs c k :
  Forall (paired f) evs →
  connections (connectionManager (run evs Server_new)) !! c = Some k →
  ws k = f c.
Proof.
  revert c k. induction evs as [| e evs IH] using rev_ind; intros c k Hp.
  { unfold run; simpl. by rewrite lookup_empty. }
  apply Forall_app in Hp as [Hp [He _]%Forall_cons]. rewrite run_snoc.
  destruct (step_registry (run evs Server_new) e)
    as [-> | [(c' & w & r & u & now & -> & Hw) | [c' ->]]].
  - by apply IH.
  - rewrite addConnection_connections. case_decide as Hc.
    + subst c'. intros [= <-]. simpl. by apply Hw.
    + by apply IH.
  - rewrite removeConnection_connections. case_decide; [done |]. by apply IH.
Qed.

(** X24.  In every state the server reaches from its start, the room of
    every registered client has a document in the cache. *)
Lemma run_registered_room_has_document evs c k :
  connections (connectionManager (run evs Server_new)) !! c = Some k →
  is_Some (documents (yjsManager (run evs Server_new)) !! roomId k).
Proof.
  revert c k. induction evs as [| e evs IH] using rev_ind; intros c k.
  { unfold run; simpl. by rewrite lookup_empty. }
  rewrite run_snoc. set (st := run evs Server_new) in *.
  destruct e as [w | c' w data now | c' w now | r0 now].
  - apply IH.
  - destruct (handleMessage_cases st c' w data now)
      as [(r & u & t & -> & Hst) | [[-> Hst] |
          [(delta & r & b & y1 & -> & _ & Hcm & _) | (Hcm & _)]]].
    + cbn [step]. rewrite Hst.
      rewrite handleConnect_connectionManager, addConnection_connections.
      rewrite handleConnect_documents. case_decide as Hc.
      * intros [= <-]. simpl. rewrite decide_True by done. by eexists.
      * intros Ek. case_decide; [by eexists |]. by apply (IH c).
    + intros Ek. apply step_keeps_document. revert Ek.
      cbn [step]. rewrite Hst.
      rewrite handleDisconnect_connectionManager, removeConnection_connections.
      case_decide; [done | apply IH].
    + intros Ek. apply step_keeps_document. revert Ek.
      cbn [step]. rewrite Hcm. apply IH.
    + intros Ek. apply step_keeps_document. revert Ek.
      cbn [step]. rewrite Hcm. apply IH.
  - intros Ek. apply step_keeps_document. revert Ek. cbn [step].
    rewrite handleDisconnect_connectionManager, removeConnection_connections.
    case_decide; [done | apply IH].
  - intros Ek. apply step_keeps_document. revert Ek. cbn [step].
    destruct (saveTimers (yjsManager st) !! r0); apply IH.
Qed.

(** X23.  In every state the server reaches from its start, by events
    that come with the socket of their session, the conditions on buckets
    and sockets the theorems above assume are met: no bucket lists a
    clientId twice, distinct members of a room have distinct sockets, and
    the socket of a session is the socket of no other member. *)
Lemma run_buckets_and_sockets f evs :
  Inj (=) (=) f → Forall (paired f) evs →
  let cm := connectionManager (run evs Server_new) in
  (∀ r, NoDup (bucket cm r)) ∧
  (∀ r, sockets_distinct cm r) ∧
  (∀ r c, socket_private cm r c (f c)).
Proof.
  intros Hinj Hp cm. split_and!.
  - intros r. unfold bucket.
    destruct (roomClients cm !! r) as [l |] eqn:E; simpl; [| constructor].
    by apply (reachable_buckets_NoDup cm (run_reachable evs) r).
  - intros r c1 c2 k1 k2 _ _ Hne E1 E2.
    rewrite (run_sockets_paired f evs c1 k1), (run_sockets_paired f evs c2 k2)
      by done.
    intros Heq. by apply Hne, Hinj.
  - intros r c other k _ Hne E.
    rewrite (run_sockets_paired f evs other k) by done.
    intros Heq. by apply Hne, Hinj.
Qed.

End server.

(** * Examples: the theorems at the sample data, and the inputs on which
    the behaviour differs from the specification *)

Section examples.

#[local] Existing Instance ItemsYjs.
#[local] Existing Instance RFC4648.

Ltac by_computation := apply (bool_decide_unpack _); vm_compute; exact I.

(** Scenario S1: [base64_decode "AAEC"] is the three bytes 0, 1, 2,
    which are not an update: the item 2 is not followed by the closing
    byte.  With the closing byte the delta is "AAECAA==".  The state of
    the empty document is "AAA=". *)
Example base64_AAEC :
  base64_decode "AAEC" = [x00; x01; x02] ∧
  base64_encode [x00; x01; x02] = "AAEC" ∧
  Y_decodes (base64_decode "AAEC") = false ∧
  base64_decode "AAECAA==" = [x00; x01; x02; x00] ∧
  Y_decodes (base64_decode "AAECAA==") = true ∧
  base64_encode (Y_encodeStateAsUpdate Y_Doc_new) = "AAA=".
Proof. split_and!; reflexivity. Qed.

(** The sample library reads back the states it encodes. *)
Example items_encode_decodes d : update_decode (items_encode d) = Some d.
Proof.
  unfold items_encode, update_decode.
  induction d as [| v d IH]; [done |].
  change (items_decode (x01 :: v :: (d ≫= λ v, [x01; v]) ++ [x00])
          = Some (v :: d)).
  cbn [items_decode]. by rewrite IH.
Qed.



(** An update is dropped in the room whose id is the empty string: B is
    registered there with an open socket, A is another member with an
    open socket, and the update of B, whose bytes are an update, is
    neither applied nor sent to A. *)
Example update_in_unnamed_room_dropped :
  let st := unnamed_room_AB in
  let st' := handleMessage "cB" 2 (Message (UpdateMessage "AAECAA==")) 300 st in
  getRoomId "cB" (connectionManager st) = Some EmptyString ∧
  bucket (connectionManager st) EmptyString = ["cA"; "cB"] ∧
  ws_is_open 1 (net st) = true ∧ ws_is_open 2 (net st) = true ∧
  st' = st ∧
  documents (yjsManager st') !! EmptyString = Some [] ∧
  UpdateBroadcast "AAECAA==" "cB" ∉ outbox 1 (net st').
Proof. split_and!; try reflexivity. by_computation. Qed.

(** C2: B joins room R1 on a server started anew, whose store holds the
    final snapshot of R1 and whose cache is empty: the document is seeded
    from the snapshot.  And B joins room R1 while A is in it: the cached
    document is used and A is sent the join. *)
Lemma handleConnect_handshake_S1 :
  let st1 := handleConnect "cB" 2 "R1" userB 900 restarted in
  let st2 := handleConnect "cB" 2 "R1" userB 200 room_drawn in
  (snapshotData <$> roomSnapshot (prisma restarted) = [[x00; x01; x02; x00]] ∧
   documents (yjsManager restarted) !! "R1" = None ∧
   documents (yjsManager st1) !! "R1" = Some [x02] ∧
   saveTimers (yjsManager st1) !! "R1" = Some (mkTimer "R1" 30000) ∧
   outbox 2 (net st1)
     = [SyncResponse "AAECAA==" [mkParticipant "u2" "cB" userB editor 900]] ∧
   roomSnapshot (prisma st1) = roomSnapshot (prisma restarted)) ∧
  (room_lastActive <$> room (prisma st2) !! "R1" = Some 200%Z ∧
   outbox 2 (net st2)
     = [SyncResponse "AAECAA=="
          [mkParticipant "u1" "cA" userA editor 100;
           mkParticipant "u2" "cB" userB editor 200]] ∧
   outbox 1 (net st2) = outbox 1 (net room_drawn) ++ [JoinBroadcast userB "cB" "R1"] ∧
   roomParticipant (prisma st2)
     = [joined_row "cA" "R1" userA 100; joined_row "cB" "R1" userB 200]).
Proof.
  split.
  - destruct (handleConnect_handshake restarted "cB" 2 "R1" userB 900)
      as (_ & _ & _ & Hsnap & (Hdoc & _ & Hseed & _) & [Hsync _] & _).
    + reflexivity.
    + reflexivity.
    + apply socket_private_check. by_computation.
    + by_computation.
    + apply sockets_distinct_check; by_computation.
    + split_and!.
      * reflexivity.
      * reflexivity.
      * exact Hdoc.
      * apply Hseed. reflexivity.
      * exact Hsync.
      * exact Hsnap.
  - destruct (handleConnect_handshake room_drawn "cB" 2 "R1" userB 200)
      as ([Hroom _] & _ & Hrows & _ & _ & [Hsync _] & Hjoin & _).
    + reflexivity.
    + reflexivity.
    + apply socket_private_check. by_computation.
    + by_computation.
    + apply sockets_distinct_check; by_computation.
    + split_and!.
      * rewrite Hroom. reflexivity.
      * exact Hsync.
      * apply (Hjoin "cA" entryA).
        -- apply in_bucket_bucket. by_computation.
        -- discriminate.
        -- reflexivity.
        -- reflexivity.
      * exact Hrows.
Defined.

(** C3: the registry of [room_with_AB]. *)
Lemma registry_invariants_S1 :
  indexes_agree (connectionManager room_with_AB) ∧
  one_room_per_client (connectionManager room_with_AB) ∧
  no_empty_bucket (connectionManager room_with_AB).
Proof.
  assert (Hfresh : reachable_fresh (connectionManager room_with_AB)).
  { apply (reachable_fresh_call _ (CallAdd "cB" 2 "R1" userB 200)).
    - apply (reachable_fresh_call _ (CallAdd "cA" 1 "R1" userA 100)).
      + apply reachable_fresh_new.
      + reflexivity.
    - reflexivity. }
  destruct (registry_invariants (connectionManager room_with_AB))
    as (_ & Hempty & Hagree & _).
  - apply (reachable_call _ (CallAdd "cB" 2 "R1" userB 200)).
    apply (reachable_call _ (CallAdd "cA" 1 "R1" userA 100)).
    apply reachable_new.
  - destruct (Hagree Hfresh) as [? ?]. by split_and!.
Defined.

(** C3 fails when a registered clientId is attached again: the attach
    succeeds, cA stays in the bucket of R1 while its primary entry names
    R2, and cA is in two buckets. *)
Lemma reattach_breaks_indexes :
  reachable reattached ∧
  registered_in reattached "cA" "R2" ∧
  in_bucket reattached "cA" "R1" ∧ in_bucket reattached "cA" "R2" ∧
  ¬ registered_in reattached "cA" "R1" ∧
  ¬ indexes_agree reattached ∧
  ¬ one_room_per_client reattached.
Proof.
  assert (H1 : in_bucket reattached "cA" "R1")
    by (apply in_bucket_bucket; by_computation).
  assert (H2 : in_bucket reattached "cA" "R2")
    by (apply in_bucket_bucket; by_computation).
  assert (Hn : ¬ registered_in reattached "cA" "R1").
  { intros (k & Ek & Hk). vm_compute in Ek. injection Ek as <-. discriminate. }
  split_and!; try done.
  - repeat constructor.
  - eexists. split; reflexivity.
  - intros Hagree. by apply Hn, Hagree.
  - intros Hone. specialize (Hone "cA" "R1" "R2" H1 H2). discriminate.
Qed.

(** C4: a save on a table with eleven snapshots of R1. *)
Lemma saveSnapshot_version_and_retention_eleven :
  let rows' :=
    roomSnapshot (saveSnapshot "R1" None 500 (yjsManager room_with_A)
                    eleven_snapshots) in
  (∀ s, s ∈ snapshots_of "R1" eleven_rows → (version s < 12)%Z) ∧
  length (snapshots_of "R1" rows') ≤ 10 ∧
  version <$> rows' = [3; 4; 5; 6; 7; 8; 9; 10; 11; 12]%Z.
Proof.
  destruct (saveSnapshot_version_and_retention "R1" None 500
              (yjsManager room_with_A) eleven_snapshots [])
    as (Hv & _ & _ & Hlen & _).
  - reflexivity.
  - by_computation.
  - split_and!; [exact Hv | exact Hlen | reflexivity].
Defined.

(** C5: A, the only member of R1, disconnects. *)
Lemma last_disconnect_S1 :
  let st' := handleDisconnect "cA" 500 room_with_A in
  version <$> roomSnapshot (prisma st') = [1%Z] ∧
  yjsManager st' = yjsManager room_with_A ∧
  ∀ evs, is_Some (documents (yjsManager (run evs st')) !! "R1").
Proof.
  destruct (last_disconnect_saves_and_keeps_document room_with_A "cA" 500
              entryA [])
    as (Hrows & _ & Hy & Hkeep).
  - reflexivity.
  - reflexivity.
  - reflexivity.
  - by_computation.
  - split_and!.
    + exact (f_equal (fmap version) Hrows).
    + exact Hy.
    + intros evs. apply (Hkeep evs).
Defined.

(** C5 fails: after the last member of R1 has disconnected the room has
    no attached session, its document and its save timer are in the
    cache, and no later event removes the document; the delayed
    [destroyDocument] is commented out in the handler. *)
Lemma document_outlives_empty_room :
  let st := handleDisconnect "cA" 500 room_with_A in
  getRoomClientCount "R1" (connectionManager st) = 0 ∧
  documents (yjsManager st) !! "R1" = Some [] ∧
  saveTimers (yjsManager st) !! "R1" = Some (mkTimer "R1" 30000) ∧
  ∀ evs, documents (yjsManager (run evs st)) !! "R1" ≠ None.
Proof.
  split_and!; try reflexivity.
  intros evs Hnone.
  assert (is_Some (documents
            (yjsManager (run evs (handleDisconnect "cA" 500 room_with_A)))
            !! "R1")) as [d Hd].
  { apply run_keeps_document. by eexists. }
  congruence.
Qed.

(** C6: B, already in R1, sends a second connect. *)
Lemma second_connect_S1 :
  let st' := handleConnect "cB" 2 "R1" userB 300 room_with_AB in
  (∀ code text, ErrorMessage code text ∉ outbox 2 (net st')) ∧
  connections (connectionManager st') !! "cB"
    = Some (mkClientConnection 2 "R1" userB 300) ∧
  length (roomParticipant (prisma st')) = 3.
Proof.
  destruct (second_connect_repeats_handshake room_with_AB "cB" 2 "R1" userB
              300 entryB)
    as (Herr & Hc & _ & Hrows & _).
  - reflexivity.
  - split_and!.
    + intros code text Hin. apply Herr in Hin. vm_compute in Hin.
      apply list_elem_of_singleton in Hin. discriminate.
    + exact Hc.
    + exact (f_equal length Hrows).
Defined.

(** C6 fails: the second connect of B is answered with a second
    sync-response and no error frame, a second participant row of cB is
    inserted, the registry entry of cB is replaced, and A is sent a
    second join. *)
Lemma second_connect_accepted :
  let st := room_with_AB in
  let st' := handleMessage "cB" 2
               (Message (ConnectMessage "R1" userB None)) 300 st in
  outbox 2 (net st')
    = outbox 2 (net st)
      ++ [SyncResponse "AAA="
            [mkParticipant "u1" "cA" userA editor 100;
             mkParticipant "u2" "cB" userB editor 300]] ∧
  (∀ code text, ErrorMessage code text ∉ outbox 2 (net st')) ∧
  (connections (connectionManager st') !! "cB")
    ≠ (connections (connectionManager st) !! "cB") ∧
  roomParticipant (prisma st')
    = roomParticipant (prisma st) ++ [joined_row "cB" "R1" userB 300] ∧
  outbox 1 (net st') = outbox 1 (net st) ++ [JoinBroadcast userB "cB" "R1"].
Proof.
  split_and!; try reflexivity.
  - intros code text Hin. vm_compute in Hin.
    repeat (apply elem_of_cons in Hin as [Hin | Hin]; [discriminate |]).
    by apply not_elem_of_nil in Hin.
  - vm_compute. intros [=].
Qed.

(** C7: an update and a presence frame of a session that has not
    connected. *)
Lemma frames_before_connect_S1 :
  handleMessage "cA" 1 (Message (UpdateMessage "AAEC")) 100 two_sockets
    = two_sockets ∧
  handleMessage "cA" 1
    (Message (PresenceMessage "cA" (Some (mkCursor 10 20)) None None)) 100
    two_sockets = two_sockets.
Proof.
  destruct (frames_before_connect_dropped two_sockets "cA" 1 100 "AAEC" "cA"
              (Some (mkCursor 10 20)) None None)
    as (_ & _ & Hu & Hp).
  - reflexivity.
  - by split.
Defined.

(** C7 fails: the socket of the session is open, and the update and the
    presence frame it sends before any connect leave its outbox empty;
    no error frame NOT_CONNECTED is sent. *)
Lemma no_error_before_connect :
  let st1 := handleMessage "cA" 1 (Message (UpdateMessage "AAEC")) 100
               two_sockets in
  let st2 := handleMessage "cA" 1
               (Message (PresenceMessage "cA" (Some (mkCursor 10 20)) None None))
               100 two_sockets in
  getRoomId "cA" (connectionManager two_sockets) = None ∧
  ws_is_open 1 (net two_sockets) = true ∧
  outbox 1 (net st1) = [] ∧ outbox 1 (net st2) = [].
Proof. split_and!; reflexivity. Qed.

(** C8: a frame of A, registered in R1, whose [type] is the object
    {"toString": 1}; and frames of A whose types are the string "bogus",
    the number 7, and missing. *)
Lemma unhandled_frames_S1 :
  let unprintable := Message (UnknownMessage (Some (JObject [("toString", JNumber 1)]))) in
  let st' := handleMessage "cA" 1 unprintable 300 room_with_A in
  outbox 1 (net st') = outbox 1 (net room_with_A) ++ [invalid_message] ∧
  connectionManager st' = connectionManager room_with_A ∧
  (readyState <$> net st' !! 1) = Some OPEN ∧
  handleMessage "cA" 1 (Message (UnknownMessage (Some (JString "bogus")))) 300
    room_with_A = room_with_A ∧
  handleMessage "cA" 1 (Message (UnknownMessage (Some (JNumber 7)))) 300
    room_with_A = room_with_A ∧
  handleMessage "cA" 1 (Message (UnknownMessage None)) 300 room_with_A
    = room_with_A.
Proof.
  destruct (unhandled_frames room_with_A "cA" 1 300
              (Message (UnknownMessage (Some (JObject [("toString", JNumber 1)])))))
    as (_ & Hstring & Hprimitive & Hcm & _ & _ & Hrs & Hsent & _).
  - right; right. eexists. split; reflexivity.
  - split_and!.
    + apply (Hsent entryA); reflexivity.
    + exact Hcm.
    + rewrite Hrs. reflexivity.
    + apply Hstring. by_computation.
    + by apply (Hprimitive (Some (JNumber 7))).
    + by apply (Hprimitive None).
Defined.

(** C8 fails twice: a frame with an unknown type from A, registered with
    an open socket, is answered with nothing; and a frame that fails to
    parse from a session that has not connected is answered with nothing
    either, because [sendToClient] finds no connection for it. *)
Lemma unknown_type_no_error :
  let st1 := handleMessage "cA" 1
               (Message (UnknownMessage (Some (JString "bogus")))) 300
               room_with_A in
  let st2 := handleMessage "cA" 1 SyntaxError 100 two_sockets in
  ws_is_open 1 (net room_with_A) = true ∧
  outbox 1 (net st1) = outbox 1 (net room_with_A) ∧
  (invalid_message ∉ outbox 1 (net st1)) ∧
  ws_is_open 1 (net two_sockets) = true ∧
  outbox 1 (net st2) = [].
Proof. split_and!; try reflexivity. by_computation. Qed.

(** C9: A disconnects twice. *)
Example disconnect_twice_S1 :
  handleDisconnect "cA" 600 (handleDisconnect "cA" 500 room_with_AB)
    = handleDisconnect "cA" 500 room_with_AB ∧
  rp_leftAt <$> roomParticipant (prisma (handleDisconnect "cA" 500 room_with_AB))
    = [Some 500%Z; None].
Proof. split; reflexivity. Qed.

(** C10: the disconnect of a clientId that never connected. *)
Lemma handleDisconnect_unregistered_S1 :
  handleDisconnect "cZ" 500 room_with_AB = room_with_AB.
Proof.
  apply (handleDisconnect_unregistered_noop "cZ" 500 room_with_AB).
  reflexivity.
Defined.

End examples.

(** * More of the code *)

(** ** Sending: [sendToClient] and [broadcastToRoom] *)

Section sending.

Implicit Types (cm : ConnectionManager) (net : gmap nat Socket)
  (w : WebSocket) (msg : ServerMessage) (excl : option string).

(** X1.  [sendToClient] never changes a ready state.  When the client
    is registered and its socket is open, the socket is sent the message
    exactly once and every other socket is left alone; when the client is
    not registered, or its socket is not open, nothing is sent at all. *)
Theorem sendToClient_exactly_one c msg cm net :
  (∀ w, readyState <$> sendToClient c msg cm net !! w = readyState <$> net !! w) ∧
  (∀ k, connections cm !! c = Some k → ws_is_open (ws k) net = true →
        outbox (ws k) (sendToClient c msg cm net) = outbox (ws k) net ++ [msg] ∧
        ∀ w, w ≠ ws k → sendToClient c msg cm net !! w = net !! w) ∧
  ((∀ k, connections cm !! c = Some k → ws_is_open (ws k) net = false) →
   sendToClient c msg cm net = net).
Proof.
  split_and!.
  - intros w. apply sendToClient_readyState.
  - intros k Ek Hopen. split; [by apply sendToClient_delivered |].
    intros w Hw. apply sendToClient_other. intros k' Ek'.
    assert (k' = k) as -> by congruence. done.
  - apply sendToClient_dropped.
Qed.

Lemma broadcast_step_not_open cm msg excl net c w :
  ws_is_open w net = false → broadcast_step cm msg excl net c !! w = net !! w.
Proof.
  intros Hclosed. unfold broadcast_step. case_decide; [done |].
  destruct (connections cm !! c) as [k |]; [| done].
  destruct (ws_is_open (ws k) net) eqn:Hopen; [| done].
  rewrite ws_send_lookup, decide_False; [done | congruence].
Qed.

Lemma broadcast_fold_not_open cm msg excl l net w :
  ws_is_open w net = false →
  foldl (broadcast_step cm msg excl) net l !! w = net !! w.
Proof.
  revert net. induction l as [| c l IH]; intros net Hclosed; simpl; [done |].
  pose proof (broadcast_step_not_open cm msg excl net c w Hclosed) as Hsame.
  rewrite IH; [done |].
  rewrite <- Hclosed. apply ws_is_open_readyState. by rewrite Hsame.
Qed.

(** X2.  [broadcastToRoom] never changes a ready state and never sends
    on a socket that is not open; what it adds to an outbox is copies of
    the message, at the end; a room without a bucket gets nothing. *)
Theorem broadcastToRoom_only_open_sockets r msg excl cm net :
  (∀ w, readyState <$> broadcastToRoom r msg excl cm net !! w
        = readyState <$> net !! w) ∧
  (∀ w, ws_is_open w net = false →
        broadcastToRoom r msg excl cm net !! w = net !! w) ∧
  (∀ w, ∃ n, outbox w (broadcastToRoom r msg excl cm net)
             = outbox w net ++ replicate n msg) ∧
  (bucket cm r = [] → broadcastToRoom r msg excl cm net = net).
Proof.
  split_and!.
  - intros w. apply broadcastToRoom_readyState.
  - intros w Hclosed. unfold broadcastToRoom.
    destruct (roomClients cm !! r); [| done].
    by apply broadcast_fold_not_open.
  - intros w. apply broadcastToRoom_appends.
  - unfold bucket, broadcastToRoom.
    destruct (roomClients cm !! r) as [l |]; simpl; [| done]. by intros ->.
Qed.

Lemma sockets_grow_refl net : sockets_grow net net.
Proof. intros w. done. Qed.

Lemma sockets_grow_trans net1 net2 net3 :
  sockets_grow net1 net2 → sockets_grow net2 net3 → sockets_grow net1 net3.
Proof.
  intros H12 H23 w. destruct (H12 w) as [Hr1 Hp1], (H23 w) as [Hr2 Hp2].
  split; [congruence | by etrans].
Qed.

Lemma sendToClient_grows c msg cm net :
  sockets_grow net (sendToClient c msg cm net).
Proof.
  intros w. split; [apply sendToClient_readyState |].
  destruct (sendToClient_appends c msg cm net w) as [n ->].
  by apply prefix_app_r.
Qed.

Lemma broadcastToRoom_grows r msg excl cm net :
  sockets_grow net (broadcastToRoom r msg excl cm net).
Proof.
  intros w. split; [apply broadcastToRoom_readyState |].
  destruct (broadcastToRoom_appends r msg excl cm net w) as [n ->].
  by apply prefix_app_r.
Qed.

End sending.

(** ** The handlers of presence, chat and heartbeat frames *)

Section relays.

Context `{Yjs, Base64}.

Implicit Types (st : Server) (cm : ConnectionManager).

Lemma handleConnect_grows st c w r u now :
  sockets_grow (net st) (net (handleConnect c w r u now st)).
Proof.
  rewrite handleConnect_net.
  eapply sockets_grow_trans; [apply sendToClient_grows |].
  apply broadcastToRoom_grows.
Qed.

Lemma handleDisconnect_grows st c now :
  sockets_grow (net st) (net (handleDisconnect c now st)).
Proof.
  unfold handleDisconnect.
  destruct (removeConnection c (connectionManager st)) as [[[r u] |] cm1];
    simpl; [apply broadcastToRoom_grows | apply sockets_grow_refl].
Qed.

(** X3.  No handler closes a socket, takes a frame back or reorders
    what it has sent: whatever the inbound frame, and also on a
    disconnect, every socket keeps its ready state and every outbox
    keeps its frames, new frames coming after them. *)
Theorem handlers_only_append st c w data now :
  sockets_grow (net st) (net (handleMessage c w data now st)) ∧
  sockets_grow (net st) (net (handleDisconnect c now st)).
Proof.
  split; [| apply handleDisconnect_grows].
  destruct data as [| | [r u t | delta | pid cursor sel vp | | t | un msg ts | type]].
  - apply sendToClient_grows.
  - apply sendToClient_grows.
  - apply handleConnect_grows.
  - destruct (handleMessage_update st c w delta now)
      as [(_ & _ & ->) | [(r & b & y1 & _ & _ & _ & ->) | (r & _ & _ & _ & ->)]].
    + apply sockets_grow_refl.
    + apply broadcastToRoom_grows.
    + apply sendToClient_grows.
  - cbn [handleMessage]. unfold handlePresence. destruct (truthy_room _); simpl;
      [apply broadcastToRoom_grows | apply sockets_grow_refl].
  - apply handleDisconnect_grows.
  - apply sendToClient_grows.
  - cbn [handleMessage]. unfold handleChat. destruct (truthy_room _); simpl;
      [apply broadcastToRoom_grows | apply sockets_grow_refl].
  - cbn [handleMessage]. destruct (type_is_logged _);
      [apply sockets_grow_refl | apply sendToClient_grows].
Qed.

(** X4.  A chat frame of a client registered in a room whose id is not
    the empty string is sent, under the clientId of the session, to
    every member of the room whose socket is open, the sender included
    when it is in the bucket; no other socket is sent anything and the
    registry, the documents and the store are unchanged. *)
Theorem handleChat_reaches_sender st c k userName message timestamp :
  connections (connectionManager st) !! c = Some k →
  roomId k ≠ EmptyString →
  NoDup (bucket (connectionManager st) (roomId k)) →
  sockets_distinct (connectionManager st) (roomId k) →
  let st' := handleChat c userName message timestamp st in
  (∀ A kA, in_bucket (connectionManager st) A (roomId k) →
     connections (connectionManager st) !! A = Some kA →
     ws_is_open (ws kA) (net st) = true →
     outbox (ws kA) (net st')
       = outbox (ws kA) (net st)
         ++ [ChatBroadcast userName message timestamp c]) ∧
  (∀ w', (∀ A kA, in_bucket (connectionManager st) A (roomId k) →
            connections (connectionManager st) !! A = Some kA → ws kA ≠ w') →
         net st' !! w' = net st !! w') ∧
  connectionManager st' = connectionManager st ∧
  yjsManager st' = yjsManager st ∧
  prisma st' = prisma st.
Proof.
  intros Ek Hne Hnd Hdist st'.
  assert (Hst' : st' =
    mkServer (connectionManager st) (yjsManager st) (prisma st)
      (broadcastToRoom (roomId k)
         (ChatBroadcast userName message timestamp c) None
         (connectionManager st) (net st))).
  { subst st'. unfold handleChat, getRoomId. rewrite Ek. simpl.
    by rewrite decide_False. }
  rewrite Hst'. simpl. split_and!; try done.
  - intros A kA Hin EA Hopen.
    by apply (broadcastToRoom_delivered (roomId k) _ _ _ _ A).
  - intros w' Hw'. apply broadcastToRoom_other.
    intros A kA Hin _ EA. by apply (Hw' A kA).
Qed.

(** X5.  A presence frame of a client registered in a room whose id is
    not the empty string is relayed to the other open members of the
    room under the clientId of the session, whatever clientId the frame
    itself names, with its cursor, selection and viewport; the sender is
    sent nothing, and the registry, the documents and the store are
    unchanged. *)
Theorem presence_relayed_under_session_id st c w now k pid cursor selection
    viewport :
  connections (connectionManager st) !! c = Some k →
  in_bucket (connectionManager st) c (roomId k) →
  roomId k ≠ EmptyString →
  NoDup (bucket (connectionManager st) (roomId k)) →
  sockets_distinct (connectionManager st) (roomId k) →
  let st' := handleMessage c w
               (Message (PresenceMessage pid cursor selection viewport))
               now st in
  (∀ A kA, in_bucket (connectionManager st) A (roomId k) → A ≠ c →
     connections (connectionManager st) !! A = Some kA →
     ws_is_open (ws kA) (net st) = true →
     outbox (ws kA) (net st')
       = outbox (ws kA) (net st)
         ++ [PresenceBroadcast c cursor selection viewport]) ∧
  net st' !! ws k = net st !! ws k ∧
  connectionManager st' = connectionManager st ∧
  yjsManager st' = yjsManager st ∧
  prisma st' = prisma st.
Proof.
  intros Ek Hinc Hne Hnd Hdist st'.
  assert (Hst' : st' =
    mkServer (connectionManager st) (yjsManager st) (prisma st)
      (broadcastToRoom (roomId k)
         (PresenceBroadcast c cursor selection viewport) (Some c)
         (connectionManager st) (net st))).
  { subst st'. cbn [handleMessage]. unfold handlePresence, getRoomId.
    rewrite Ek. simpl. by rewrite decide_False. }
  rewrite Hst'. simpl. split_and!; try done.
  - intros A kA Hin HAc EA Hopen.
    apply (broadcastToRoom_delivered (roomId k) _ _ _ _ A); try done.
    congruence.
  - apply broadcastToRoom_other. intros A kA Hin Hex EA.
    apply (Hdist A c kA k); try done. congruence.
Qed.

(** X6.  A heartbeat frame is answered to the sender alone, with the
    time of the server and not the timestamp of the frame: a registered
    sender with an open socket is sent one heartbeat frame, no other
    socket is sent anything, and a sender that is not registered gets no
    answer.  The registry, the documents and the store are unchanged. *)
Theorem heartbeat_echo st c w now timestamp :
  let st' := handleMessage c w (Message (HeartbeatMessage timestamp)) now st in
  connectionManager st' = connectionManager st ∧
  yjsManager st' = yjsManager st ∧
  prisma st' = prisma st ∧
  (∀ k, connections (connectionManager st) !! c = Some k →
        ws_is_open (ws k) (net st) = true →
        outbox (ws k) (net st') = outbox (ws k) (net st) ++ [HeartbeatEcho now] ∧
        ∀ w', w' ≠ ws k → net st' !! w' = net st !! w') ∧
  (connections (connectionManager st) !! c = None → st' = st).
Proof.
  intros st'. subst st'. cbn [handleMessage]. simpl. split_and!; try done.
  - intros k Ek Hopen. split; [by apply sendToClient_delivered |].
    intros w' Hw'. apply sendToClient_other. intros k' Ek'.
    assert (k' = k) as -> by congruence. done.
  - intros Enone. rewrite sendToClient_dropped; [by destruct st |].
    intros k Ek. congruence.
Qed.

End relays.

(** ** Disconnect with members left, and the participant table *)

Section departures.

Context `{Yjs, Base64}.

Implicit Types (st : Server) (cm : ConnectionManager).

Lemma getRoomClientCount_bucket r cm :
  getRoomClientCount r cm = length (bucket cm r).
Proof.
  unfold getRoomClientCount, bucket. by destruct (roomClients cm !! r).
Qed.

Lemma bucket_removeConnection c cm k :
  connections cm !! c = Some k →
  bucket (removeConnection c cm).2 (roomId k)
    = Set_delete c (bucket cm (roomId k)).
Proof.
  intros Ek. unfold bucket.
  rewrite (removeConnection_roomClients c cm k (roomId k) Ek).
  rewrite decide_True by done.
  destruct (roomClients cm !! roomId k) as [s |]; simpl; [| done].
  by case_decide as Hd; simpl; [rewrite Hd |].
Qed.

Lemma saveSnapshot_keeps_tables r doc now y db :
  room (saveSnapshot r doc now y db) = room db ∧
  roomParticipant (saveSnapshot r doc now y db) = roomParticipant db.
Proof. unfold saveSnapshot. by destruct (document_to_save r doc y). Qed.

Lemma handleDisconnect_registered st c now k :
  connections (connectionManager st) !! c = Some k →
  let cm1 := (removeConnection c (connectionManager st)).2 in
  let db1 := mkPrismaClient (room (prisma st))
               (roomParticipant_updateMany_leftAt c now
                  (roomParticipant (prisma st)))
               (roomSnapshot (prisma st)) in
  handleDisconnect c now st =
    mkServer cm1 (yjsManager st)
      (if isRoomEmpty (roomId k) cm1
       then saveSnapshot (roomId k) None now (yjsManager st) db1
       else db1)
      (broadcastToRoom (roomId k) (LeaveBroadcast c (user_id (user k))) None
         cm1 (net st)).
Proof.
  intros Ek cm1 db1. subst cm1. unfold handleDisconnect.
  pose proof (removeConnection_result c _ k Ek) as Hres.
  destruct (removeConnection c (connectionManager st)) as [res cm1].
  simpl in *. by subst res.
Qed.

Lemma has_open_row_joined c' c r u now rows :
  has_open_row c' (rows ++ [joined_row c r u now]) ↔
  has_open_row c' rows ∨ c' = c.
Proof.
  unfold has_open_row. split.
  - intros (p & [Hp | ->%list_elem_of_singleton]%elem_of_app & Hc & Hl).
    + left. eauto.
    + right. by rewrite <- Hc.
  - intros [(p & Hp & Hc & Hl) | ->].
    + exists p. split; [apply elem_of_app; by left | done].
    + exists (joined_row c r u now).
      split; [apply elem_of_app; right; by left | done].
Qed.

Lemma has_open_row_closed c' c now rows :
  has_open_row c' (roomParticipant_updateMany_leftAt c now rows) ↔
  c' ≠ c ∧ has_open_row c' rows.
Proof.
  unfold has_open_row, roomParticipant_updateMany_leftAt. split.
  - intros (p & (q & -> & Hq)%list_elem_of_fmap & Hc & Hl).
    unfold close_row in Hc, Hl. case_decide as Hd; simpl in *; [done |].
    split; [| eauto]. intros ->. apply Hd. by split.
  - intros [Hne (p & Hp & Hc & Hl)]. exists p. split_and!; try done.
    apply list_elem_of_fmap. exists p. split; [| done].
    unfold close_row. rewrite decide_False; [done |].
    intros [? _]. congruence.
Qed.

(** X7.  When a registered client disconnects, its primary entry and its
    place in the bucket of its room are removed, the open participant
    rows of its clientId are closed with the time of the disconnect and
    no other row changes, every remaining member of the room with an open
    socket is sent one leave frame naming the clientId and the user id,
    and the socket of the client itself is sent nothing.  While another
    member is left in the bucket no snapshot is saved. *)
Theorem handleDisconnect_leave_fanout st c now k :
  connections (connectionManager st) !! c = Some k →
  in_bucket (connectionManager st) c (roomId k) →
  NoDup (bucket (connectionManager st) (roomId k)) →
  sockets_distinct (connectionManager st) (roomId k) →
  let st' := handleDisconnect c now st in
  connections (connectionManager st') !! c = None ∧
  ¬ in_bucket (connectionManager st') c (roomId k) ∧
  ¬ has_open_row c (roomParticipant (prisma st')) ∧
  (∀ c', c' ≠ c →
     (has_open_row c' (roomParticipant (prisma st'))
      ↔ has_open_row c' (roomParticipant (prisma st))) ∧
     connections (connectionManager st') !! c'
       = connections (connectionManager st) !! c') ∧
  (∀ A kA, in_bucket (connectionManager st) A (roomId k) → A ≠ c →
     connections (connectionManager st) !! A = Some kA →
     ws_is_open (ws kA) (net st) = true →
     outbox (ws kA) (net st')
       = outbox (ws kA) (net st) ++ [LeaveBroadcast c (user_id (user k))]) ∧
  net st' !! ws k = net st !! ws k ∧
  ((∃ A, A ≠ c ∧ in_bucket (connectionManager st) A (roomId k)) →
   roomSnapshot (prisma st') = roomSnapshot (prisma st)) ∧
  yjsManager st' = yjsManager st.
Proof.
  intros Ek Hinc Hnd Hdist st'. subst st'.
  rewrite (handleDisconnect_registered st c now k Ek).
  set (cm := connectionManager st).
  set (cm1 := (removeConnection c cm).2).
  assert (Hconn : ∀ c', connections cm1 !! c'
            = if decide (c = c') then None else connections cm !! c')
    by (intros c'; apply removeConnection_connections).
  assert (Hbucket : ∀ A, in_bucket cm1 A (roomId k)
            ↔ in_bucket cm A (roomId k) ∧ A ≠ c).
  { intros A. subst cm1.
    rewrite (in_bucket_removeConnection c cm k A (roomId k) Ek).
    split; intros [? Hn]; (split; [done |]).
    - intros ->. by apply Hn.
    - by intros [? _]. }
  assert (Hrows : roomParticipant
            (if isRoomEmpty (roomId k) cm1
             then saveSnapshot (roomId k) None now (yjsManager st)
                    (mkPrismaClient (room (prisma st))
                       (roomParticipant_updateMany_leftAt c now
                          (roomParticipant (prisma st)))
                       (roomSnapshot (prisma st)))
             else mkPrismaClient (room (prisma st))
                    (roomParticipant_updateMany_leftAt c now
                       (roomParticipant (prisma st)))
                    (roomSnapshot (prisma st)))
          = roomParticipant_updateMany_leftAt c now (roomParticipant (prisma st))).
  { destruct (isRoomEmpty _ _); [| done].
    by destruct (saveSnapshot_keeps_tables (roomId k) None now (yjsManager st)
                   (mkPrismaClient (room (prisma st))
                      (roomParticipant_updateMany_leftAt c now
                         (roomParticipant (prisma st)))
                      (roomSnapshot (prisma st)))) as [_ ->]. }
  cbn [connectionManager yjsManager prisma net]. rewrite Hrows.
  split_and!.
  - rewrite Hconn. by rewrite decide_True.
  - intros [_ ?]%Hbucket. done.
  - intros [? _]%has_open_row_closed. done.
  - intros c' Hc'. split.
    + rewrite has_open_row_closed. split; [by intros [_ ?] | by split].
    + rewrite Hconn. by rewrite decide_False.
  - intros A kA Hin HAc EA Hopen.
    apply (broadcastToRoom_delivered (roomId k) _ _ cm1 _ A); try done.
    + subst cm1. rewrite (bucket_removeConnection c cm k Ek).
      by apply NoDup_Set_delete.
    + intros c1 c2 k1 k2 [Hin1 Hn1]%Hbucket [Hin2 Hn2]%Hbucket Hne.
      rewrite !Hconn, !decide_False by done. by apply Hdist.
    + by apply Hbucket.
    + rewrite Hconn. by rewrite decide_False.
  - apply broadcastToRoom_other. intros A kA [Hin HAc]%Hbucket _.
    rewrite Hconn, decide_False by done. intros EA.
    by apply (Hdist A c kA k).
  - intros (A & HAc & Hin).
    assert (isRoomEmpty (roomId k) cm1 = false) as ->; [| done].
    unfold isRoomEmpty. apply bool_decide_eq_false.
    rewrite getRoomClientCount_bucket.
    assert (A ∈ bucket cm1 (roomId k)) as HA
      by (apply in_bucket_bucket, Hbucket; by split).
    destruct (bucket cm1 (roomId k)); [by apply not_elem_of_nil in HA | done].
  - done.
Qed.

Lemma handleDisconnect_roomParticipant st c now :
  roomParticipant (prisma (handleDisconnect c now st)) =
    match connections (connectionManager st) !! c with
    | Some _ => roomParticipant_updateMany_leftAt c now
                  (roomParticipant (prisma st))
    | None => roomParticipant (prisma st)
    end.
Proof.
  destruct (connections (connectionManager st) !! c) as [k |] eqn:Ek.
  - rewrite (handleDisconnect_registered st c now k Ek).
    cbn [prisma]. destruct (isRoomEmpty _ _); [| done].
    by destruct (saveSnapshot_keeps_tables (roomId k) None now (yjsManager st)
                   (mkPrismaClient (room (prisma st))
                      (roomParticipant_updateMany_leftAt c now
                         (roomParticipant (prisma st)))
                      (roomSnapshot (prisma st)))) as [_ ->].
  - unfold handleDisconnect. by rewrite removeConnection_None.
Qed.

(** The registered clientIds have an open row, and a clientId with an
    open row is registered or is among the [stale] ones. *)
Lemma handleDisconnect_open_rows st c now (stale : string → Prop) :
  (∀ c', (is_Some (connections (connectionManager st) !! c') →
          has_open_row c' (roomParticipant (prisma st))) ∧
         (has_open_row c' (roomParticipant (prisma st)) →
          is_Some (connections (connectionManager st) !! c') ∨ stale c')) →
  ∀ c', (is_Some (connections (connectionManager (handleDisconnect c now st))
                    !! c') →
         has_open_row c' (roomParticipant (prisma (handleDisconnect c now st)))) ∧
        (has_open_row c' (roomParticipant (prisma (handleDisconnect c now st))) →
         is_Some (connections (connectionManager (handleDisconnect c now st))
                    !! c') ∨ stale c').
Proof.
  intros IH c'.
  rewrite handleDisconnect_roomParticipant, handleDisconnect_connectionManager,
    removeConnection_connections.
  destruct (IH c') as [IH1 IH2].
  destruct (connections (connectionManager st) !! c) as [k |] eqn:Ek.
  - rewrite has_open_row_closed. case_decide as Hc.
    + subst c'. split; [by intros [? ?] | by intros [? _]].
    + split; [by split; [| apply IH1] | intros [_ ?]; by apply IH2].
  - case_decide as Hc; [| done]. subst c'. split; [by intros [? ?] |].
    intros Hrow. destruct (IH2 Hrow) as [[? ?] | ?]; [congruence | by right].
Qed.

(** X8.  In every state the server reaches by the events of its sockets
    and timers, from a start on any database, every clientId with a
    primary entry in the registry has an open participant row (null
    [leftAt]), and a clientId with an open row has a primary entry or
    had an open row in the database at the start.  On a database without
    open rows, a clientId has an open row exactly when it has a primary
    entry. *)
Theorem open_rows_match_registry db evs c :
  let st := run evs (Server_start db) in
  (is_Some (connections (connectionManager st) !! c) →
   has_open_row c (roomParticipant (prisma st))) ∧
  (has_open_row c (roomParticipant (prisma st)) →
   is_Some (connections (connectionManager st) !! c) ∨
   has_open_row c (roomParticipant db)) ∧
  ((∀ c', ¬ has_open_row c' (roomParticipant db)) →
   has_open_row c (roomParticipant (prisma st)) ↔
   is_Some (connections (connectionManager st) !! c)).
Proof.
  intros st.
  assert (Hinv : ∀ c',
    (is_Some (connections (connectionManager st) !! c') →
     has_open_row c' (roomParticipant (prisma st))) ∧
    (has_open_row c' (roomParticipant (prisma st)) →
     is_Some (connections (connectionManager st) !! c') ∨
     has_open_row c' (roomParticipant db))).
  { subst st. clear c. induction evs as [| e evs IH] using rev_ind.
    { intros c. unfold run; simpl. rewrite lookup_empty. split.
      - by intros [? ?].
      - by right. }
    rewrite run_snoc. set (st := run evs (Server_start db)) in *.
    destruct e as [w | c0 w data now | c0 w now | r0 now]; cbn [step].
    - apply IH.
    - destruct (handleMessage_cases st c0 w data now)
        as [(r & u & t & _ & ->) | [[_ ->] |
            [(delta & r & b & y1 & _ & _ & -> & _ & ->) | (-> & _ & ->)]]];
        [| by apply handleDisconnect_open_rows | apply IH..].
      intros c.
      rewrite handleConnect_roomParticipant, handleConnect_connectionManager,
        addConnection_connections, has_open_row_joined.
      destruct (IH c) as [IH1 IH2]. case_decide as Hc.
      + subst c0. split; [by right | intros _; left; by eexists].
      + split; [intros ?; left; by apply IH1 | intros [? | ?]; [by apply IH2 | done]].
    - apply handleDisconnect_open_rows. intros c'. apply IH.
    - destruct (saveTimers (yjsManager st) !! r0) as [t |]; [| apply IH].
      cbn [prisma connectionManager].
      destruct (saveSnapshot_keeps_tables (timer_room t)
                  (documents (yjsManager st) !! timer_room t) now
                  (yjsManager st) (prisma st)) as [_ ->].
      apply IH. }
  destruct (Hinv c) as [H1 H2]. split_and!; [done.. |].
  intros Hfresh. split; [| done].
  intros Hrow. destruct (H2 Hrow) as [? | Hstale]; [done |].
  by destruct (Hfresh c).
Qed.

End departures.

(** ** Counting in the registry: [getRoomClientCount],
    [getRoomParticipants], [getStats] *)

Section counting.

Implicit Types (cm : ConnectionManager) (c r : string).

Lemma roomClients_addConnection c w r u t cm :
  roomClients (addConnection c w r u t cm)
    = <[r := Set_add c (bucket cm r)]> (roomClients cm).
Proof.
  apply map_eq. intros r'. rewrite addConnection_roomClients, lookup_insert.
  by case_decide.
Qed.

Lemma roomClients_removeConnection c cm k :
  connections cm !! c = Some k → in_bucket cm c (roomId k) →
  roomClients (removeConnection c cm).2
    = if decide (Set_delete c (bucket cm (roomId k)) = [])
      then delete (roomId k) (roomClients cm)
      else <[roomId k := Set_delete c (bucket cm (roomId k))]> (roomClients cm).
Proof.
  intros Ek (s & Es & Hin). apply map_eq. intros r'.
  rewrite (removeConnection_roomClients c cm k r' Ek). unfold bucket.
  rewrite Es. simpl. case_decide as Hr.
  - subst r'. rewrite Es. case_decide.
    + by rewrite lookup_delete_eq.
    + by rewrite lookup_insert_eq.
  - case_decide.
    + by rewrite lookup_delete_ne.
    + by rewrite lookup_insert_ne.
Qed.

Lemma length_Set_delete c s :
  NoDup s → c ∈ s → S (length (Set_delete c s)) = length s.
Proof.
  unfold Set_delete. induction s as [| x s IH]; intros Hnd Hin.
  { by apply not_elem_of_nil in Hin. }
  apply NoDup_cons in Hnd as [Hx Hnd].
  destruct (decide (x = c)) as [-> | Hxc].
  - rewrite filter_cons_False by (intros ?; done).
    fold (Set_delete c s). by rewrite Set_delete_absent.
  - rewrite filter_cons_True by done. simpl.
    apply elem_of_cons in Hin as [-> | Hin]; [done |]. by rewrite IH.
Qed.

Lemma reachable_fresh_bucket_NoDup cm r :
  reachable_fresh cm → NoDup (bucket cm r).
Proof.
  intros Hreach%reachable_fresh_reachable. unfold bucket.
  destruct (roomClients cm !! r) as [l |] eqn:E; simpl; [| constructor].
  by apply (reachable_buckets_NoDup cm Hreach r).
Qed.

(** X9.  In a registry built by attaches of clientIds that were not
    registered at the time, [getRoomClientCount] is the number of
    connections whose primary entry names the room, and [isRoomEmpty]
    holds exactly when no connection names it. *)
Theorem getRoomClientCount_counts_registered cm r :
  reachable_fresh cm →
  getRoomClientCount r cm = size (registered_connections r cm) ∧
  (isRoomEmpty r cm = true ↔ ∀ c, ¬ registered_in cm c r).
Proof.
  intros Hreach.
  pose proof (reachable_fresh_indexes_agree cm Hreach) as Hagree.
  unfold indexes_agree in Hagree.
  pose proof (reachable_fresh_bucket_NoDup cm r Hreach) as Hnd.
  assert (Hmem : ∀ c, c ∈ bucket cm r
            ↔ c ∈ (map_to_list (registered_connections r cm)).*1).
  { intros c. rewrite <- in_bucket_bucket, Hagree. unfold registered_in.
    rewrite list_elem_of_fmap. split.
    - intros (k & Ek & Hr). exists (c, k). split; [done |].
      apply elem_of_map_to_list. unfold registered_connections.
      by apply map_lookup_filter_Some.
    - intros ([c' k] & -> & Hin). simpl.
      apply elem_of_map_to_list in Hin. unfold registered_connections in Hin.
      apply map_lookup_filter_Some in Hin as [Ek Hr]. eauto. }
  assert (Hcount : getRoomClientCount r cm = size (registered_connections r cm)).
  { rewrite getRoomClientCount_bucket, <- length_map_to_list.
    rewrite <- (length_fmap fst (map_to_list _)).
    apply Permutation_length, NoDup_Permutation;
      [done | apply NoDup_fst_map_to_list | done]. }
  split; [done |]. unfold isRoomEmpty. rewrite bool_decide_eq_true.
  rewrite getRoomClientCount_bucket. split.
  - intros Hlen c Hreg%Hagree%in_bucket_bucket.
    destruct (bucket cm r); [by apply not_elem_of_nil in Hreg | done].
  - intros Hnone. destruct (bucket cm r) as [| c l] eqn:E; [done |].
    exfalso. apply (Hnone c), Hagree, in_bucket_bucket. rewrite E. by left.
Qed.

Lemma omap_total {A B} (f : A → option B) (g : B → A) (l : list A) :
  (∀ x, x ∈ l → ∃ y, f x = Some y ∧ g y = x) → g <$> omap f l = l.
Proof.
  induction l as [| x l IH]; intros Hall; [done |]. simpl.
  destruct (Hall x) as (y & -> & Hg); [by left |].
  rewrite fmap_cons, Hg. f_equal. apply IH. intros z Hz. apply Hall. by right.
Qed.

(** X10.  In such a registry [getRoomParticipants] lists the members of
    the room once each, in the order in which they joined: the clientIds
    of the list are the bucket, its length is [getRoomClientCount], and
    each entry carries the user and the join time of the primary entry
    of its clientId, which names the room, with the role editor. *)
Theorem getRoomParticipants_lists_bucket cm r :
  reachable_fresh cm →
  participant_clientId <$> getRoomParticipants r cm = bucket cm r ∧
  length (getRoomParticipants r cm) = getRoomClientCount r cm ∧
  ∀ p, p ∈ getRoomParticipants r cm →
    ∃ k, connections cm !! participant_clientId p = Some k ∧
         roomId k = r ∧
         p = mkParticipant (user_id (user k)) (participant_clientId p)
               (user k) editor (joinedAt k).
Proof.
  intros Hreach.
  pose proof (reachable_fresh_indexes_agree cm Hreach) as Hagree.
  unfold indexes_agree in Hagree.
  assert (Hids : participant_clientId <$> getRoomParticipants r cm = bucket cm r).
  { unfold getRoomParticipants, bucket.
    destruct (roomClients cm !! r) as [l |] eqn:E; simpl; [| done].
    apply omap_total. intros c Hin.
    assert (registered_in cm c r) as (k & Ek & _)
      by (apply Hagree; by exists l).
    rewrite Ek. eauto. }
  split_and!.
  - done.
  - rewrite getRoomClientCount_bucket, <- Hids. by rewrite length_fmap.
  - intros p Hp. unfold getRoomParticipants in Hp.
    destruct (roomClients cm !! r) as [l |] eqn:E;
      [| by apply not_elem_of_nil in Hp].
    apply list_elem_of_omap in Hp as (c & Hin & Hc).
    destruct (connections cm !! c) as [k |] eqn:Ek; [| done].
    injection Hc as <-. simpl. exists k. split_and!; [done | | done].
    assert (registered_in cm c r) as (k' & Ek' & Hr)
      by (apply Hagree; by exists l).
    congruence.
Qed.

Lemma sum_list_with_fmap {A B} (f : B → nat) (g : A → B) (l : list A) :
  sum_list_with f (g <$> l) = sum_list_with (f ∘ g) l.
Proof. induction l as [| x l IH]; [done |]. csimpl. by rewrite IH. Qed.

Lemma bucket_total_split (m : gmap string (list string)) r :
  sum_list_with (λ entry, length entry.2) (map_to_list m)
    = length (default [] (m !! r))
      + sum_list_with (λ entry, length entry.2) (map_to_list (delete r m)).
Proof.
  destruct (m !! r) as [s |] eqn:E; simpl.
  - by rewrite <- (map_to_list_delete m r s E).
  - by rewrite delete_id.
Qed.

Lemma bucket_total_insert (m : gmap string (list string)) r s :
  sum_list_with (λ entry, length entry.2) (map_to_list (<[r := s]> m))
    = length s
      + sum_list_with (λ entry, length entry.2) (map_to_list (delete r m)).
Proof.
  rewrite <- insert_delete_eq.
  by rewrite map_to_list_insert by apply lookup_delete_eq.
Qed.

Lemma getStats_total_call cm call0 :
  reachable_fresh cm → call_fresh cm call0 →
  totalConnections (getStats cm)
    = sum_list_with stat_clientCount (roomStats (getStats cm)) →
  totalConnections (getStats (call cm call0))
    = sum_list_with stat_clientCount (roomStats (getStats (call cm call0))).
Proof.
  intros Hreach Hfresh. unfold getStats; simpl.
  rewrite !sum_list_with_fmap. unfold compose; simpl. intros IH.
  pose proof (reachable_fresh_indexes_agree cm Hreach) as Hagree.
  unfold indexes_agree in Hagree.
  destruct call0 as [c w r u t | c]; cbn [call call_fresh] in *.
  - rewrite roomClients_addConnection, bucket_total_insert.
    rewrite (bucket_total_split (roomClients cm) r) in IH.
    unfold addConnection; simpl. rewrite map_size_insert_None by done.
    assert (c ∉ bucket cm r) as Hc.
    { intros (k & Ek & _)%in_bucket_bucket%Hagree. congruence. }
    fold (bucket cm r) in IH. unfold Set_add. rewrite decide_False by done.
    rewrite length_app. simpl. lia.
  - destruct (connections cm !! c) as [k |] eqn:Ek.
    + assert (in_bucket cm c (roomId k)) as Hin by (apply Hagree; by exists k).
      rewrite (roomClients_removeConnection c cm k Ek Hin).
      pose proof (length_Set_delete c (bucket cm (roomId k))
                    (reachable_fresh_bucket_NoDup cm _ Hreach)
                    (proj1 (in_bucket_bucket _ _ _) Hin)) as Hlen.
      rewrite (bucket_total_split (roomClients cm) (roomId k)) in IH.
      fold (bucket cm (roomId k)) in IH.
      assert (size (connections (removeConnection c cm).2)
              = pred (size (connections cm))) as ->.
      { unfold removeConnection. rewrite Ek. simpl.
        by apply map_size_delete_Some. }
      case_decide as Hd.
      * rewrite Hd in Hlen. simpl in Hlen. lia.
      * rewrite bucket_total_insert. lia.
    + by rewrite removeConnection_None.
Qed.

(** X11.  In such a registry the totals of [getStats] are consistent:
    [totalConnections] is the sum of the client counts of [roomStats],
    [totalRooms] is the number of its entries, and every entry has a
    client count above zero, that of [getRoomClientCount] for its room. *)
Theorem getStats_totals cm :
  reachable_fresh cm →
  totalConnections (getStats cm)
    = sum_list_with stat_clientCount (roomStats (getStats cm)) ∧
  totalRooms (getStats cm) = length (roomStats (getStats cm)) ∧
  ∀ s, s ∈ roomStats (getStats cm) →
    0 < stat_clientCount s ∧
    stat_clientCount s = getRoomClientCount (stat_roomId s) cm.
Proof.
  intros Hreach. split_and!.
  - induction Hreach as [| cm call0 Hreach IH Hfresh]; [done |].
    by apply getStats_total_call.
  - unfold getStats; simpl. by rewrite length_fmap, length_map_to_list.
  - unfold getStats; simpl.
    intros s ([r l] & -> & Hin%elem_of_map_to_list)%list_elem_of_fmap. simpl.
    split.
    + pose proof (reachable_no_empty_bucket cm
                    (reachable_fresh_reachable cm Hreach) r l Hin).
      destruct l; [done | simpl; lia].
    + unfold getRoomClientCount. by rewrite Hin.
Qed.

(** An attach followed by the detach of the same clientId, when the
    clientId was neither registered nor listed in the bucket of the
    room. *)
Lemma attach_then_detach cm c w r u t :
  connections cm !! c = None → c ∉ bucket cm r → no_empty_bucket cm →
  removeConnection c (addConnection c w r u t cm) = (Some (r, u), cm).
Proof.
  intros Hfresh Hc Hne.
  set (cm1 := addConnection c w r u t cm).
  assert (E1 : connections cm1 !! c = Some (mkClientConnection w r u t)).
  { subst cm1. by rewrite addConnection_connections, decide_True. }
  assert (Hin : in_bucket cm1 c r).
  { subst cm1. apply in_bucket_addConnection. by right. }
  assert (Hb : Set_delete c (bucket cm1 r) = bucket cm r).
  { assert (bucket cm1 r = bucket cm r ++ [c]) as ->.
    { subst cm1. unfold bucket.
      rewrite addConnection_roomClients, decide_True by done. simpl.
      unfold Set_add. by rewrite decide_False. }
    unfold Set_delete. rewrite filter_app.
    rewrite filter_cons_False by (intros ?; done).
    rewrite filter_nil, app_nil_r. by apply Set_delete_absent. }
  rewrite (surjective_pairing (removeConnection c cm1)).
  rewrite (removeConnection_result c cm1 _ E1). simpl. f_equal.
  assert (Hconn : connections (removeConnection c cm1).2 = connections cm).
  { apply map_eq. intros c'. rewrite removeConnection_connections.
    subst cm1. rewrite addConnection_connections.
    case_decide; [by subst | done]. }
  assert (Hrooms : roomClients (removeConnection c cm1).2 = roomClients cm).
  { rewrite (roomClients_removeConnection c cm1 _ E1 Hin). cbn [roomId].
    rewrite Hb. subst cm1. rewrite roomClients_addConnection.
    unfold bucket in *. destruct (roomClients cm !! r) as [s |] eqn:Es;
      cbn [default from_option].
    - rewrite decide_False by (by apply (Hne r)).
      rewrite insert_insert_eq. by apply insert_id.
    - rewrite decide_True by done. rewrite delete_insert_eq. by apply delete_id. }
  destruct (removeConnection c cm1).2 as [cs rs], cm as [cs0 rs0].
  simpl in *. by subst.
Qed.

(** X12.  In a registry built by attaches of clientIds that were not
    registered at the time, attaching a clientId that is not registered
    and then detaching it restores the registry: the detach returns the
    room and the user of the attach, and both indexes are as they were
    before. *)
Theorem attach_then_detach_restores cm c w r u t :
  reachable_fresh cm → connections cm !! c = None →
  removeConnection c (addConnection c w r u t cm) = (Some (r, u), cm).
Proof.
  intros Hreach Hfresh. apply attach_then_detach; [done | |].
  - intros Hin%in_bucket_bucket.
    apply (reachable_fresh_indexes_agree cm Hreach) in Hin as (k & Ek & _).
    congruence.
  - by apply reachable_no_empty_bucket, reachable_fresh_reachable.
Qed.

End counting.

(** ** The document cache: [getOrCreateDocument], [applyUpdate],
    [destroyDocument] *)

Section cache.

Context `{Yjs, Base64}.

Implicit Types (y : YjsDocumentManager) (db : PrismaClient) (r : string).


Lemma destroyDocument_manager r now y db :
  (destroyDocument r now y db).1 =
    match documents y !! r with
    | Some _ => mkYjsDocumentManager (delete r (documents y))
                  (delete r (saveTimers y)) (saveIntervalMs y)
    | None => y
    end.
Proof. unfold destroyDocument. by destruct (documents y !! r). Qed.

Lemma timers_match_getOrCreateDocument r db y :
  timers_match y → timers_match (getOrCreateDocument r db y).2.
Proof.
  unfold timers_match, getOrCreateDocument.
  destruct (documents y !! r); simpl; [done |].
  intros Hm. by rewrite !dom_insert_L, Hm.
Qed.

Lemma timers_match_applyUpdate r update y b y' :
  timers_match y → applyUpdate r update y = Some (b, y') → timers_match y'.
Proof.
  unfold timers_match, applyUpdate.
  destruct (documents y !! r) as [d |] eqn:E; [| by intros ? [= <- <-]].
  destruct (Y_decodes update); [| done].
  intros Hm [= <- <-]. simpl. rewrite Hm, dom_insert_L.
  assert (r ∈ dom (documents y)) as Hr by (apply elem_of_dom; by eexists).
  apply set_eq. intros x. rewrite elem_of_union, elem_of_singleton.
  split; [by right | by intros [-> | ?]].
Qed.

Lemma timers_match_destroyDocument r now y db :
  timers_match y → timers_match (destroyDocument r now y db).1.
Proof.
  rewrite destroyDocument_manager. unfold timers_match.
  destruct (documents y !! r); simpl; [| done].
  intros Hm. by rewrite !dom_delete_L, Hm.
Qed.

(** X14.  Save timers follow documents: starting from the empty manager,
    each of [getOrCreateDocument], [applyUpdate] (when it returns; the
    manager is as it was when it throws) and [destroyDocument] keeps the
    rooms with a save timer equal to the rooms with a cached document,
    and so does every event of the server. *)
Theorem timers_follow_documents :
  timers_match YjsDocumentManager_new ∧
  (∀ r db y, timers_match y → timers_match (getOrCreateDocument r db y).2) ∧
  (∀ r update y b y', timers_match y →
     applyUpdate r update y = Some (b, y') → timers_match y') ∧
  (∀ r now y db, timers_match y → timers_match (destroyDocument r now y db).1) ∧
  ∀ evs, timers_match (yjsManager (run evs Server_new)).
Proof.
  split_and!.
  - done.
  - apply timers_match_getOrCreateDocument.
  - apply timers_match_applyUpdate.
  - apply timers_match_destroyDocument.
  - induction evs as [| e evs IH] using rev_ind; [done |].
    rewrite run_snoc. set (st := run evs Server_new) in *.
    destruct e as [w | c w data now | c w now | r0 now]; cbn [step].
    + done.
    + destruct (handleMessage_cases st c w data now)
        as [(r & u & t & _ & ->) | [[_ ->] |
            [(delta & r & b & y1 & _ & Ea & _ & -> & _) | (_ & -> & _)]]].
      * by apply timers_match_getOrCreateDocument.
      * by rewrite handleDisconnect_yjsManager.
      * by apply (timers_match_applyUpdate _ _ _ _ _ IH Ea).
      * done.
    + by rewrite handleDisconnect_yjsManager.
    + by destruct (saveTimers (yjsManager st) !! r0).
Qed.

(** The document a save leaves to start from is the one it saved. *)
Lemma seeded_after_save r (d : Doc) now rows :
  snapshot_ids_unique rows →
  seeded_document r (saveSnapshot_rows r d now rows)
    = Y_applyUpdate Y_Doc_new (Y_encodeStateAsUpdate d).
Proof.
  intros Hnd.
  destruct (saveSnapshot_rows_retention r now rows d Hnd)
    as (Hv & Hnew & Hkept & _).
  set (rows' := saveSnapshot_rows r d now rows) in *.
  match type of Hnew with ?n ∈ _ => set (new := n) in * end.
  destruct (seeded_document_newest r rows') as [[E _] | (s & Hs & Hmax & ->)].
  { rewrite E in Hnew. by apply not_elem_of_nil in Hnew. }
  pose proof (Hmax new Hnew) as Hle. simpl in Hle.
  assert (Hs' : s ∈ snapshots_of r rows ++ [new]).
  { rewrite <- (merge_sort_Permutation version_desc).
    eapply subseteq_take. rewrite <- Hkept. exact Hs. }
  apply elem_of_app in Hs' as [Hold | ->%list_elem_of_singleton]; [| done].
  apply Hv in Hold. lia.
Qed.

(** X15.  [destroyDocument] on a cached document saves it, then takes
    the document and the save timer of the room out of the cache,
    leaving the other rooms alone; one room fewer is active.  The next
    [getOrCreateDocument] of the room starts from the empty document with
    the full state of the destroyed one applied. *)
Theorem destroyDocument_then_reload r now y db (d : Doc) :
  documents y !! r = Some d →
  snapshot_ids_unique (roomSnapshot db) →
  let y1 := (destroyDocument r now y db).1 in
  let db1 := (destroyDocument r now y db).2 in
  documents y1 !! r = None ∧
  saveTimers y1 !! r = None ∧
  (∀ r', r' ≠ r → documents y1 !! r' = documents y !! r' ∧
                  saveTimers y1 !! r' = saveTimers y !! r') ∧
  getActiveRoomCount y1 = pred (getActiveRoomCount y) ∧
  roomSnapshot db1 = saveSnapshot_rows r d now (roomSnapshot db) ∧
  (getOrCreateDocument r db1 y1).1
    = Y_applyUpdate Y_Doc_new (Y_encodeStateAsUpdate d).
Proof.
  intros Ed Hnd y1 db1. subst y1 db1. unfold destroyDocument. rewrite Ed.
  cbn [fst snd]. split_and!.
  - simpl. apply lookup_delete_eq.
  - simpl. apply lookup_delete_eq.
  - intros r' Hr'. simpl. by rewrite !lookup_delete_ne.
  - unfold getActiveRoomCount; simpl. by apply map_size_delete_Some.
  - done.
  - unfold getOrCreateDocument; simpl. rewrite lookup_delete_eq. simpl.
    fold (seeded_document r (saveSnapshot_rows r d now (roomSnapshot db))).
    by apply seeded_after_save.
Qed.

(** X16.  [destroyDocument] of a room without a cached document changes
    nothing, neither the cache nor the store, so a second
    [destroyDocument] of a room changes nothing either: no second
    snapshot is written. *)
Theorem destroyDocument_idempotent r now now' y db :
  (documents y !! r = None → destroyDocument r now y db = (y, db)) ∧
  destroyDocument r now' (destroyDocument r now y db).1
    (destroyDocument r now y db).2
    = destroyDocument r now y db.
Proof.
  assert (Hnone : ∀ y0 db0 t, documents y0 !! r = None →
                    destroyDocument r t y0 db0 = (y0, db0)).
  { intros y0 db0 t E. unfold destroyDocument. by rewrite E. }
  split; [apply Hnone |].
  rewrite Hnone; [by destruct (destroyDocument r now y db) |].
  rewrite destroyDocument_manager.
  destruct (documents y !! r) eqn:E; simpl; [apply lookup_delete_eq | done].
Qed.

(** X17.  [applyUpdate] on a room without a cached document returns
    false and leaves the manager as it is, whatever the bytes.  On a room
    with a cached document it throws when the bytes are not a Yjs update,
    and otherwise returns true: the full state and the state vector read
    afterwards are those of the document with the update applied, the
    other rooms read as before, and neither the number of active rooms
    nor the save timers change.  So it returns true exactly when the
    room has a cached document and the bytes are an update. *)
Theorem applyUpdate_reports_document r update y :
  (documents y !! r = None → applyUpdate r update y = Some (false, y)) ∧
  (is_Some (documents y !! r) → Y_decodes update = false →
   applyUpdate r update y = None) ∧
  (∀ d, documents y !! r = Some d → Y_decodes update = true →
     ∃ y', applyUpdate r update y = Some (true, y') ∧
       getStateAsUpdate r y'
         = Some (Y_encodeStateAsUpdate (Y_applyUpdate d update)) ∧
       getStateVector r y'
         = Some (Y_encodeStateVector (Y_applyUpdate d update)) ∧
       (∀ r', r' ≠ r → getStateAsUpdate r' y' = getStateAsUpdate r' y ∧
                       getStateVector r' y' = getStateVector r' y) ∧
       getActiveRoomCount y' = getActiveRoomCount y ∧
       saveTimers y' = saveTimers y) ∧
  ((∃ y', applyUpdate r update y = Some (true, y')) ↔
   is_Some (documents y !! r) ∧ Y_decodes update = true).
Proof.
  split_and!.
  - intros E. unfold applyUpdate. by rewrite E.
  - intros Hd Hu. by apply applyUpdate_throws.
  - intros d Ed Hu.
    assert (Ea : applyUpdate r update y = Some (true,
              mkYjsDocumentManager (<[r := Y_applyUpdate d update]> (documents y))
                (saveTimers y) (saveIntervalMs y))).
    { unfold applyUpdate. by rewrite Ed, Hu. }
    eexists. split; [exact Ea |].
    unfold getStateAsUpdate, getStateVector, getActiveRoomCount.
    split_and!.
    + rewrite (applyUpdate_documents _ _ _ _ _ r Ea), decide_True by done.
      by rewrite Ed.
    + rewrite (applyUpdate_documents _ _ _ _ _ r Ea), decide_True by done.
      by rewrite Ed.
    + intros r' Hr'.
      by rewrite !(applyUpdate_documents _ _ _ _ _ r' Ea), !decide_False.
    + simpl. apply map_size_insert_Some. by eexists.
    + done.
  - unfold applyUpdate. destruct (documents y !! r) as [d |].
    + destruct (Y_decodes update).
      * split; [intros _; by split; [eexists |] | intros _; by eexists].
      * split; [by intros [? ?] | by intros [_ ?]].
    + split; [by intros [? ?] | by intros [[? ?] _]].
Qed.

End cache.

(** ** The history of snapshots *)

Section history.

Context `{Yjs, Base64}.

Implicit Types (rows : list RoomSnapshot) (r : string).

Local Instance Zge_antisymm : AntiSymm (=) (flip Z.le).
Proof. intros a b. unfold flip. lia. Qed.

Lemma countdown_S m j : countdown m (S j) = m :: countdown (m - 1) j.
Proof.
  unfold countdown. rewrite <- cons_seq, fmap_cons, <- fmap_S_seq.
  rewrite <- list_fmap_compose. f_equal; [f_equal; lia |].
  apply list_fmap_ext. intros _ i _. simpl. lia.
Qed.

Lemma elem_of_countdown m j x :
  x ∈ countdown m j ↔ ∃ i, i < j ∧ x = (m - Z.of_nat i)%Z.
Proof.
  unfold countdown. rewrite list_elem_of_fmap. split.
  - intros (i & -> & Hi%elem_of_seq). exists i. split; [lia | done].
  - intros (i & Hi & ->). exists i. split; [done |]. apply elem_of_seq. lia.
Qed.

Lemma countdown_sorted m j : StronglySorted (flip Z.le) (countdown m j).
Proof.
  revert m. induction j as [| j IH]; intros m; [constructor |].
  rewrite countdown_S. constructor; [apply IH |].
  apply Forall_forall. intros x (i & _ & ->)%elem_of_countdown.
  unfold flip. lia.
Qed.

Lemma take_countdown n m j : take n (countdown m j) = countdown m (min n j).
Proof. unfold countdown. by rewrite <- fmap_take, take_seq. Qed.

Lemma sorted_versions_unique r rows l :
  StronglySorted (flip Z.le) l → l ≡ₚ version <$> snapshots_of r rows →
  sorted_versions r rows = l.
Proof.
  intros Hl Hp. apply (StronglySorted_unique (flip Z.le)); [| done |].
  - unfold sorted_versions.
    apply (StronglySorted_fmap _ version_desc); [by intros a b ? |].
    apply (StronglySorted_merge_sort _).
  - unfold sorted_versions. by rewrite merge_sort_Permutation, Hp.
Qed.

Lemma sorted_versions_Permutation r rows :
  sorted_versions r rows ≡ₚ version <$> snapshots_of r rows.
Proof. unfold sorted_versions. by rewrite merge_sort_Permutation. Qed.

(** One save of room [r] on a table where the versions of [r] are
    [n, n-1, ...]: the versions become [n+1, n, ...], at most 10. *)
Lemma save_extends_countdown r (d : Doc) now rows n :
  snapshot_ids_unique rows →
  sorted_versions r rows = countdown (Z.of_nat n) (min n 10) →
  sorted_versions r (saveSnapshot_rows r d now rows)
    = countdown (Z.of_nat (S n)) (min (S n) 10).
Proof.
  intros Hnd Hsv.
  pose proof (saveSnapshot_rows_retention r now rows d Hnd) as Hret.
  simpl in Hret. destruct Hret as (_ & _ & Hkept & _).
  assert (Hmax : match max_version r rows with
                 | Some m => (m + 1)%Z
                 | None => 1%Z
                 end = Z.of_nat (S n)).
  { pose proof (sorted_versions_Permutation r rows) as Hp. rewrite Hsv in Hp.
    destruct (max_version r rows) as [m |] eqn:Em.
    - apply max_version_Some in Em as [(s & Hs & <-) Hle].
      assert (Hin : version s ∈ countdown (Z.of_nat n) (min n 10)).
      { rewrite Hp. by apply list_elem_of_fmap_2. }
      apply elem_of_countdown in Hin as (i & Hi & Hv).
      assert (Hn : Z.of_nat n ∈ version <$> snapshots_of r rows).
      { rewrite <- Hp. apply elem_of_countdown. exists 0.
        split; [lia | simpl; lia]. }
      apply list_elem_of_fmap in Hn as (s' & Hs'v & Hs').
      specialize (Hle s' Hs'). lia.
    - apply max_version_None in Em. rewrite Em in Hp. simpl in Hp.
      apply Permutation_nil_r in Hp.
      destruct n; [done |].
      replace (min (S n) 10) with (S (min n 9)) in Hp by lia.
      by rewrite countdown_S in Hp. }
  rewrite Hmax in Hkept.
  set (new := mkRoomSnapshot (fresh_snap_id rows) r (Y_encodeStateAsUpdate d)
                (Y_encodeStateVector d) (Z.of_nat (S n)) now) in *.
  assert (Hall : version <$> merge_sort version_desc (snapshots_of r rows ++ [new])
                 = countdown (Z.of_nat (S n)) (S (min n 10))).
  { apply (StronglySorted_unique (flip Z.le)).
    - apply (StronglySorted_fmap _ version_desc); [by intros a b ? |].
      apply (StronglySorted_merge_sort _).
    - apply countdown_sorted.
    - rewrite merge_sort_Permutation, fmap_app, countdown_S.
      rewrite <- sorted_versions_Permutation, Hsv. simpl.
      replace (Z.of_nat (S n) - 1)%Z with (Z.of_nat n) by lia.
      by rewrite Permutation_app_comm. }
  apply sorted_versions_unique; [apply countdown_sorted |].
  rewrite Hkept, fmap_take, Hall, take_countdown.
  replace (min 10 (S (min n 10))) with (min (S n) 10) by lia. done.
Qed.

(** X18.  Successive saves of a room that had no snapshot give the
    versions 1, 2, 3, ... in turn; after n saves the snapshots kept for
    the room are those with the versions n, n-1, ... down to n-9 at most:
    a contiguous run of at most 10, the newest ones. *)
Theorem saves_leave_contiguous_versions r (l : list (Doc * Date)) rows :
  snapshot_ids_unique rows → snapshots_of r rows = [] →
  sorted_versions r (saves r l rows)
    = countdown (Z.of_nat (length l)) (min (length l) 10) ∧
  snapshot_ids_unique (saves r l rows).
Proof.
  intros Hnd Hempty. induction l as [| save l IH] using rev_ind.
  { split; [| done]. unfold saves, sorted_versions; simpl. by rewrite Hempty. }
  destruct IH as [IHv IHnd]. unfold saves in *. rewrite foldl_app. simpl.
  rewrite length_app. simpl. replace (length l + 1) with (S (length l)) by lia.
  split.
  - by apply save_extends_countdown.
  - by apply (saveSnapshot_rows_retention r save.2 _ save.1 IHnd).
Qed.

Lemma saveSnapshot_table r doc now (y : YjsDocumentManager) db :
  roomSnapshot (saveSnapshot r doc now y db) =
    match document_to_save r doc y with
    | Some d => saveSnapshot_rows r d now (roomSnapshot db)
    | None => roomSnapshot db
    end.
Proof. unfold saveSnapshot. by destruct (document_to_save r doc y). Qed.

Lemma handleDisconnect_snapshot_table (st : Server) c now :
  roomSnapshot (prisma (handleDisconnect c now st)) = roomSnapshot (prisma st) ∨
  ∃ r (d : Doc) now',
    roomSnapshot (prisma (handleDisconnect c now st))
      = saveSnapshot_rows r d now' (roomSnapshot (prisma st)).
Proof.
  destruct (connections (connectionManager st) !! c) as [k |] eqn:Ek.
  - rewrite (handleDisconnect_registered st c now k Ek). cbn [prisma].
    destruct (isRoomEmpty (roomId k)
                (removeConnection c (connectionManager st)).2);
      [| simpl; by left].
    rewrite saveSnapshot_table. cbn [roomSnapshot].
    destruct (document_to_save (roomId k) None (yjsManager st)) as [d |];
      [right; eauto | by left].
  - left. unfold handleDisconnect. by rewrite removeConnection_None.
Qed.

(** The events of the server change the snapshot table by saves only. *)
Lemma step_snapshot_table (st : Server) e :
  roomSnapshot (prisma (step st e)) = roomSnapshot (prisma st) ∨
  ∃ r (d : Doc) now,
    roomSnapshot (prisma (step st e))
      = saveSnapshot_rows r d now (roomSnapshot (prisma st)).
Proof.
  destruct e as [w | c w data now | c w now | r0 now]; cbn [step].
  - by left.
  - destruct (handleMessage_cases st c w data now)
      as [(r & u & t & _ & ->) | [[_ ->] |
          [(delta & r & b & y1 & _ & _ & _ & _ & ->) | (_ & _ & ->)]]];
      [by left | apply handleDisconnect_snapshot_table | by left..].
  - apply (handleDisconnect_snapshot_table
             (mkServer (connectionManager st) (yjsManager st) (prisma st)
                (set_readyState CLOSED w (net st)))).
  - destruct (saveTimers (yjsManager st) !! r0) as [t |]; [| by left].
    cbn [prisma]. rewrite saveSnapshot_table.
    destruct (document_to_save (timer_room t)
                (documents (yjsManager st) !! timer_room t) (yjsManager st))
      as [d |]; [right; eauto | by left].
Qed.

(** X19.  In every state the server reaches from its start, the ids of
    the snapshot table are unique and, for every room, the versions kept
    are n, n-1, ... down to n-9 at most, for some n: a contiguous run of
    at most 10 snapshots. *)
Theorem reachable_snapshot_history evs r :
  let rows := roomSnapshot (prisma (run evs Server_new)) in
  snapshot_ids_unique rows ∧
  length (snapshots_of r rows) ≤ 10 ∧
  ∃ n, sorted_versions r rows = countdown (Z.of_nat n) (min n 10).
Proof.
  intros rows. subst rows.
  assert (Hinv : snapshot_ids_unique (roomSnapshot (prisma (run evs Server_new))) ∧
    ∀ r', ∃ n, sorted_versions r' (roomSnapshot (prisma (run evs Server_new)))
               = countdown (Z.of_nat n) (min n 10)).
  { induction evs as [| e evs [IHnd IHv]] using rev_ind.
    { split; [constructor |]. intros r'. by exists 0. }
    rewrite run_snoc. set (st := run evs Server_new) in *.
    destruct (step_snapshot_table st e) as [-> | (r0 & d & now & ->)]; [done |].
    pose proof (saveSnapshot_rows_retention r0 now _ d IHnd) as Hret.
    simpl in Hret. destruct Hret as (_ & _ & _ & _ & _ & Hother & Hnd').
    split; [done |]. intros r'. destruct (IHv r') as [n Hn].
    destruct (decide (r' = r0)) as [-> | Hr'].
    - exists (S n). by apply save_extends_countdown.
    - exists n. unfold sorted_versions in *. by rewrite Hother. }
  destruct Hinv as [Hnd Hv]. split; [done |].
  destruct (Hv r) as [n Hn]. split; [| by exists n].
  rewrite <- (length_fmap version), <- sorted_versions_Permutation, Hn.
  unfold countdown. rewrite length_fmap, length_seq. lia.
Qed.

(** X20.  The final snapshot is the resume point: when the last member
    of a room has disconnected and a server that has no cached document
    for the room, but the same store, admits a client to the room, the
    document created for the room is the empty document with the full
    state of the old document applied. *)
Theorem final_snapshot_resumes (st st2 : Server) c now k (d : Doc) c2 w2 u2 now2 :
  connections (connectionManager st) !! c = Some k →
  isRoomEmpty (roomId k) (removeConnection c (connectionManager st)).2 = true →
  documents (yjsManager st) !! roomId k = Some d →
  snapshot_ids_unique (roomSnapshot (prisma st)) →
  prisma st2 = prisma (handleDisconnect c now st) →
  documents (yjsManager st2) !! roomId k = None →
  documents (yjsManager (handleConnect c2 w2 (roomId k) u2 now2 st2)) !! roomId k
    = Some (Y_applyUpdate Y_Doc_new (Y_encodeStateAsUpdate d)).
Proof.
  intros Ek Hempty Hd Hnd Hstore Hnone.
  rewrite handleConnect_documents, decide_True by done.
  rewrite Hnone, Hstore. simpl. f_equal.
  rewrite (handleDisconnect_registered st c now k Ek). cbn [prisma].
  rewrite Hempty, saveSnapshot_table. unfold document_to_save. rewrite Hd.
  by apply seeded_after_save.
Qed.


(** X22.  A tick of the save timer of a room writes a snapshot of the
    cached document whether or not the document has changed: a new row
    with the full state and the state vector of the document and a
    version above all versions of the room.  The registry, the cache, the
    sockets and the other tables are unchanged.  A tick for a room
    without a save timer changes nothing. *)
Theorem timer_tick_saves (st : Server) r now :
  (saveTimers (yjsManager st) !! r = None → step st (OnTimer r now) = st) ∧
  ∀ t (d : Doc),
    saveTimers (yjsManager st) !! r = Some t →
    documents (yjsManager st) !! timer_room t = Some d →
    snapshot_ids_unique (roomSnapshot (prisma st)) →
    let st' := step st (OnTimer r now) in
    connectionManager st' = connectionManager st ∧
    yjsManager st' = yjsManager st ∧
    net st' = net st ∧
    room (prisma st') = room (prisma st) ∧
    roomParticipant (prisma st') = roomParticipant (prisma st) ∧
    ∃ new, new ∈ snapshots_of (timer_room t) (roomSnapshot (prisma st')) ∧
           snapshotData new = Y_encodeStateAsUpdate d ∧
           stateVector new = Y_encodeStateVector d ∧
           ∀ s, s ∈ snapshots_of (timer_room t) (roomSnapshot (prisma st)) →
                (version s < version new)%Z.
Proof.
  split.
  - intros E. cbn [step]. by rewrite E.
  - intros t d Et Ed Hnd st'. subst st'. cbn [step]. rewrite Et.
    cbn [connectionManager yjsManager net prisma].
    destruct (saveSnapshot_keeps_tables (timer_room t)
                (documents (yjsManager st) !! timer_room t) now
                (yjsManager st) (prisma st)) as [-> ->].
    split_and!; try done.
    rewrite saveSnapshot_table. unfold document_to_save. rewrite Ed.
    destruct (saveSnapshot_rows_retention (timer_room t) now
                (roomSnapshot (prisma st)) d Hnd) as (Hv & Hnew & _).
    eexists. split; [exact Hnew |]. split_and!; [done | done | exact Hv].
Qed.

End history.

(** * Examples for the further properties *)

Section more_examples.

#[local] Existing Instance ItemsYjs.
#[local] Existing Instance RFC4648.

Ltac by_evaluation := apply (bool_decide_unpack _); vm_compute; exact I.

Lemma room_with_AB_fresh : reachable_fresh (connectionManager room_with_AB).
Proof.
  apply (reachable_fresh_call _ (CallAdd "cB" 2 "R1" userB 200)).
  - apply (reachable_fresh_call _ (CallAdd "cA" 1 "R1" userA 100)).
    + apply reachable_fresh_new.
    + reflexivity.
  - reflexivity.
Qed.

Lemma room_with_AB_distinct :
  NoDup (bucket (connectionManager room_with_AB) "R1") ∧
  sockets_distinct (connectionManager room_with_AB) "R1".
Proof. split; [| apply sockets_distinct_check]; by_evaluation. Qed.

(** X4: B chats in R1; A and B both get the frame. *)
Lemma handleChat_S1 :
  let st' := handleChat "cB" "B" "hello" 7 room_with_AB in
  outbox 1 (net st')
    = outbox 1 (net room_with_AB) ++ [ChatBroadcast "B" "hello" 7 "cB"] ∧
  outbox 2 (net st')
    = outbox 2 (net room_with_AB) ++ [ChatBroadcast "B" "hello" 7 "cB"].
Proof.
  destruct room_with_AB_distinct as [Hnd Hdist].
  destruct (handleChat_reaches_sender room_with_AB "cB" entryB "B" "hello" 7)
    as (Hout & _); [reflexivity | discriminate | exact Hnd | exact Hdist |].
  split.
  - apply (Hout "cA" entryA); [apply in_bucket_bucket; by_evaluation | |];
      reflexivity.
  - apply (Hout "cB" entryB); [apply in_bucket_bucket; by_evaluation | |];
      reflexivity.
Defined.

(** X5: B sends a presence frame that names cA; A is sent it under cB. *)
Lemma presence_S1 :
  let st' := handleMessage "cB" 2
               (Message (PresenceMessage "cA" (Some (mkCursor 10 20)) None None))
               300 room_with_AB in
  outbox 1 (net st')
    = outbox 1 (net room_with_AB)
      ++ [PresenceBroadcast "cB" (Some (mkCursor 10 20)) None None] ∧
  net st' !! 2 = net room_with_AB !! 2.
Proof.
  destruct room_with_AB_distinct as [Hnd Hdist].
  destruct (presence_relayed_under_session_id room_with_AB "cB" 2 300 entryB
              "cA" (Some (mkCursor 10 20)) None None)
    as (Hout & Hself & _);
    [reflexivity | apply in_bucket_bucket; by_evaluation | discriminate
    | exact Hnd | exact Hdist |].
  split; [| exact Hself].
  apply (Hout "cA" entryA);
    [apply in_bucket_bucket; by_evaluation | discriminate | |]; reflexivity.
Defined.

(** X7: B leaves R1, where A stays. *)
Lemma handleDisconnect_S1 :
  let st' := handleDisconnect "cB" 400 room_with_AB in
  outbox 1 (net st')
    = outbox 1 (net room_with_AB) ++ [LeaveBroadcast "cB" "u2"] ∧
  net st' !! 2 = net room_with_AB !! 2 ∧
  roomSnapshot (prisma st') = [] ∧
  ¬ has_open_row "cB" (roomParticipant (prisma st')).
Proof.
  destruct room_with_AB_distinct as [Hnd Hdist].
  destruct (handleDisconnect_leave_fanout room_with_AB "cB" 400 entryB)
    as (_ & _ & Hrow & _ & Hout & Hself & Hsnap & _);
    [reflexivity | apply in_bucket_bucket; by_evaluation | exact Hnd
    | exact Hdist |].
  split_and!.
  - apply (Hout "cA" entryA);
      [apply in_bucket_bucket; by_evaluation | discriminate | |]; reflexivity.
  - exact Hself.
  - apply Hsnap. exists "cA". split; [discriminate |].
    apply in_bucket_bucket. by_evaluation.
  - exact Hrow.
Defined.

(** X9: two connections name R1 in [room_with_AB]. *)
Lemma getRoomClientCount_S1 :
  getRoomClientCount "R1" (connectionManager room_with_AB)
    = size (registered_connections "R1" (connectionManager room_with_AB)) ∧
  getRoomClientCount "R1" (connectionManager room_with_AB) = 2.
Proof.
  destruct (getRoomClientCount_counts_registered
              (connectionManager room_with_AB) "R1" room_with_AB_fresh)
    as [Hcount _].
  split; [exact Hcount | reflexivity].
Defined.

(** X10: the participants of R1 are A, then B. *)
Lemma getRoomParticipants_S1 :
  participant_clientId <$> getRoomParticipants "R1" (connectionManager room_with_AB)
    = ["cA"; "cB"].
Proof.
  destruct (getRoomParticipants_lists_bucket
              (connectionManager room_with_AB) "R1" room_with_AB_fresh)
    as [Hids _].
  rewrite Hids. reflexivity.
Defined.

(** X11: the statistics of [room_with_AB]. *)
Lemma getStats_S1 :
  totalConnections (getStats (connectionManager room_with_AB))
    = sum_list_with stat_clientCount
        (roomStats (getStats (connectionManager room_with_AB))).
Proof.
  destruct (getStats_totals (connectionManager room_with_AB) room_with_AB_fresh)
    as [Htotal _].
  exact Htotal.
Defined.

(** X12: B is attached to [room_with_A] and detached again. *)
Lemma attach_then_detach_S1 :
  removeConnection "cB"
    (addConnection "cB" 2 "R1" userB 200 (connectionManager room_with_A))
    = (Some ("R1", userB), connectionManager room_with_A).
Proof.
  apply attach_then_detach_restores.
  - apply (reachable_fresh_call _ (CallAdd "cA" 1 "R1" userA 100)).
    + apply reachable_fresh_new.
    + reflexivity.
  - reflexivity.
Defined.

(** X15: the document of R1 in [room_drawn] is destroyed and loaded
    again. *)
Lemma destroyDocument_S1 :
  let y1 := (destroyDocument "R1" 500 (yjsManager room_drawn) (prisma room_drawn)).1 in
  let db1 := (destroyDocument "R1" 500 (yjsManager room_drawn) (prisma room_drawn)).2 in
  documents (yjsManager room_drawn) !! "R1" = Some [x02] ∧
  documents y1 !! "R1" = None ∧
  (getOrCreateDocument "R1" db1 y1).1 = [x02].
Proof.
  split; [reflexivity |].
  destruct (destroyDocument_then_reload "R1" 500 (yjsManager room_drawn)
              (prisma room_drawn) [x02])
    as (Hgone & _ & _ & _ & _ & Hload); [reflexivity | by_evaluation |].
  split; [exact Hgone | exact Hload].
Defined.

(** X18: twelve saves of R1 on an empty table leave the versions 12
    down to 3. *)
Lemma saves_S1 :
  sorted_versions "R1" (saves "R1" (replicate 12 (Y_Doc_new, 0%Z)) [])
    = [12; 11; 10; 9; 8; 7; 6; 5; 4; 3]%Z.
Proof.
  destruct (saves_leave_contiguous_versions "R1" (replicate 12 (Y_Doc_new, 0%Z)) [])
    as [Hv _]; [constructor | reflexivity |].
  rewrite Hv. reflexivity.
Defined.

(** X20, scenario S2: A has drawn in R1 and left; the restarted server
    admits B to R1 and creates the document from the final snapshot. *)
Lemma final_snapshot_S2 :
  documents (yjsManager (handleConnect "cB" 2 "R1" userB 900 restarted)) !! "R1"
    = Some [x02].
Proof.
  apply (final_snapshot_resumes room_drawn restarted "cA" 500 entryA
           [x02] "cB" 2 userB 900).
  - reflexivity.
  - reflexivity.
  - reflexivity.
  - by_evaluation.
  - reflexivity.
  - reflexivity.
Defined.



Lemma socket_of_inj : Inj (=) (=) socket_of.
Proof.
  intros a b Heq. unfold socket_of in Heq.
  apply Pos2Nat.inj in Heq. by apply (inj encode).
Qed.

(** X23: the registry after [paired_events], in which the sessions a
    and b are both members of R1. *)
Lemma run_buckets_and_sockets_paired :
  let cm := connectionManager (run paired_events Server_new) in
  bucket cm "R1" = ["a"; "b"] ∧
  (ws <$> connections cm !! "a") = Some (socket_of "a") ∧
  (ws <$> connections cm !! "b") = Some (socket_of "b") ∧
  NoDup (bucket cm "R1") ∧
  (∀ ka kb, connections cm !! "a" = Some ka → connections cm !! "b" = Some kb →
            ws ka ≠ ws kb) ∧
  socket_private cm "R1" "b" (socket_of "b").
Proof.
  intros cm.
  assert (Hbucket : bucket cm "R1" = ["a"; "b"]) by reflexivity.
  destruct (run_buckets_and_sockets socket_of paired_events)
    as (Hnd & Hdist & Hpriv).
  - apply socket_of_inj.
  - repeat constructor.
  - split_and!; [done | reflexivity | reflexivity | apply Hnd | | apply Hpriv].
    intros ka kb Ea Eb. apply (Hdist "R1" "a" "b" ka kb); try done.
    + apply in_bucket_bucket. fold cm. rewrite Hbucket. by left.
    + apply in_bucket_bucket. fold cm. rewrite Hbucket. right. by left.
Defined.

(** X24: A is registered in R1, and R1 has a document. *)
Lemma registered_room_has_document_S1 :
  is_Some (documents
             (yjsManager
                (run [OnConnection 1; OnConnection 2;
                      OnMessage "cA" 1 (Message (ConnectMessage "R1" userA None)) 100]
                   Server_new))
             !! "R1").
Proof.
  apply (run_registered_room_has_document
           [OnConnection 1; OnConnection 2;
            OnMessage "cA" 1 (Message (ConnectMessage "R1" userA None)) 100]
           "cA" entryA).
  reflexivity.
Defined.

End more_examples.
